(** * A shallow embedding of [executor/postgreshandler.py]

    The PostgreSQL handler of the HNSW/Postgres executor: shard routing by
    SHA-256, the schema-version gate, the transactional document table and
    the snapshot / delta reads.  Every definition below follows the Python
    source; the relational backend, the connection pool and the hash are
    modelled at their interface. *)

From Stdlib Require Import ZArith Lia List String Ascii.
From stdpp Require Import base numbers list strings gmap fin_maps sorting pretty.

Local Open Scope Z_scope.

(** ** Python values *)

(** Raw byte strings ([bytes]): every element is meant to lie in [0, 256). *)
Definition bytes := list Z.

Definition is_byte (b : Z) : Prop := 0 <= b < 256.

(** A Python [str] is a sequence of Unicode code points. *)
Definition pystr := list N.

(** The exceptions the handler can raise or meet. *)
Inductive exc : Type :=
  | UnicodeEncodeError
  | ZeroDivisionError
  | ValueError
  | TypeError
  | AttributeError
  | UnboundLocalError
  | PoolError
  | UniqueViolation
  | UndefinedTable
  | InFailedSqlTransaction
  | SyntaxError
  | RuntimeError (msg : string).

Inductive result (A : Type) : Type :=
  | Ok (a : A)
  | Raise (e : exc).
Arguments Ok {A} a.
Arguments Raise {A} e.

(** Sequencing: an exception skips the rest of the block. *)
#[global] Instance result_ret : MRet result := @Ok.
#[global] Instance result_bind : MBind result := fun A B k r =>
  match r with
  | Ok a => k a
  | Raise e => Raise e
  end.

(** [[f(x) for x in xs]]: the first exception aborts the comprehension. *)
Fixpoint comprehension {A B} (f : A -> result B) (xs : list A) : result (list B) :=
  match xs with
  | [] => Ok []
  | x :: xs' => y ← f x; ys ← comprehension f xs'; Ok (y :: ys)
  end.

(** ** [bytes(s, 'utf-8')] *)

Module Utf8.

Definition cont (x : Z) : Z := Z.lor 0x80 (Z.land x 0x3F).

Definition encode_point (c : N) : result bytes :=
  let z := Z.of_N c in
  if z <? 0x80 then Ok [z]
  else if z <? 0x800 then Ok [Z.lor 0xC0 (Z.shiftr z 6); cont z]
  else if z <? 0x10000 then
    if (0xD800 <=? z) && (z <=? 0xDFFF) then Raise UnicodeEncodeError
    else Ok [Z.lor 0xE0 (Z.shiftr z 12); cont (Z.shiftr z 6); cont z]
  else if z <=? 0x10FFFF then
    Ok [Z.lor 0xF0 (Z.shiftr z 18); cont (Z.shiftr z 12);
        cont (Z.shiftr z 6); cont z]
  else Raise UnicodeEncodeError.

Fixpoint encode (s : pystr) : result bytes :=
  match s with
  | [] => Ok []
  | c :: s' => b ← encode_point c; bs ← encode s'; Ok (b ++ bs)
  end.

End Utf8.

(** A [str] literal of the source, read as its code points. *)
Fixpoint str (s : string) : pystr :=
  match s with
  | EmptyString => []
  | String a s' => N_of_ascii a :: str s'
  end.

(** ** [hashlib.sha256] (FIPS 180-4) *)

Module Sha256.

Definition mask32 : Z := 0xFFFFFFFF.
Definition w32 (x : Z) : Z := Z.land x mask32.
Definition add32 (x y : Z) : Z := w32 (x + y).
Definition rotr (n x : Z) : Z :=
  Z.lor (Z.shiftr x n) (w32 (Z.shiftl x (32 - n))).
Definition shr (n x : Z) : Z := Z.shiftr x n.
Definition not32 (x : Z) : Z := Z.lxor x mask32.

Definition Ch (x y z : Z) : Z := Z.lxor (Z.land x y) (Z.land (not32 x) z).
Definition Maj (x y z : Z) : Z :=
  Z.lxor (Z.lxor (Z.land x y) (Z.land x z)) (Z.land y z).
Definition Sigma0 (x : Z) : Z := Z.lxor (Z.lxor (rotr 2 x) (rotr 13 x)) (rotr 22 x).
Definition Sigma1 (x : Z) : Z := Z.lxor (Z.lxor (rotr 6 x) (rotr 11 x)) (rotr 25 x).
Definition sigma0 (x : Z) : Z := Z.lxor (Z.lxor (rotr 7 x) (rotr 18 x)) (shr 3 x).
Definition sigma1 (x : Z) : Z := Z.lxor (Z.lxor (rotr 17 x) (rotr 19 x)) (shr 10 x).

(** The largest [r] below [2 ^ bits] with [r ^ k <= n]. *)
Fixpoint iroot (k : Z) (bits : nat) (n acc : Z) : Z :=
  match bits with
  | O => acc
  | S bits' =>
      let cand := acc + 2 ^ Z.of_nat bits' in
      iroot k bits' n (if cand ^ k <=? n then cand else acc)
  end.

Definition primes : list Z :=
  [ 2; 3; 5; 7; 11; 13; 17; 19; 23; 29; 31; 37; 41; 43; 47; 53;
    59; 61; 67; 71; 73; 79; 83; 89; 97; 101; 103; 107; 109; 113; 127; 131;
    137; 139; 149; 151; 157; 163; 167; 173; 179; 181; 191; 193; 197; 199;
    211; 223; 227; 229; 233; 239; 241; 251; 257; 263; 269; 271; 277; 281;
    283; 293; 307; 311 ].

(** The round constants: the first 32 bits of the fractional parts of the
    cube roots of the first 64 primes. *)
Definition K : list Z :=
  Eval vm_compute in map (fun p => w32 (iroot 3 36 (p * 2 ^ 96) 0)) primes.

(** The initial hash value: the first 32 bits of the fractional parts of
    the square roots of the first 8 primes. *)
Definition H0 : list Z :=
  Eval vm_compute in map (fun p => w32 (iroot 2 36 (p * 2 ^ 64) 0)) (take 8 primes).

(** Big-endian serialisation of a value on [n] bytes. *)
Fixpoint be_bytes (n : nat) (x : Z) : bytes :=
  match n with
  | O => []
  | S n' => Z.land (Z.shiftr x (8 * Z.of_nat n')) 0xFF :: be_bytes n' x
  end.

Definition be_uint (bs : bytes) : Z :=
  fold_left (fun acc b => acc * 256 + b) bs 0.

(** Padding: a [0x80] byte, zeros up to 56 modulo 64, the bit length on 8 bytes. *)
Definition pad (msg : bytes) : bytes :=
  let len := Z.of_nat (length msg) in
  msg ++ [0x80] ++ repeat 0 (Z.to_nat ((55 - len) mod 64)) ++ be_bytes 8 (8 * len).

Fixpoint chunks {A} (fuel : nat) (n : nat) (l : list A) : list (list A) :=
  match fuel, l with
  | O, _ => []
  | _, [] => []
  | S fuel', _ => take n l :: chunks fuel' n (drop n l)
  end.

Definition words_of_block (blk : bytes) : list Z :=
  map be_uint (chunks 16 4 blk).

(** The message schedule, most recent word first. *)
Fixpoint schedule (n : nat) (rev_ws : list Z) : list Z :=
  match n with
  | O => rev_ws
  | S n' =>
      let w := add32 (add32 (add32 (sigma1 (nth 1 rev_ws 0)) (nth 6 rev_ws 0))
                            (sigma0 (nth 14 rev_ws 0))) (nth 15 rev_ws 0) in
      schedule n' (w :: rev_ws)
  end.

Definition round (st : list Z) (kw : Z * Z) : list Z :=
  match st with
  | [a; b; c; d; e; f; g; h] =>
      let t1 := add32 (add32 (add32 (add32 h (Sigma1 e)) (Ch e f g)) (fst kw)) (snd kw) in
      let t2 := add32 (Sigma0 a) (Maj a b c) in
      [add32 t1 t2; a; b; c; add32 d t1; e; f; g]
  | _ => st
  end.

Definition compress (h : list Z) (blk : bytes) : list Z :=
  let ws := rev (schedule 48 (rev (words_of_block blk))) in
  let st := fold_left round (combine K ws) h in
  zip_with add32 h st.

Definition sha256 (msg : bytes) : bytes :=
  let p := pad msg in
  let blocks := chunks (length p) 64 p in
  concat (map (be_bytes 4) (fold_left compress blocks H0)).

Definition hex_digit (d : Z) : ascii :=
  if d <? 10 then ascii_of_N (Z.to_N (48 + d)) else ascii_of_N (Z.to_N (87 + d)).

(** [hexdigest()]: two lower-case hexadecimal digits per byte. *)
Fixpoint hexlify (bs : bytes) : string :=
  match bs with
  | [] => EmptyString
  | b :: bs' => String (hex_digit (Z.shiftr b 4)) (String (hex_digit (Z.land b 0xF)) (hexlify bs'))
  end.

Definition hexdigest (msg : bytes) : string := hexlify (sha256 msg).

End Sha256.

(** ** [int(s, 16)] and [%] *)

Definition hex_value (a : ascii) : option Z :=
  let n := Z.of_N (N_of_ascii a) in
  if (48 <=? n) && (n <=? 57) then Some (n - 48)
  else if (97 <=? n) && (n <=? 102) then Some (n - 87)
  else if (65 <=? n) && (n <=? 70) then Some (n - 55)
  else None.

Fixpoint int_digits (acc : Z) (s : string) : result Z :=
  match s with
  | EmptyString => Ok acc
  | String a s' =>
      match hex_value a with
      | Some d => int_digits (acc * 16 + d) s'
      | None => Raise ValueError
      end
  end.

(** [int(s, 16)] on a string of hexadecimal digits; anything else, and
    the empty string, is a [ValueError]. *)
Definition int16 (s : string) : result Z :=
  match s with
  | EmptyString => Raise ValueError
  | _ => int_digits 0 s
  end.

(** Python's [a % b]: the result has the sign of [b]; [b = 0] raises. *)
Definition py_mod (a b : Z) : result Z :=
  if b =? 0 then Raise ZeroDivisionError else Ok (a mod b).

(** ** numpy buffers *)

Inductive dtype : Type := float16 | float32 | float64.

Definition itemsize (dt : dtype) : Z :=
  match dt with float16 => 2 | float32 => 4 | float64 => 8 end.

Record ndarray : Type := { nd_dtype : dtype; nd_data : bytes }.

Definition tobytes (a : ndarray) : bytes := nd_data a.

(** [np.frombuffer(buf, dtype=dt)]: the buffer must hold whole elements. *)
Definition frombuffer (buf : bytes) (dt : dtype) : result ndarray :=
  if Z.of_nat (length buf) mod itemsize dt =? 0
  then Ok {| nd_dtype := dt; nd_data := buf |}
  else Raise ValueError.

(** ** Documents, rows and the database *)

Record Document : Type := {
  id : pystr;
  embedding : option ndarray;
  content : bytes;
  scores : bytes
}.

(** A row of the primary table; [doc_id] is the key of the table. *)
Record row : Type := {
  r_embedding : option bytes;
  r_doc : option bytes;
  r_shard : Z;
  r_last_updated : Z
}.

Abbreviation table_t := (gmap pystr row).

Record database : Type := {
  tables : gmap string table_t;
  schema_versions : option (list (string * Z))
}.

Definition SCHEMA_VERSION : Z := 2.
Definition SCHEMA_VERSIONS_TABLE_NAME : string := "schema_versions".

Inductive level : Type := DEBUG | INFO | WARNING | ERROR.

Record log_record : Type := { lvl : level; text : string }.

(** ** [psycopg2.pool.SimpleConnectionPool], at its interface *)

Definition conn := nat.

Inductive pool_event : Type :=
  | Getconn (c : conn)
  | Putconn (c : conn).

Record pool_t : Type := {
  closed : bool;
  minconn : nat;
  maxconn : nat;
  idle : list conn;
  used : list conn;
  next_conn : conn;
  events : list pool_event
}.

Definition SimpleConnectionPool (minc maxc : nat) : pool_t :=
  {| closed := false; minconn := minc; maxconn := maxc;
     idle := seq 0 minc; used := []; next_conn := minc; events := [] |}.

Definition getconn (p : pool_t) : result (conn * pool_t) :=
  if closed p then Raise PoolError
  else match idle p with
       | c :: rest =>
           Ok (c, {| closed := closed p; minconn := minconn p; maxconn := maxconn p;
                     idle := rest; used := c :: used p; next_conn := next_conn p;
                     events := events p ++ [Getconn c] |})
       | [] =>
           if (length (used p) =? maxconn p)%nat then Raise PoolError
           else let c := next_conn p in
                Ok (c, {| closed := closed p; minconn := minconn p; maxconn := maxconn p;
                          idle := []; used := c :: used p; next_conn := S c;
                          events := events p ++ [Getconn c] |})
       end.

Fixpoint remove_first (c : conn) (l : list conn) : list conn :=
  match l with
  | [] => []
  | x :: l' => if (x =? c)%nat then l' else x :: remove_first c l'
  end.

(** [putconn(conn, close=False)]: an unknown connection is refused; a
    known one leaves the used set, and is kept idle while fewer than
    [minconn] are. *)
Definition putconn (p : pool_t) (c : conn) : result pool_t :=
  if closed p then Raise PoolError
  else if existsb (Nat.eqb c) (used p) then
    Ok {| closed := closed p; minconn := minconn p; maxconn := maxconn p;
          idle := if (length (idle p) <? minconn p)%nat then c :: idle p else idle p;
          used := remove_first c (used p); next_conn := next_conn p;
          events := events p ++ [Putconn c] |}
  else Raise PoolError.

Definition closeall (p : pool_t) : result pool_t :=
  if closed p then Raise PoolError
  else Ok {| closed := true; minconn := minconn p; maxconn := maxconn p;
             idle := idle p; used := used p; next_conn := next_conn p;
             events := events p |}.

(** ** The handler object *)

Record handler : Type := {
  table : string;
  dump_dtype : dtype;
  partitions : Z;
  snapshot_table : string;
  mute_unique_warnings : bool;
  postgreSQL_pool : option pool_t;
  logger : list log_record
}.

Definition set_pool (h : handler) (p : option pool_t) : handler :=
  {| table := table h; dump_dtype := dump_dtype h; partitions := partitions h;
     snapshot_table := snapshot_table h;
     mute_unique_warnings := mute_unique_warnings h;
     postgreSQL_pool := p; logger := logger h |}.

Definition set_logger (h : handler) (l : list log_record) : handler :=
  {| table := table h; dump_dtype := dump_dtype h; partitions := partitions h;
     snapshot_table := snapshot_table h;
     mute_unique_warnings := mute_unique_warnings h;
     postgreSQL_pool := postgreSQL_pool h; logger := l |}.

(** ** Transactions

    A connection works on a private copy of the database; [commit]
    publishes it, [rollback] discards it.  A statement that fails leaves
    the transaction in the failed state, whose commit is a rollback. *)

Record session : Type := {
  committed : database;
  working : database;
  failed : bool
}.

Record txstate : Type := { sess : session; logs : list log_record }.

Definition begin (d : database) : session :=
  {| committed := d; working := d; failed := false |}.

Definition commit_session (s : session) : session :=
  if failed s then begin (committed s) else begin (working s).

Definition rollback_session (s : session) : session := begin (committed s).

(** Code running on a connection: it may raise, and it changes the
    session and the log. *)
Definition tx (A : Type) : Type := txstate -> result A * txstate.

#[global] Instance tx_ret : MRet tx := fun A a st => (Ok a, st).
#[global] Instance tx_bind : MBind tx := fun A B k m st =>
  match m st with
  | (Ok a, st') => k a st'
  | (Raise e, st') => (Raise e, st')
  end.

Definition lift {A} (r : result A) : tx A := fun st => (r, st).

Definition log (l : level) (s : string) : tx unit := fun st =>
  (Ok tt, {| sess := sess st; logs := logs st ++ [{| lvl := l; text := s |}] |}).

Definition commit : tx unit := fun st =>
  (Ok tt, {| sess := commit_session (sess st); logs := logs st |}).

Definition rollback : tx unit := fun st =>
  (Ok tt, {| sess := rollback_session (sess st); logs := logs st |}).

(** [try: m except <the exceptions on which h answers>: ...] *)
Definition try_except {A} (m : tx A) (h : exc -> option (tx A)) : tx A := fun st =>
  match m st with
  | (Ok a, st') => (Ok a, st')
  | (Raise e, st') =>
      match h e with
      | Some k => k st'
      | None => (Raise e, st')
      end
  end.

(** [cursor.execute(...)]: one statement, atomic on the working copy. *)
Definition execute {A} (f : database -> result (A * database)) : tx A := fun st =>
  let s := sess st in
  if failed s then (Raise InFailedSqlTransaction, st)
  else match f (working s) with
       | Ok (a, w) =>
           (Ok a, {| sess := {| committed := committed s; working := w; failed := false |};
                     logs := logs st |})
       | Raise e =>
           (Raise e, {| sess := {| committed := committed s; working := working s;
                                   failed := true |};
                        logs := logs st |})
       end.

(** [psycopg2.extras.execute_batch]: the statement once per argument
    tuple, in order, within the current transaction. *)
Fixpoint execute_batch {X} (f : X -> database -> result (unit * database))
    (argslist : list X) : tx unit :=
  match argslist with
  | [] => mret tt
  | a :: rest => _ ← execute (f a); execute_batch f rest
  end.

(** A statement on one table of the name space. *)
Definition on_table {A} (name : string) (f : table_t -> result (A * table_t))
    (d : database) : result (A * database) :=
  match tables d !! name with
  | None => Raise UndefinedTable
  | Some t =>
      match f t with
      | Ok (a, t') =>
          Ok (a, {| tables := <[name := t']> (tables d);
                    schema_versions := schema_versions d |})
      | Raise e => Raise e
      end
  end.

(** A statement with a tuple of shards as the operand of [IN].  psycopg2
    writes a Python tuple as a parenthesised list and the empty tuple as
    [()], and [shard in ()] is not SQL: PostgreSQL raises a syntax error
    when it parses the statement, before it looks at any table. *)
Definition in_tuple {A} (shards : list Z) (q : database -> result (A * database))
    (d : database) : result (A * database) :=
  match shards with
  | [] => Raise SyntaxError
  | _ :: _ => q d
  end.

(** What a call leaves to its caller: a value or an exception, or, for a
    generator and for a loop over mutable arguments, the items produced so
    far and the exception that stopped it, if any. *)
Record stream (Y : Type) : Type := { yielded : list Y; stop : option exc }.
Arguments yielded {Y} _.
Arguments stop {Y} _.

Class Outcome (R : Type) : Type := {
  raised : R -> option exc;
  throw : exc -> R;
  reraise : exc -> R -> R
}.

#[global] Instance result_outcome {A} : Outcome (result A) := {|
  raised r := match r with Ok _ => None | Raise e => Some e end;
  throw e := Raise e;
  reraise e _ := Raise e
|}.

#[global] Instance stream_outcome {Y} : Outcome (stream Y) := {|
  raised r := stop r;
  throw e := {| yielded := []; stop := Some e |};
  reraise e r := {| yielded := yielded r; stop := Some e |}
|}.

(** [for x in xs: yield f(x)], up to the first exception. *)
Fixpoint yield_each {X Y} (f : X -> result Y) (xs : list X) : stream Y :=
  match xs with
  | [] => {| yielded := []; stop := None |}
  | x :: xs' =>
      match f x with
      | Ok y => let r := yield_each f xs' in
                {| yielded := y :: yielded r; stop := stop r |}
      | Raise e => {| yielded := []; stop := Some e |}
      end
  end.

(** ** Scoped acquisition of a connection *)

(** [self.postgreSQL_pool.getconn()], then [connection.autocommit = False]:
    the assignment sets a flag of an open, idle connection and the model
    keeps no state for it.  In dry-run mode the attribute
    [postgreSQL_pool] was never assigned. *)
Definition _get_connection (self : handler) : result (conn * pool_t) :=
  match postgreSQL_pool self with
  | None => Raise AttributeError
  | Some p => getconn p
  end.

Definition _close_connection (p : pool_t) (connection : conn) : result pool_t :=
  putconn p connection.

(** Leaving [with conn]: commit when the block ended normally, rollback
    when it raised. *)
Definition conn_exit {R} `{Outcome R} (r : R) (s : session) : session :=
  match raised r with
  | None => commit_session s
  | Some _ => rollback_session s
  end.

(** [with self.get_connection() as connection: body].  When the
    acquisition raises, [conn] is unbound in the [finally] clause, which
    raises in its turn; otherwise the connection commits or rolls back on
    leaving [with conn], and [finally] hands it back to the pool. *)
Definition get_connection {R} `{Outcome R} (self : handler) (d : database)
    (body : txstate -> R * txstate) : R * handler * database :=
  match _get_connection self with
  | Raise _ => (throw UnboundLocalError, self, d)
  | Ok (c, p) =>
      let '(r, st) := body {| sess := begin d; logs := logger self |} in
      let s := conn_exit r (sess st) in
      let self' := set_logger self (logs st) in
      match _close_connection p c with
      | Ok p' => (r, set_pool self' (Some p'), committed s)
      | Raise e => (reraise e r, set_pool self' (Some p), committed s)
      end
  end.

(** ** Names of relations

    The handler writes the name of its table into its statements without
    quotes, so that PostgreSQL reads it as an identifier: it folds the
    letters [A] to [Z] to lower case and clips the name to 63 bytes, at a
    character boundary, before it looks the relation up or creates it.  The
    map [tables] is keyed by the identifier as the statements write it, which
    is taken to be one that PostgreSQL's grammar accepts as a table name; the
    catalog lists the relation under [catalog_name] of it. *)

Definition downcase (c : ascii) : ascii :=
  let n := N_of_ascii c in
  if (65 <=? n)%N && (n <=? 90)%N then ascii_of_N (n + 32) else c.

Fixpoint downcase_identifier (s : string) : string :=
  match s with
  | EmptyString => EmptyString
  | String c s' => String (downcase c) (downcase_identifier s')
  end.

(** The length of a character of the server encoding, UTF-8, read off its
    first byte. *)
Definition pg_utf_mblen (c : ascii) : nat :=
  let n := N_of_ascii c in
  if (n <? 128)%N then 1%nat
  else if (N.land n 224 =? 192)%N then 2%nat
  else if (N.land n 240 =? 224)%N then 3%nat
  else if (N.land n 248 =? 240)%N then 4%nat
  else 1%nat.

(** The number of bytes of the whole characters at the head of [s] that
    fit into [limit] bytes. *)
Fixpoint pg_mbcliplen (fuel : nat) (s : string) (limit : nat) : nat :=
  match fuel with
  | O => O
  | S fuel' =>
      match s with
      | EmptyString => O
      | String c _ =>
          let l := pg_utf_mblen c in
          if (limit <? l)%nat then O
          else (l + pg_mbcliplen fuel'
                      (String.substring l (String.length s - l) s) (limit - l))%nat
      end
  end.

Definition NAMEDATALEN : nat := 64.

Definition truncate_identifier (s : string) : string :=
  if (String.length s <? NAMEDATALEN)%nat then s
  else String.substring 0 (pg_mbcliplen (String.length s) s (NAMEDATALEN - 1)) s.

Definition catalog_name (ident : string) : string :=
  truncate_identifier (downcase_identifier ident).

(** ** The statements sent to the backend *)

(** Whether [information_schema.tables] has a row whose [table_name] is the
    string [name]: the comparison is between strings, letter case
    included. *)
Definition table_exists (d : database) (name : string) : bool :=
  existsb (fun kt => String.eqb (catalog_name (fst kt)) name) (map_to_list (tables d))
  || (String.eqb name SCHEMA_VERSIONS_TABLE_NAME
      && bool_decide (is_Some (schema_versions d))).

(** Whether the identifier [name] denotes a relation, as [IF NOT EXISTS]
    asks. *)
Definition relation_exists (d : database) (name : string) : bool :=
  bool_decide (is_Some (tables d !! name))
  || (String.eqb (catalog_name name) SCHEMA_VERSIONS_TABLE_NAME
      && bool_decide (is_Some (schema_versions d))).

(** [CREATE TABLE IF NOT EXISTS schema_versions (...)] *)
Definition sql_create_schema_versions (d : database) : result (unit * database) :=
  Ok (tt, match schema_versions d with
          | Some _ => d
          | None => {| tables := tables d; schema_versions := Some [] |}
          end).

(** [CREATE TABLE IF NOT EXISTS {table} (...);
     INSERT INTO schema_versions VALUES (%s, %s)] *)
Definition sql_create_table (name : string) (version : Z) (d : database)
    : result (unit * database) :=
  match schema_versions d with
  | None => Raise UndefinedTable
  | Some reg =>
      Ok (tt, {| tables := if relation_exists d name then tables d
                           else <[name := ∅]> (tables d);
                 schema_versions := Some (reg ++ [(name, version)]) |})
  end.

(** [SELECT EXISTS (SELECT * FROM information_schema.tables
     WHERE table_name=%s)] *)
Definition sql_table_exists (name : string) (d : database) : result (bool * database) :=
  Ok (table_exists d name, d).

(** [SELECT schema_version FROM schema_versions WHERE table_name=%s],
    then [fetchone()]. *)
Definition sql_select_version (name : string) (d : database)
    : result (option Z * database) :=
  match schema_versions d with
  | None => Raise UndefinedTable
  | Some reg => Ok (snd <$> List.find (fun e => String.eqb (fst e) name) reg, d)
  end.

(** [INSERT INTO {table} (doc_id, embedding, doc, shard, last_updated)
     VALUES (%s, %s, %s, %s, current_timestamp)] *)
Definition sql_insert (name : string) (now : Z)
    (args : pystr * option bytes * bytes * Z) : database -> result (unit * database) :=
  on_table name (fun t =>
    let '(doc_id, emb, doc, shard) := args in
    match t !! doc_id with
    | Some _ => Raise UniqueViolation
    | None =>
        Ok (tt, <[doc_id := {| r_embedding := emb; r_doc := Some doc;
                               r_shard := shard; r_last_updated := now |}]> t)
    end).

(** [UPDATE {table} SET embedding = %s, doc = %s,
     last_updated = current_timestamp WHERE doc_id = %s] *)
Definition sql_update (name : string) (now : Z)
    (args : bytes * bytes * pystr) : database -> result (unit * database) :=
  on_table name (fun t =>
    let '(emb, doc, doc_id) := args in
    Ok (tt, alter (fun r => {| r_embedding := Some emb; r_doc := Some doc;
                               r_shard := r_shard r; r_last_updated := now |})
                  doc_id t)).

(** [UPDATE {table} SET embedding = NULL, doc = NULL,
     last_updated = current_timestamp WHERE doc_id = %s] *)
Definition sql_soft_delete (name : string) (now : Z)
    (doc_id : pystr) : database -> result (unit * database) :=
  on_table name (fun t =>
    Ok (tt, alter (fun r => {| r_embedding := None; r_doc := None;
                               r_shard := r_shard r; r_last_updated := now |})
                  doc_id t)).

(** [DELETE FROM {table} WHERE doc_id = %s] *)
Definition sql_delete (name : string) (doc_id : pystr)
    : database -> result (unit * database) :=
  on_table name (fun t => Ok (tt, delete doc_id t)).

(** [DELETE FROM {table} WHERE doc is NULL] *)
Definition sql_cleanup (name : string) : database -> result (unit * database) :=
  on_table name (fun t => Ok (tt, filter (fun kr => is_Some (r_doc (snd kr))) t)).

(** [DELETE FROM {table}] *)
Definition sql_clear (name : string) : database -> result (unit * database) :=
  on_table name (fun _ => Ok (tt, ∅)).

(** [SELECT COUNT FROM {table}]: the number of rows *)
Definition sql_count (name : string) : database -> result (Z * database) :=
  on_table name (fun t => Ok (Z.of_nat (size t), t)).

(** [SELECT doc, embedding FROM {table} WHERE doc_id = %s], then
    [fetchone()]. *)
Definition sql_select_doc (name : string) (doc_id : pystr)
    : database -> result (option (option bytes * option bytes) * database) :=
  on_table name (fun t =>
    Ok ((fun r => (r_doc r, r_embedding r)) <$> t !! doc_id, t)).

(** [SELECT MAX(last_updated) FROM {table}]: one row, null on an empty
    table. *)
Definition sql_max_last_updated (name : string)
    : database -> result (option Z * database) :=
  on_table name (fun t =>
    Ok (map_fold (fun _ r acc => Some (match acc with
                                       | None => r_last_updated r
                                       | Some m => Z.max m (r_last_updated r)
                                       end)) None t, t)).

(** [drop table if exists {snapshot};
     create table {snapshot} (like {table} including all)] *)
Definition sql_recreate_like (snap src : string) (d : database)
    : result (unit * database) :=
  let tbls := delete snap (tables d) in
  match tbls !! src with
  | None => Raise UndefinedTable
  | Some _ => Ok (tt, {| tables := <[snap := ∅]> tbls;
                         schema_versions := schema_versions d |})
  end.

(** [insert into {snapshot} (select * from {table})] *)
Definition sql_copy_into (snap src : string) (d : database)
    : result (unit * database) :=
  match tables d !! src with
  | None => Raise UndefinedTable
  | Some t =>
      on_table snap (fun s =>
        if bool_decide (dom s ∩ dom t = ∅) then Ok (tt, s ∪ t)
        else Raise UniqueViolation) d
  end.

(** ** Shard routing *)

Definition _get_next_shard (self : handler) (doc_id : pystr) : result Z :=
  msg ← Utf8.encode doc_id;
  n ← int16 (Sha256.hexdigest msg);
  py_mod n (partitions self).

(** The formula of the specification: the digest read as an unsigned
    big-endian integer, reduced modulo the partition count. *)
Definition shard_for (id_bytes : bytes) (n : Z) : Z :=
  Sha256.be_uint (Sha256.sha256 id_bytes) mod n.

(** ** States in which the handler works *)

(** The pool can hand out a connection and will keep one idle. *)
Definition pool_ready (p : pool_t) : bool :=
  negb (closed p) && negb (length (idle p) =? 0)%nat && (0 <? minconn p)%nat.

Definition ready (self : handler) : bool :=
  match postgreSQL_pool self with
  | Some p => pool_ready p
  | None => false
  end.

(** The fields that no method assigns after construction. *)
Definition config (self : handler) : string * dtype * Z * string * bool :=
  (table self, dump_dtype self, partitions self, snapshot_table self,
   mute_unique_warnings self).

(** The version that the registry records for a table, if any. *)
Definition stored_version (d : database) (name : string) : option Z :=
  match schema_versions d with
  | None => None
  | Some reg => snd <$> List.find (fun e => String.eqb (fst e) name) reg
  end.

(** Every stored embedding holds whole elements of the type [dt]. *)
Definition well_sized (dt : dtype) (t : table_t) : Prop :=
  map_Forall (fun _ r => match r_embedding r with
                         | Some b => Z.of_nat (length b) mod itemsize dt = 0
                         | None => True
                         end) t.

(** A transaction that has changed nothing of the database [d]. *)
Definition untouched (d : database) (st : txstate) : Prop :=
  committed (sess st) = d /\ (failed (sess st) = false -> working (sess st) = d).

(** [MAX(last_updated)] over the rows of a table, null when it has none. *)
Definition max_last_updated (t : table_t) : option Z :=
  map_fold (fun _ r acc => Some (match acc with
                                 | None => r_last_updated r
                                 | Some m => Z.max m (r_last_updated r)
                                 end)) None t.

Definition set_partitions (n : Z) (self : handler) : handler :=
  {| table := table self; dump_dtype := dump_dtype self; partitions := n;
     snapshot_table := snapshot_table self;
     mute_unique_warnings := mute_unique_warnings self;
     postgreSQL_pool := postgreSQL_pool self; logger := logger self |}.

(** ** Calls on the handler

    A method takes the object and the database and returns its outcome
    with both as it leaves them. *)

Definition meth (A : Type) : Type := handler -> database -> result A * handler * database.

#[global] Instance meth_ret : MRet meth := fun A a self d => (Ok a, self, d).
#[global] Instance meth_bind : MBind meth := fun A B k m self d =>
  match m self d with
  | (Ok a, self', d') => k a self' d'
  | (Raise e, self', d') => (Raise e, self', d')
  end.

Definition meth_raise {A} (e : exc) : meth A := fun self d => (Raise e, self, d).

Definition logger_info (s : string) : meth unit := fun self d =>
  (Ok tt, set_logger self (logger self ++ [{| lvl := INFO; text := s |}]), d).

(** State left by a block that cannot raise. *)
Definition after (m : tx unit) (st : txstate) : txstate := snd (m st).

(** A call that neither reads nor assigns [self.partitions]. *)
Definition partition_blind {A} (m : meth A) : Prop :=
  forall n self d,
    m (set_partitions n self) d
    = (fst (fst (m self d)), set_partitions n (snd (fst (m self d))), snd (m self d)).

Definition mismatch_message (stored : Z) : string :=
  "The schema versions of the database (version " +:+ pretty stored
  +:+ ") and the Executor (version " +:+ pretty SCHEMA_VERSION
  +:+ ") do not match. Please migrate your data to the latest version or use an Executor version with a matching schema version.".

Definition no_version_message : string :=
  "The schema versions of the database (NO version number) and the Executor (version "
  +:+ pretty SCHEMA_VERSION
  +:+ ") do not match.Please migrate your data to the latest version.".

Section Handler.

(** The collaborators of the handler: the element conversion behind
    [ndarray.astype], the document codec ([Document.to_bytes],
    [Document.from_bytes]) and the collation that [ORDER BY doc_id]
    follows. *)
Variable cast : dtype -> dtype -> bytes -> bytes.
Variable to_bytes : Document -> bytes.
Variable from_bytes : bytes -> result Document.
Variable id_le : pystr -> pystr -> Prop.
Context `{!RelDecision id_le}.

Definition astype (a : ndarray) (dt : dtype) : ndarray :=
  {| nd_dtype := dt; nd_data := cast (nd_dtype a) dt (nd_data a) |}.

Definition doc_without_embedding (d : Document) : bytes :=
  to_bytes {| id := id d; embedding := None; content := content d; scores := scores d |}.

Definition by_doc_id {A} (x y : pystr * A) : Prop := id_le (fst x) (fst y).

#[global] Instance by_doc_id_dec {A} : RelDecision (@by_doc_id A) :=
  fun x y => decide_rel id_le (fst x) (fst y).

Definition order_by_doc_id {A} (l : list (pystr * A)) : list (pystr * A) :=
  merge_sort by_doc_id l.

(** [SELECT doc_id, embedding from {snapshot} WHERE shard in %s
     ORDER BY doc_id] *)
Definition sql_select_snapshot (name : string) (shards : list Z)
    : database -> result (list (pystr * option bytes) * database) :=
  in_tuple shards (on_table name (fun t =>
    Ok (map (fun kr => (fst kr, r_embedding (snd kr)))
          (order_by_doc_id
             (filter (fun kr => r_shard (snd kr) ∈ shards) (map_to_list t))), t))).

(** [SELECT doc_id, embedding, doc FROM {table} ORDER BY doc_id] *)
Definition sql_select_all (name : string)
    : database -> result (list (pystr * option bytes * option bytes) * database) :=
  on_table name (fun t =>
    Ok (map (fun kr => (fst kr, r_embedding (snd kr), r_doc (snd kr)))
          (order_by_doc_id (map_to_list t)), t)).

(** [SELECT doc_id, embedding, last_updated from {table}
     WHERE shard in %s and last_updated > %s ORDER BY doc_id] *)
Definition sql_select_delta (name : string) (shards : list Z) (timestamp : Z)
    : database -> result (list (pystr * option bytes * Z) * database) :=
  in_tuple shards (on_table name (fun t =>
    Ok (map (fun kr => (fst kr, r_embedding (snd kr), r_last_updated (snd kr)))
          (order_by_doc_id
             (filter (fun kr => r_shard (snd kr) ∈ shards
                                ∧ timestamp < r_last_updated (snd kr))
                     (map_to_list t))), t))).

Definition _execute_sql_gracefully {A} (statement : database -> result (A * database))
    : meth (option A) := fun self d =>
  get_connection self d (
    records ← try_except (a ← execute statement; mret (Some a))
                (fun e => match e with
                          | UniqueViolation =>
                              Some (_ ← log DEBUG "Error while executing statement"; mret None)
                          | _ => None
                          end);
    _ ← commit;
    mret records).

Definition _create_schema_version : meth unit :=
  _ ← _execute_sql_gracefully sql_create_schema_versions; mret tt.

Definition _create_table : meth unit := fun self d =>
  (_ ← _execute_sql_gracefully (sql_create_table (table self) SCHEMA_VERSION); mret tt) self d.

Definition _table_exists : meth bool := fun self d =>
  (records ← _execute_sql_gracefully (sql_table_exists (table self));
   match records with
   | Some b => mret b
   | None => meth_raise TypeError
   end) self d.

Definition _assert_table_schema_version : meth unit := fun self d =>
  get_connection self d (
    result ← execute (sql_select_version (table self));
    match result with
    | Some v =>
        if v =? SCHEMA_VERSION then mret tt
        else lift (Raise (RuntimeError (mismatch_message v)))
    | None => lift (Raise (RuntimeError no_version_message))
    end).

Definition _init_table : meth unit :=
  _ ← _create_schema_version;
  exists_ ← _table_exists;
  if (exists_ : bool) then
    _ ← _assert_table_schema_version;
    logger_info "Using existing table"
  else _create_table.

Definition __init__ (table : string) (max_connections : nat) (dump_dtype : dtype)
    (dry_run : bool) (partitions : Z) (mute_unique_warnings : bool)
    (d : database) : result handler * database :=
  let self := {| table := table; dump_dtype := dump_dtype; partitions := partitions;
                 snapshot_table := "snapshot";
                 mute_unique_warnings := mute_unique_warnings;
                 postgreSQL_pool := None; logger := [] |} in
  if negb dry_run then
    let self := set_pool self (Some (SimpleConnectionPool 1 max_connections)) in
    match _init_table self d with
    | (Ok _, self', d') => (Ok self', d')
    | (Raise e, _, d') => (Raise e, d')
    end
  else
    (Ok (set_logger self [{| lvl := INFO; text := "PSQL started in dry run mode." |}]), d).

Definition add (docs : list Document) (now : Z) : meth unit := fun self d =>
  get_connection self d (
    _ ← try_except
          (argslist ← lift (comprehension
               (fun doc =>
                  shard ← _get_next_shard self (id doc);
                  Ok (id doc,
                      (fun e => tobytes (astype e (dump_dtype self))) <$> embedding doc,
                      doc_without_embedding doc,
                      shard))
               docs);
           execute_batch (sql_insert (table self) now) argslist)
          (fun e => match e with
                    | UniqueViolation =>
                        Some (_ ← (if mute_unique_warnings self then mret tt
                                   else log WARNING
                                     "Document already exists in PSQL database. Skipping entire transaction...");
                              rollback)
                    | _ => None
                    end);
    commit).

Definition update (docs : list Document) (now : Z) : meth unit := fun self d =>
  get_connection self d (
    argslist ← lift (comprehension
        (fun doc =>
           match embedding doc with
           | None => Raise AttributeError
           | Some e => Ok (tobytes (astype e (dump_dtype self)),
                           doc_without_embedding doc, id doc)
           end)
        docs);
    _ ← execute_batch (sql_update (table self) now) argslist;
    commit).

Definition cleanup : meth unit := fun self d =>
  get_connection self d (_ ← execute (sql_cleanup (table self)); commit).

Definition delete_ (docs : list Document) (soft_delete : bool) (now : Z) : meth unit :=
  fun self d =>
  get_connection self d (
    _ ← (if soft_delete then
           _ ← log WARNING
                 "Performing soft-delete. Use /cleanup or a hard delete to delete the records";
           execute_batch (sql_soft_delete (table self) now) (map id docs)
         else execute_batch (sql_delete (table self)) (map id docs));
    commit).

Definition close : meth unit := fun self d =>
  match postgreSQL_pool self with
  | None => (Raise AttributeError, self, d)
  | Some p =>
      match closeall p with
      | Ok p' => (Ok tt, set_pool self (Some p'), d)
      | Raise e => (Raise e, self, d)
      end
  end.

Definition decode_embedding (dt : dtype) (buf : option bytes) : result (option ndarray) :=
  match buf with
  | None => Ok None
  | Some b => a ← frombuffer b dt; Ok (Some a)
  end.

(** The body of the loop of [search] for one document, which is replaced
    by the retrieved one, its scores kept. *)
Definition search_doc (self : handler) (return_embeddings : bool) (doc : Document)
    : tx Document :=
  result ← execute (sql_select_doc (table self) (id doc));
  data ← lift (match result with
               | Some (Some b, _) => Ok b
               | Some (None, _) => Raise TypeError
               | None => Raise TypeError
               end);
  retrieved_doc ← lift (from_bytes data);
  vec ← lift (match result with
              | Some (_, Some buf) =>
                  if return_embeddings
                  then e ← frombuffer buf (dump_dtype self); Ok (Some e)
                  else Ok (embedding retrieved_doc)
              | _ => Ok (embedding retrieved_doc)
              end);
  mret {| id := id retrieved_doc; embedding := vec;
          content := content retrieved_doc; scores := scores doc |}.

Fixpoint search_loop (self : handler) (return_embeddings : bool) (docs : list Document)
    (st : txstate) : stream Document * txstate :=
  match docs with
  | [] => ({| yielded := []; stop := None |}, st)
  | doc :: rest =>
      match search_doc self return_embeddings doc st with
      | (Ok doc', st') =>
          let '(r, st'') := search_loop self return_embeddings rest st' in
          ({| yielded := doc' :: yielded r; stop := stop r |}, st'')
      | (Raise e, st') => ({| yielded := []; stop := Some e |}, st')
      end
  end.

(** [search] changes its documents in place: the outcome lists the
    documents it has replaced, in order, and the exception that stopped
    it, if any; the documents after those are left as they were. *)
Definition search (docs : list Document) (return_embeddings : bool)
    (self : handler) (d : database) : stream Document * handler * database :=
  get_connection self d (search_loop self return_embeddings docs).

(** What [search] does for one document, read off the table alone: the
    row must exist and carry a payload, which is decoded; the stored
    embedding replaces the decoded one when embeddings are asked for. *)
Definition retrieve (self : handler) (return_embeddings : bool) (t : table_t)
    (doc : Document) : result Document :=
  match t !! id doc with
  | None => Raise TypeError
  | Some r =>
      match r_doc r with
      | None => Raise TypeError
      | Some b =>
          retrieved_doc ← from_bytes b;
          vec ← match r_embedding r with
                | Some buf =>
                    if return_embeddings
                    then e ← frombuffer buf (dump_dtype self); Ok (Some e)
                    else Ok (embedding retrieved_doc)
                | None => Ok (embedding retrieved_doc)
                end;
          Ok {| id := id retrieved_doc; embedding := vec;
                content := content retrieved_doc; scores := scores doc |}
      end
  end.

Definition get_size : meth Z := fun self d =>
  get_connection self d (execute (sql_count (table self))).

Definition snapshot : meth unit := fun self d =>
  get_connection self d (
    try_except
      (_ ← execute (sql_recreate_like (snapshot_table self) (table self));
       _ ← commit;
       _ ← execute (sql_copy_into (snapshot_table self) (table self));
       _ ← commit;
       log INFO "Successfully created snapshot")
      (fun e => Some (_ ← log ERROR "Error snapshotting"; rollback))).

(** The streaming reads are generators: their outcome is the sequence
    that a caller draws until the generator stops.  [shards_to_get] stands
    for the integers that [int(shard)] returns. *)
Definition get_snapshot (shards_to_get : list Z) (self : handler) (d : database)
    : stream (pystr * option ndarray) * handler * database :=
  get_connection self d (fun st =>
    let recover := (_ ← log ERROR "Error importing snapshot"; _ ← rollback; commit) in
    match execute (sql_select_snapshot (snapshot_table self) shards_to_get) st with
    | (Ok recs, st1) =>
        let r := yield_each
                   (fun rec => vec ← decode_embedding (dump_dtype self) (snd rec);
                               Ok (fst rec, vec))
                   recs in
        match stop r with
        | None => (r, after commit st1)
        | Some _ => ({| yielded := yielded r; stop := None |}, after recover st1)
        end
    | (Raise _, st1) => ({| yielded := []; stop := None |}, after recover st1)
    end).

Definition _get_delta (shards_to_get : list Z) (timestamp : Z) (self : handler)
    (d : database) : stream (pystr * option ndarray * Z) * handler * database :=
  get_connection self d (fun st =>
    match execute (sql_select_delta (table self) shards_to_get timestamp) st with
    | (Ok recs, st1) =>
        (yield_each
           (fun rec => second_val ← decode_embedding (dump_dtype self) (snd (fst rec));
                       Ok (fst (fst rec), second_val, snd rec))
           recs, st1)
    | (Raise e, st1) => ({| yielded := []; stop := Some e |}, st1)
    end).

Definition get_generator (include_metas : bool) (self : handler) (d : database)
    : stream (pystr * option ndarray * option bytes) * handler * database :=
  get_connection self d (fun st =>
    match execute (sql_select_all (table self)) st with
    | (Ok recs, st1) =>
        (yield_each
           (fun rec : pystr * option bytes * option bytes =>
              vec ← decode_embedding float64 (snd (fst rec));
              Ok (fst (fst rec), vec, if include_metas then snd rec else None))
           recs, st1)
    | (Raise e, st1) => ({| yielded := []; stop := Some e |}, st1)
    end).

Definition _get_snapshot_timestamp (self : handler) (d : database)
    : stream (option Z) * handler * database :=
  get_connection self d (fun st =>
    match execute (sql_max_last_updated (snapshot_table self)) st with
    | (Ok m, st1) => ({| yielded := [m]; stop := None |}, st1)
    | (Raise _, st1) =>
        ({| yielded := []; stop := None |},
         after (log ERROR "Could not obtain timestamp from snapshot") st1)
    end).

Definition _get_data_timestamp (self : handler) (d : database)
    : stream (option Z) * handler * database :=
  get_connection self d (fun st =>
    match execute (sql_max_last_updated (table self)) st with
    | (Ok m, st1) => ({| yielded := [m]; stop := None |}, st1)
    | (Raise _, st1) =>
        ({| yielded := []; stop := None |},
         after (log ERROR "Could not obtain timestamp from data") st1)
    end).

Definition get_snapshot_size : meth Z := fun self d =>
  get_connection self d (
    try_except (execute (sql_count (snapshot_table self)))
      (fun e => Some (_ ← log WARNING "Could not get size of snapshot"; mret 0))).

Definition clear : meth unit := fun self d =>
  get_connection self d (_ ← execute (sql_clear (table self)); commit).

Definition initialized (self : handler) : bool :=
  bool_decide (is_Some (postgreSQL_pool self)).

End Handler.

(** ** A concrete choice of collaborators, to run the model *)

Module Demo.

#[global] Instance dtype_eq_dec : EqDecision dtype.
Proof. solve_decision. Defined.

(** Element-wise resizing: each element is cut or zero-padded to the
    width of the target type; the same type copies the buffer. *)
Definition cast (s t : dtype) (b : bytes) : bytes :=
  if decide (s = t) then b
  else concat (map (fun el => take (Z.to_nat (itemsize t))
                                   (el ++ repeat 0 (Z.to_nat (itemsize t))))
                   (Sha256.chunks (length b) (Z.to_nat (itemsize s)) b)).

Definition to_bytes (d : Document) : bytes :=
  Z.of_nat (length (id d)) :: map Z.of_N (id d) ++ content d.

Definition from_bytes (b : bytes) : result Document :=
  match b with
  | [] => Raise ValueError
  | n :: rest =>
      Ok {| id := map Z.to_N (take (Z.to_nat n) rest); embedding := None;
            content := drop (Z.to_nat n) rest; scores := [] |}
  end.

(** Code point order, the order of the [C] collation. *)
Fixpoint str_leb (a b : pystr) : bool :=
  match a, b with
  | [], _ => true
  | _ :: _, [] => false
  | x :: a', y :: b' =>
      if (x <? y)%N then true
      else if (x =? y)%N then str_leb a' b' else false
  end.

Definition str_le (a b : pystr) : Prop := str_leb a b = true.

#[global] Instance str_le_dec : RelDecision str_le :=
  fun a b => decide (str_leb a b = true).

Definition empty_db : database := {| tables := ∅; schema_versions := None |}.

Definition doc (name : string) (emb : option ndarray) (body : bytes) : Document :=
  {| id := str name; embedding := emb; content := body; scores := [] |}.

(** A store with four partitions, as the constructor leaves it on an empty
    database. *)
Definition h0 : handler :=
  {| table := "default_table"; dump_dtype := float64; partitions := 4;
     snapshot_table := "snapshot"; mute_unique_warnings := false;
     postgreSQL_pool := Some (SimpleConnectionPool 1 10); logger := [] |}.

Definition db0 : database :=
  {| tables := {[ "default_table"%string := ∅ ]};
     schema_versions := Some [("default_table"%string, 2)] |}.

Definition vec1 : ndarray :=
  {| nd_dtype := float64; nd_data := [0; 0; 0; 0; 0; 0; 240; 63] |}.

Definition doc_a : Document := doc "a" None [10].
Definition doc_b : Document := doc "b" (Some vec1) [11].
Definition doc_c : Document := doc "c" None [12].

Definition row_a : row :=
  {| r_embedding := None; r_doc := Some [1; 97; 10]; r_shard := 3;
     r_last_updated := 100 |}.
Definition row_b : row :=
  {| r_embedding := Some [0; 0; 0; 0; 0; 0; 240; 63]; r_doc := Some [1; 98; 11];
     r_shard := 1; r_last_updated := 100 |}.
Definition row_c : row :=
  {| r_embedding := None; r_doc := Some [1; 99; 12]; r_shard := 2;
     r_last_updated := 100 |}.

(** The table after [add([a, b, c])] at time 100. *)
Definition t1 : table_t :=
  list_to_map [(str "a", row_a); (str "b", row_b); (str "c", row_c)].

Definition db1 : database :=
  {| tables := {[ "default_table"%string := t1 ]};
     schema_versions := Some [("default_table"%string, 2)] |}.

(** The same table written by a store whose [dump_dtype] is [float32]:
    the embedding of ["a"] takes four bytes. *)
Definition h32 : handler :=
  {| table := "default_table"; dump_dtype := float32; partitions := 4;
     snapshot_table := "snapshot"; mute_unique_warnings := false;
     postgreSQL_pool := Some (SimpleConnectionPool 1 10); logger := [] |}.

Definition doc_a32 : Document :=
  doc "a" (Some {| nd_dtype := float32; nd_data := [0; 0; 128; 63] |}) [10].

Definition db32 : database :=
  {| tables :=
       {[ "default_table"%string :=
            {[ str "a" := {| r_embedding := Some [0; 0; 128; 63];
                             r_doc := Some [1; 97; 10]; r_shard := 3;
                             r_last_updated := 100 |} ]} ]};
     schema_versions := Some [("default_table"%string, 2)] |}.

(** A database whose table was created under schema version 1. *)
Definition db_v1 : database :=
  {| tables := {[ "default_table"%string := ∅ ]};
     schema_versions := Some [("default_table"%string, 1)] |}.

(** The state after a snapshot of [t1] and an update of ["b"] at time
    200. *)
Definition row_b2 : row :=
  {| r_embedding := Some [0; 0; 0; 0; 0; 0; 0; 64]; r_doc := Some [1; 98; 77];
     r_shard := 1; r_last_updated := 200 |}.

Definition t2 : table_t :=
  list_to_map [(str "a", row_a); (str "b", row_b2); (str "c", row_c)].

Definition db2 : database :=
  {| tables := {[ "default_table"%string := t2; "snapshot"%string := t1 ]};
     schema_versions := Some [("default_table"%string, 2)] |}.

Definition doc_d : Document := doc "d" (Some vec1) [13].

(** The table [t1] after the soft deletion of ["a"] at time 200. *)
Definition row_a_tomb : row :=
  {| r_embedding := None; r_doc := None; r_shard := 3; r_last_updated := 200 |}.

Definition t3 : table_t :=
  list_to_map [(str "a", row_a_tomb); (str "b", row_b); (str "c", row_c)].

Definition db3 : database :=
  {| tables := {[ "default_table"%string := t3 ]};
     schema_versions := Some [("default_table"%string, 2)] |}.

(** A table created by a handler whose table name has a capital letter,
    under schema version 1. *)
Definition db_Docs : database :=
  {| tables := {[ "Docs"%string := ∅ ]};
     schema_versions := Some [("Docs"%string, 1)] |}.

(** The handler that the constructor returns in dry-run mode, without its
    log. *)
Definition h_dry : handler :=
  {| table := "default_table"; dump_dtype := float64; partitions := 4;
     snapshot_table := "snapshot"; mute_unique_warnings := false;
     postgreSQL_pool := None; logger := [] |}.

End Demo.

(** * Properties *)

(** ** The digest and its reading as an integer *)

Lemma be_bytes_length n x : length (Sha256.be_bytes n x) = n.
Proof. induction n as [|n IH]; simpl; [reflexivity | now rewrite IH]. Qed.

Lemma be_bytes_are_bytes n x : Forall is_byte (Sha256.be_bytes n x).
Proof.
  induction n as [|n IH]; simpl; constructor; [|exact IH].
  unfold is_byte. change 0xFF with (Z.ones 8).
  rewrite Z.land_ones by lia. apply Z.mod_pos_bound. lia.
Qed.

Lemma round_length st kw : length (Sha256.round st kw) = length st.
Proof.
  unfold Sha256.round.
  repeat (destruct st as [|? st]; try reflexivity).
Qed.

Lemma rounds_length kws st : length (fold_left Sha256.round kws st) = length st.
Proof.
  revert st. induction kws as [|kw kws IH]; intros st; simpl; [reflexivity|].
  rewrite IH. apply round_length.
Qed.

Lemma compress_length h blk : length (Sha256.compress h blk) = length h.
Proof.
  unfold Sha256.compress. rewrite length_zip_with, rounds_length. lia.
Qed.

Lemma compress_all_length blocks h :
  length (fold_left Sha256.compress blocks h) = length h.
Proof.
  revert h. induction blocks as [|b bs IH]; intros h; simpl; [reflexivity|].
  rewrite IH. apply compress_length.
Qed.

Lemma concat_be_bytes_length ws :
  length (concat (map (Sha256.be_bytes 4) ws)) = (4 * length ws)%nat.
Proof.
  induction ws as [|w ws IH]; [reflexivity|].
  cbn [map concat]. rewrite length_app, be_bytes_length, IH. simpl. lia.
Qed.

Lemma concat_be_bytes_are_bytes ws :
  Forall is_byte (concat (map (Sha256.be_bytes 4) ws)).
Proof.
  induction ws as [|w ws IH]; [constructor|].
  cbn [map concat]. apply Forall_app. split; [apply be_bytes_are_bytes | exact IH].
Qed.

(** The digest is 32 bytes long, whatever the message. *)
Lemma sha256_length msg : length (Sha256.sha256 msg) = 32%nat.
Proof.
  unfold Sha256.sha256. rewrite concat_be_bytes_length, compress_all_length.
  reflexivity.
Qed.

Lemma sha256_are_bytes msg : Forall is_byte (Sha256.sha256 msg).
Proof. unfold Sha256.sha256. apply concat_be_bytes_are_bytes. Qed.

Lemma hex_value_digit d :
  0 <= d < 16 -> hex_value (Sha256.hex_digit d) = Some d.
Proof.
  intros Hd.
  assert (Hcases : d = 0 \/ d = 1 \/ d = 2 \/ d = 3 \/ d = 4 \/ d = 5 \/ d = 6
                   \/ d = 7 \/ d = 8 \/ d = 9 \/ d = 10 \/ d = 11 \/ d = 12
                   \/ d = 13 \/ d = 14 \/ d = 15) by lia.
  repeat (destruct Hcases as [-> | Hcases]; [reflexivity|]).
  subst d. reflexivity.
Qed.

Lemma int_digits_hexlify bs acc :
  Forall is_byte bs ->
  int_digits acc (Sha256.hexlify bs)
  = Ok (fold_left (fun a b => a * 256 + b) bs acc).
Proof.
  intros Hbs. revert acc.
  induction Hbs as [|b bs Hb _ IH]; intros acc; [reflexivity|].
  unfold is_byte in Hb. cbn [Sha256.hexlify int_digits fold_left].
  assert (Hhi : Z.shiftr b 4 = b / 16) by (rewrite Z.shiftr_div_pow2 by lia; reflexivity).
  assert (Hlo : Z.land b 0xF = b mod 16)
    by (change 0xF with (Z.ones 4); rewrite Z.land_ones by lia; reflexivity).
  rewrite Hhi, Hlo.
  rewrite hex_value_digit by (split; [apply Z.div_pos; lia | apply Z.div_lt_upper_bound; lia]).
  rewrite hex_value_digit by (apply Z.mod_pos_bound; lia).
  rewrite IH. do 2 f_equal.
  pose proof (Z.div_mod b 16 ltac:(lia)). lia.
Qed.

(** [int(hexdigest, 16)] reads the digest bytes as one unsigned
    big-endian integer. *)
Lemma int16_hexdigest msg :
  int16 (Sha256.hexdigest msg) = Ok (Sha256.be_uint (Sha256.sha256 msg)).
Proof.
  unfold Sha256.hexdigest, Sha256.be_uint.
  pose proof (sha256_length msg) as Hlen.
  pose proof (sha256_are_bytes msg) as Hb.
  destruct (Sha256.sha256 msg) as [|b bs] eqn:E; [discriminate|].
  rewrite <- (int_digits_hexlify (b :: bs) 0 Hb).
  reflexivity.
Qed.

Lemma be_uint_nonneg_from bs acc :
  Forall is_byte bs -> 0 <= acc -> 0 <= fold_left (fun a b => a * 256 + b) bs acc.
Proof.
  intros Hbs. revert acc.
  induction Hbs as [|b bs Hb _ IH]; intros acc Hacc; simpl; [exact Hacc|].
  apply IH. unfold is_byte in Hb. lia.
Qed.

(** The digest read as an integer is unsigned. *)
Lemma be_uint_sha256_nonneg msg : 0 <= Sha256.be_uint (Sha256.sha256 msg).
Proof. apply be_uint_nonneg_from; [apply sha256_are_bytes | lia]. Qed.

(** ** C1: shard assignment *)

Lemma get_next_shard_formula (self : handler) (doc_id : pystr) (msg : bytes) :
  Utf8.encode doc_id = Ok msg ->
  partitions self <> 0 ->
  _get_next_shard self doc_id = Ok (shard_for msg (partitions self)).
Proof.
  intros Henc Hn. unfold _get_next_shard. rewrite Henc. cbn [mbind result_bind].
  rewrite int16_hexdigest. cbn [mbind result_bind].
  unfold py_mod. destruct (Z.eqb_spec (partitions self) 0) as [H0|_]; [contradiction|].
  reflexivity.
Qed.

(** C1. For an identifier that has UTF-8 bytes and a positive partition
    count N, [_get_next_shard] returns the SHA-256 digest of those bytes,
    read as an unsigned integer, modulo N; the value lies in [0, N) and only
    depends on the identifier and on N (any handler with the same partition
    count computes the same shard). *)
Theorem get_next_shard_is_sha256_mod (self : handler) (doc_id : pystr) (msg : bytes) :
  Utf8.encode doc_id = Ok msg ->
  0 < partitions self ->
  _get_next_shard self doc_id = Ok (shard_for msg (partitions self))
  /\ shard_for msg (partitions self)
     = Sha256.be_uint (Sha256.sha256 msg) mod partitions self
  /\ 0 <= Sha256.be_uint (Sha256.sha256 msg)
  /\ 0 <= shard_for msg (partitions self) < partitions self
  /\ (forall other : handler,
        partitions other = partitions self ->
        _get_next_shard other doc_id = _get_next_shard self doc_id).
Proof.
  intros Henc Hpos.
  split; [|split; [reflexivity|split; [apply be_uint_sha256_nonneg|split]]].
  - apply get_next_shard_formula; [exact Henc | lia].
  - unfold shard_for. apply Z.mod_pos_bound. exact Hpos.
  - intros other Hsame. unfold _get_next_shard. rewrite Hsame. reflexivity.
Qed.

Lemma get_next_shard_is_sha256_mod_witness :
  _get_next_shard
    {| table := "default_table"; dump_dtype := float64; partitions := 4;
       snapshot_table := "snapshot"; mute_unique_warnings := false;
       postgreSQL_pool := None; logger := [] |} (str "a") = Ok 3.
Proof.
  pose proof (get_next_shard_is_sha256_mod
    {| table := "default_table"; dump_dtype := float64; partitions := 4;
       snapshot_table := "snapshot"; mute_unique_warnings := false;
       postgreSQL_pool := None; logger := [] |} (str "a") [97]
    ltac:(reflexivity) ltac:(simpl; lia)) as [H _].
  rewrite H. vm_compute. reflexivity.
Defined.

(** ** The pool and the scoped acquisition *)

Lemma remove_first_head c l : remove_first c (c :: l) = l.
Proof. simpl. now rewrite Nat.eqb_refl. Qed.

Lemma getconn_ok_inv p c p1 :
  getconn p = Ok (c, p1) ->
  closed p = false /\ closed p1 = false /\ used p1 = c :: used p
  /\ events p1 = events p ++ [Getconn c]
  /\ minconn p1 = minconn p /\ maxconn p1 = maxconn p
  /\ (idle p = c :: idle p1 \/ idle p = [] /\ idle p1 = []).
Proof.
  unfold getconn. destruct (closed p) eqn:Hc; [discriminate|].
  destruct (idle p) as [|c0 rest] eqn:Hi.
  - destruct (length (used p) =? maxconn p)%nat; [discriminate|].
    intros [= <- <-]. simpl. tauto.
  - intros [= <- <-]. simpl. tauto.
Qed.

Lemma putconn_after_getconn p c p1 :
  getconn p = Ok (c, p1) ->
  exists p2, putconn p1 c = Ok p2
    /\ closed p2 = false /\ used p2 = used p
    /\ events p2 = events p ++ [Getconn c; Putconn c]
    /\ minconn p2 = minconn p /\ maxconn p2 = maxconn p
    /\ idle p2 = (if (length (idle p1) <? minconn p)%nat then c :: idle p1 else idle p1).
Proof.
  intros Hget.
  destruct (getconn_ok_inv _ _ _ Hget) as (_ & Hc1 & Hu1 & He1 & Hm1 & Hx1 & _).
  unfold putconn. rewrite Hc1, Hu1. cbn [existsb]. rewrite Nat.eqb_refl. cbn [orb].
  eexists. split; [reflexivity|]. cbn.
  rewrite Nat.eqb_refl, He1, Hm1, <- app_assoc. repeat split; auto.
Qed.

Lemma getconn_ready p :
  pool_ready p = true -> exists c p1, getconn p = Ok (c, p1) /\ idle p = c :: idle p1.
Proof.
  unfold pool_ready, getconn. intros Hr.
  destruct (closed p); [discriminate|].
  destruct (idle p) as [|c rest]; [discriminate|].
  eexists _, _. split; reflexivity.
Qed.

Lemma pool_cycle_ready p :
  pool_ready p = true ->
  exists c p1 p2, getconn p = Ok (c, p1) /\ putconn p1 c = Ok p2
    /\ pool_ready p2 = true /\ used p2 = used p.
Proof.
  intros Hr. destruct (getconn_ready p Hr) as (c & p1 & Hget & Hidle).
  destruct (putconn_after_getconn p c p1 Hget) as (p2 & Hput & Hc2 & Hu2 & _ & Hm2 & _ & Hi2).
  exists c, p1, p2. repeat split; try assumption.
  unfold pool_ready in *. rewrite Hc2, Hm2, Hi2.
  apply andb_true_iff in Hr as [_ Hmin].
  apply andb_true_iff; split; [|exact Hmin].
  apply Nat.ltb_lt in Hmin.
  destruct (Nat.ltb_spec (length (idle p1)) (minconn p)) as [_|Hge]; [reflexivity|].
  destruct (idle p1); [simpl in Hge; lia | reflexivity].
Qed.

(** A call on a ready handler runs its body on a fresh transaction over
    the database, passes on the outcome of the body, and leaves the handler
    ready, with the same configuration. *)
Lemma get_connection_ready {R} `{Outcome R} (self : handler) (d : database)
    (body : txstate -> R * txstate) :
  ready self = true ->
  exists self',
    get_connection self d body
    = (fst (body {| sess := begin d; logs := logger self |}), self',
       committed (conn_exit (fst (body {| sess := begin d; logs := logger self |}))
                            (sess (snd (body {| sess := begin d; logs := logger self |})))))
    /\ ready self' = true
    /\ config self' = config self
    /\ logger self' = logs (snd (body {| sess := begin d; logs := logger self |})).
Proof.
  unfold ready. intros Hr.
  destruct (postgreSQL_pool self) as [p|] eqn:Hp; [|discriminate].
  destruct (pool_cycle_ready p Hr) as (c & p1 & p2 & Hget & Hput & Hr2 & _).
  unfold get_connection, _get_connection, _close_connection. rewrite Hp, Hget.
  destruct (body _) as [r st]. rewrite Hput.
  eexists. split; [reflexivity|]. cbn. auto.
Qed.

(** The same for any handler whose pool hands out a connection, idle or
    new. *)
Lemma get_connection_obtained {R} `{Outcome R} (self : handler) (d : database)
    (body : txstate -> R * txstate) (c : conn) (p1 : pool_t) :
  _get_connection self = Ok (c, p1) ->
  exists self',
    get_connection self d body
    = (fst (body {| sess := begin d; logs := logger self |}), self',
       committed (conn_exit (fst (body {| sess := begin d; logs := logger self |}))
                            (sess (snd (body {| sess := begin d; logs := logger self |})))))
    /\ config self' = config self
    /\ logger self' = logs (snd (body {| sess := begin d; logs := logger self |})).
Proof.
  intros Hget. unfold get_connection. rewrite Hget.
  unfold _get_connection in Hget.
  destruct (postgreSQL_pool self) as [p|] eqn:Hp; [|discriminate].
  destruct (putconn_after_getconn p c p1 Hget) as (p2 & Hput & _).
  unfold _close_connection. destruct (body _) as [r st]. rewrite Hput.
  eexists. split; [reflexivity|]. cbn. auto.
Qed.

Lemma ready_obtained (self : handler) :
  ready self = true -> exists c p1, _get_connection self = Ok (c, p1).
Proof.
  unfold ready, _get_connection. intros Hr.
  destruct (postgreSQL_pool self) as [p|]; [|discriminate].
  destruct (getconn_ready p Hr) as (c & p1 & Hget & _). eauto.
Qed.

(** C9. A connection taken by [get_connection] is handed back to the pool
    exactly once, whether the body ends normally or raises: the pool
    records one [getconn] followed by one [putconn] of that connection and
    its set of connections in use is as before.  When the acquisition
    itself fails no connection was taken, none is handed back, and the
    handler and its pool are unchanged. *)
Theorem get_connection_returns_connection_once {R} `{Outcome R}
    (self : handler) (d : database) (body : txstate -> R * txstate) :
  match _get_connection self with
  | Raise _ => get_connection self d body = (throw UnboundLocalError, self, d)
  | Ok (c, p1) =>
      exists p p2,
        postgreSQL_pool self = Some p
        /\ postgreSQL_pool (snd (fst (get_connection self d body))) = Some p2
        /\ used p1 = c :: used p
        /\ used p2 = used p
        /\ events p2 = events p ++ [Getconn c; Putconn c]
        /\ fst (fst (get_connection self d body))
           = fst (body {| sess := begin d; logs := logger self |})
  end.
Proof.
  unfold get_connection.
  destruct (_get_connection self) as [[c p1]|e] eqn:Hget; [|reflexivity].
  unfold _get_connection in Hget.
  destruct (postgreSQL_pool self) as [p|] eqn:Hp; [|discriminate].
  destruct (putconn_after_getconn p c p1 Hget) as (p2 & Hput & _ & Hu2 & He2 & _).
  destruct (getconn_ok_inv _ _ _ Hget) as (_ & _ & Hu1 & _).
  exists p, p2. unfold _close_connection.
  destruct (body _) as [r st]. rewrite Hput. cbn. repeat split; auto.
Qed.

(** ** Statements on a transaction *)

Lemma execute_ok {A} (f : database -> result (A * database)) st a w :
  failed (sess st) = false ->
  f (working (sess st)) = Ok (a, w) ->
  execute f st
  = (Ok a, {| sess := {| committed := committed (sess st); working := w;
                         failed := false |};
              logs := logs st |}).
Proof. intros Hf Hw. unfold execute. now rewrite Hf, Hw. Qed.

Lemma execute_raise {A} (f : database -> result (A * database)) st e :
  failed (sess st) = false ->
  f (working (sess st)) = Raise e ->
  execute f st
  = (Raise e, {| sess := {| committed := committed (sess st);
                            working := working (sess st); failed := true |};
                 logs := logs st |}).
Proof. intros Hf Hw. unfold execute. now rewrite Hf, Hw. Qed.

Lemma comprehension_ok {A B} (f : A -> result B) xs :
  Forall (fun x => exists y, f x = Ok y) xs ->
  exists ys, comprehension f xs = Ok ys /\ Forall2 (fun x y => f x = Ok y) xs ys.
Proof.
  induction 1 as [|x xs [y Hy] _ (ys & Hys & Hall)].
  - exists []. split; [reflexivity | constructor].
  - exists (y :: ys). cbn [comprehension]. rewrite Hy, Hys.
    split; [reflexivity | now constructor].
Qed.

Lemma comprehension_raise {A B} (f : A -> result B) xs x e :
  x ∈ xs -> f x = Raise e ->
  (forall x', x' ∈ xs -> match f x' with Ok _ => True | Raise e' => e' = e end) ->
  comprehension f xs = Raise e.
Proof.
  induction xs as [|x0 xs IH]; intros Hin Hx Hall; [by apply elem_of_nil in Hin|].
  cbn [comprehension].
  pose proof (Hall x0 ltac:(left)) as H0.
  destruct (f x0) as [y0|e0] eqn:E0; [|now subst].
  cbn [mbind result_bind].
  apply elem_of_cons in Hin as [->|Hin]; [congruence|].
  rewrite IH; [reflexivity|assumption..|].
  intros x' Hx'. apply Hall. now right.
Qed.

Lemma get_next_shard_ok (self : handler) (doc_id : pystr) :
  partitions self <> 0 ->
  (exists msg, Utf8.encode doc_id = Ok msg) ->
  exists shard, _get_next_shard self doc_id = Ok shard.
Proof.
  intros Hp [msg Hmsg]. unfold _get_next_shard. rewrite Hmsg.
  cbn [mbind result_bind]. rewrite int16_hexdigest. cbn [mbind result_bind].
  unfold py_mod. destruct (Z.eqb_spec (partitions self) 0); [contradiction|].
  eexists. reflexivity.
Qed.

(** A batch of inserts that meets an identifier already in the table
    stops on a uniqueness violation; nothing is committed by it. *)
Lemma execute_batch_insert_conflict name now args :
  forall st t,
    failed (sess st) = false ->
    tables (working (sess st)) !! name = Some t ->
    (exists a, a ∈ args /\ is_Some (t !! fst (fst (fst a)))) ->
    exists st',
      execute_batch (sql_insert name now) args st = (Raise UniqueViolation, st')
      /\ committed (sess st') = committed (sess st)
      /\ logs st' = logs st.
Proof.
  induction args as [|a args IH]; intros st t Hf Ht (a0 & Hin & Hsome).
  - by apply elem_of_nil in Hin.
  - cbn [execute_batch]. unfold mbind, tx_bind.
    destruct a as [[[doc_id emb] doc] shard].
    destruct (t !! doc_id) as [r|] eqn:Hr.
    + erewrite execute_raise; [|exact Hf|].
      * eexists. split; [reflexivity|]. split; reflexivity.
      * unfold sql_insert, on_table. rewrite Ht, Hr. reflexivity.
    + erewrite execute_ok; [|exact Hf|].
      2:{ unfold sql_insert, on_table. rewrite Ht, Hr. reflexivity. }
      apply elem_of_cons in Hin as [->|Hin].
      { cbn in Hsome. rewrite Hr in Hsome. by destruct Hsome. }
      match goal with
      | |- exists st', execute_batch _ _ ?st1 = _ /\ _ =>
          edestruct (IH st1) as (st' & Hrun & Hc & Hl);
            [reflexivity | cbn; apply lookup_insert_eq
            | exists a0; split; [exact Hin|] | exists st'; cbn in Hc, Hl; auto]
      end.
      destruct (decide (doc_id = fst (fst (fst a0)))) as [<-|Hne].
      * rewrite lookup_insert_eq. eauto.
      * rewrite lookup_insert_ne by exact Hne. exact Hsome.
Qed.

(** The database after a call is the one before it when no connection
    could be taken, and otherwise what the connection has committed when
    leaving the block. *)
Lemma get_connection_db {R} `{Outcome R} (self : handler) (d : database)
    (body : txstate -> R * txstate) :
  snd (get_connection self d body) = d
  \/ snd (get_connection self d body)
     = committed (conn_exit (fst (body {| sess := begin d; logs := logger self |}))
                            (sess (snd (body {| sess := begin d; logs := logger self |})))).
Proof.
  unfold get_connection.
  destruct (_get_connection self) as [[c p]|e]; [|left; reflexivity].
  right. destruct (body _) as [r st].
  destruct (_close_connection p c); reflexivity.
Qed.

(** A batch of statements that rewrite one table without failing amounts
    to folding their effect over that table. *)
Lemma execute_batch_on_table {X} (name : string) (g : X -> table_t -> table_t)
    (f : X -> database -> result (unit * database)) :
  (forall a, f a = on_table name (fun t => Ok (tt, g a t))) ->
  forall args st t,
    failed (sess st) = false ->
    tables (working (sess st)) !! name = Some t ->
    execute_batch f args st
    = (Ok tt,
       {| sess := {| committed := committed (sess st);
                     working := {| tables := <[name := fold_left (fun t a => g a t) args t]>
                                               (tables (working (sess st)));
                                   schema_versions := schema_versions (working (sess st)) |};
                     failed := false |};
          logs := logs st |}).
Proof.
  intros Hf. induction args as [|a args IH]; intros st t Hfail Ht.
  - cbn. rewrite insert_id by exact Ht.
    destruct st as [[c [tb sv] fl] lg]. cbn in *. now subst fl.
  - cbn [execute_batch fold_left]. unfold mbind, tx_bind.
    erewrite execute_ok; [|exact Hfail|rewrite Hf; unfold on_table; rewrite Ht; reflexivity].
    erewrite IH; [|reflexivity|cbn; apply lookup_insert_eq].
    cbn. now rewrite insert_insert_eq.
Qed.

(** Rewriting rows in place, one key after the other: the keys of the
    table stay the same, rows under other keys are untouched, and a row
    under one of the keys carries what one of the arguments wrote. *)
Lemma fold_alter_spec {X} (new : X -> row -> row) (key : X -> pystr) :
  (forall a a' r, new a' (new a r) = new a' r) ->
  forall args (t : table_t),
    let t' := fold_left (fun t a => alter (new a) (key a) t) args t in
    dom t' = dom t
    /\ (forall k, k ∉ map key args -> t' !! k = t !! k)
    /\ (forall k r, t !! k = Some r -> k ∈ map key args ->
          exists a, a ∈ args /\ key a = k /\ t' !! k = Some (new a r)).
Proof.
  intros Hnew. induction args as [|a args IH]; intros t; cbn zeta.
  - cbn. split; [reflexivity|]. split; [reflexivity|].
    intros k r _ Hk. by apply elem_of_nil in Hk.
  - cbn [fold_left map].
    destruct (IH (alter (new a) (key a) t)) as (Hdom & Hout & Hin).
    split; [|split].
    + rewrite Hdom. apply dom_alter_L.
    + intros k Hk. apply not_elem_of_cons in Hk as [Hne Hk].
      rewrite Hout by exact Hk. apply lookup_alter_ne. congruence.
    + intros k r Hr Hk.
      destruct (decide (k ∈ map key args)) as [Hk'|Hk'].
      * destruct (decide (key a = k)) as [Heq|Hne].
        -- destruct (Hin k (new a r)) as (a' & Ha' & Hka' & Hlk); [|exact Hk'|].
           { rewrite <- Heq, lookup_alter_eq, Heq, Hr. reflexivity. }
           exists a'. split; [now right|]. split; [exact Hka'|].
           rewrite Hlk, Hnew. reflexivity.
        -- destruct (Hin k r) as (a' & Ha' & Hka' & Hlk); [|exact Hk'|].
           { rewrite lookup_alter_ne by exact Hne. exact Hr. }
           exists a'. split; [now right|]. auto.
      * apply elem_of_cons in Hk as [Heq|Hk]; [|contradiction].
        subst k. exists a. split; [left|]. split; [reflexivity|].
        rewrite Hout by exact Hk'. rewrite lookup_alter_eq, Hr. reflexivity.
Qed.

Lemma fold_insert_spec {X} (mk : X -> row) (key : X -> pystr) :
  forall args (t : table_t),
    NoDup (map key args) ->
    let t' := fold_left (fun t a => <[key a := mk a]> t) args t in
    (forall a, a ∈ args -> t' !! key a = Some (mk a))
    /\ (forall k, k ∉ map key args -> t' !! k = t !! k).
Proof.
  induction args as [|a args IH]; intros t Hnd; cbn zeta.
  - split; [intros a Ha; by apply elem_of_nil in Ha | reflexivity].
  - cbn [fold_left map] in *. apply NoDup_cons in Hnd as [Hnotin Hnd].
    destruct (IH (<[key a := mk a]> t) Hnd) as (Hin & Hout).
    split.
    + intros a' Ha'. apply elem_of_cons in Ha' as [->|Ha']; [|now apply Hin].
      rewrite Hout by exact Hnotin. apply lookup_insert_eq.
    + intros k Hk. apply not_elem_of_cons in Hk as [Hne Hk].
      rewrite Hout by exact Hk. apply lookup_insert_ne. congruence.
Qed.

(** A batch of inserts of distinct identifiers, none of which is in the
    table, goes through and adds one row per argument tuple. *)
Lemma execute_batch_insert_fresh name now args :
  forall st t,
    failed (sess st) = false ->
    tables (working (sess st)) !! name = Some t ->
    NoDup (map (fun a : pystr * option bytes * bytes * Z => fst (fst (fst a))) args) ->
    (forall a, a ∈ args -> t !! fst (fst (fst a)) = None) ->
    execute_batch (sql_insert name now) args st
    = (Ok tt,
       {| sess := {| committed := committed (sess st);
                     working :=
                       {| tables :=
                            <[name :=
                                fold_left
                                  (fun t (a : pystr * option bytes * bytes * Z) =>
                                     <[fst (fst (fst a)) :=
                                         {| r_embedding := snd (fst (fst a));
                                            r_doc := Some (snd (fst a));
                                            r_shard := snd a;
                                            r_last_updated := now |}]> t)
                                  args t]> (tables (working (sess st)));
                          schema_versions := schema_versions (working (sess st)) |};
                     failed := false |};
          logs := logs st |}).
Proof.
  induction args as [|a args IH]; intros st t Hfail Ht Hnd Hfresh.
  - cbn. rewrite insert_id by exact Ht.
    destruct st as [[c [tb sv] fl] lg]. cbn in *. now subst fl.
  - cbn [execute_batch fold_left map] in *. unfold mbind, tx_bind.
    apply NoDup_cons in Hnd as [Hnotin Hnd].
    pose proof (Hfresh a ltac:(left)) as Ha.
    destruct a as [[[doc_id emb] doc] shard]. cbn [fst snd] in *.
    erewrite execute_ok; [|exact Hfail|].
    2:{ unfold sql_insert, on_table. rewrite Ht, Ha. reflexivity. }
    erewrite IH; [|reflexivity|cbn; apply lookup_insert_eq|exact Hnd|].
    + cbn. now rewrite insert_insert_eq.
    + intros a' Ha'. rewrite lookup_insert_ne; [apply Hfresh; now right|].
      intros ->. apply Hnotin. apply list_elem_of_fmap. eauto.
Qed.

Section Properties.

Variable cast : dtype -> dtype -> bytes -> bytes.
Variable to_bytes : Document -> bytes.
Variable from_bytes : bytes -> result Document.

(** The argument tuple that [add] builds for one document. *)
Lemma add_args_id (self : handler) (doc : Document) a :
  (shard ← _get_next_shard self (id doc);
   Ok (id doc,
       (fun e => tobytes (astype cast e (dump_dtype self))) <$> embedding doc,
       doc_without_embedding to_bytes doc, shard)) = Ok a ->
  a = (id doc,
       (fun e => tobytes (astype cast e (dump_dtype self))) <$> embedding doc,
       doc_without_embedding to_bytes doc, snd a)
  /\ _get_next_shard self (id doc) = Ok (snd a).
Proof.
  destruct (_get_next_shard self (id doc)) as [sh|e]; cbn [mbind result_bind];
    [|discriminate].
  intros [= <-]. split; reflexivity.
Qed.

(** C2. When a batch given to [add] contains an identifier that is
    already in the table, the database is left exactly as it was: none of
    the rows of the batch is persisted.  When moreover the batch reaches the
    backend (the handler has a connection and every shard can be computed),
    the uniqueness violation is not raised to the caller, and it is logged
    as one warning unless [mute_unique_warnings] is set. *)
Theorem add_conflict_rolls_back_batch (docs : list Document) (now : Z)
    (self : handler) (d : database) (t : table_t) (doc : Document) :
  tables d !! table self = Some t ->
  doc ∈ docs ->
  is_Some (t !! id doc) ->
  snd (add cast to_bytes docs now self d) = d
  /\ (ready self = true ->
      partitions self <> 0 ->
      Forall (fun x => exists msg, Utf8.encode (id x) = Ok msg) docs ->
      exists self',
        add cast to_bytes docs now self d = (Ok tt, self', d)
        /\ logger self'
           = (if mute_unique_warnings self then logger self
              else logger self ++
                   [{| lvl := WARNING;
                       text := "Document already exists in PSQL database. Skipping entire transaction..." |}])
        /\ ready self' = true
        /\ config self' = config self).
Proof.
  intros Ht Hin Hsome.
  set (f := fun doc0 : Document =>
              shard ← _get_next_shard self (id doc0);
              Ok (id doc0,
                  (fun e => tobytes (astype cast e (dump_dtype self))) <$> embedding doc0,
                  doc_without_embedding to_bytes doc0, shard)).
  set (st0 := {| sess := begin d; logs := logger self |}).
  (* the batch of inserts, when the arguments could be built *)
  assert (Hbatch : forall argslist,
            comprehension f docs = Ok argslist ->
            exists st',
              execute_batch (sql_insert (table self) now) argslist st0
              = (Raise UniqueViolation, st')
              /\ committed (sess st') = d /\ logs st' = logger self).
  { intros argslist Hargs.
    apply (execute_batch_insert_conflict _ _ _ st0 t); [reflexivity|exact Ht|].
    assert (Hall : forall xs ys, comprehension f xs = Ok ys ->
                     forall x, x ∈ xs -> exists a, a ∈ ys /\ fst (fst (fst a)) = id x).
    { induction xs as [|x xs IH]; intros ys Hc x0 Hx0; [by apply elem_of_nil in Hx0|].
      cbn [comprehension] in Hc.
      destruct (f x) as [a|] eqn:Ea; [|discriminate]. cbn [mbind result_bind] in Hc.
      destruct (comprehension f xs) as [ys'|] eqn:Eys; [|discriminate].
      cbn [mbind result_bind] in Hc. injection Hc as <-.
      apply elem_of_cons in Hx0 as [->|Hx0].
      - exists a. split; [left|]. apply add_args_id in Ea as [-> _]. reflexivity.
      - destruct (IH ys' eq_refl x0 Hx0) as (a' & Ha' & Hid).
        exists a'. split; [now right | exact Hid]. }
    destruct (Hall docs argslist Hargs doc Hin) as (a & Ha & Hid).
    exists a. split; [exact Ha|]. rewrite Hid. exact Hsome. }
  split.
  - destruct (get_connection_db self d
                (_ ← try_except
                       (argslist ← lift (comprehension f docs);
                        execute_batch (sql_insert (table self) now) argslist)
                       (fun e => match e with
                                 | UniqueViolation =>
                                     Some (_ ← (if mute_unique_warnings self then mret tt
                                                else log WARNING
                                                  "Document already exists in PSQL database. Skipping entire transaction...");
                                           rollback)
                                 | _ => None
                                 end);
                 commit)) as [H|H]; [exact H|].
    unfold add. fold f. rewrite H. clear H. fold st0.
    unfold mbind, tx_bind, try_except, lift.
    destruct (comprehension f docs) as [argslist|e] eqn:Hc.
    + destruct (Hbatch argslist eq_refl) as (st' & -> & Hcom & _).
      destruct (mute_unique_warnings self); cbn; exact Hcom.
    + destruct e; try reflexivity.
      destruct (mute_unique_warnings self); reflexivity.
  - intros Hready Hparts Henc.
    destruct (get_connection_ready self d
                (_ ← try_except
                       (argslist ← lift (comprehension f docs);
                        execute_batch (sql_insert (table self) now) argslist)
                       (fun e => match e with
                                 | UniqueViolation =>
                                     Some (_ ← (if mute_unique_warnings self then mret tt
                                                else log WARNING
                                                  "Document already exists in PSQL database. Skipping entire transaction...");
                                           rollback)
                                 | _ => None
                                 end);
                 commit) Hready) as (self' & Hrun & Hr' & Hcfg & Hlog).
    exists self'. unfold add. fold f. rewrite Hrun. fold st0 in Hlog |- *.
    destruct (comprehension_ok f docs) as (argslist & Hc & _).
    { eapply Forall_impl; [exact Henc|]. intros x Hx. subst f. cbn beta.
      destruct (get_next_shard_ok self (id x) Hparts Hx) as [sh ->].
      eexists. reflexivity. }
    destruct (Hbatch argslist Hc) as (st' & Hb & Hcom & Hl).
    revert Hlog. unfold mbind, tx_bind, try_except, lift. rewrite Hc, Hb.
    destruct (mute_unique_warnings self); cbn; rewrite ?Hl, ?Hcom; intros Hlog;
      repeat split; auto.
Qed.


Lemma comprehension_Forall2 {A B} (f : A -> result B) xs ys :
  comprehension f xs = Ok ys -> Forall2 (fun x y => f x = Ok y) xs ys.
Proof.
  revert ys. induction xs as [|x xs IH]; intros ys Hc; cbn [comprehension] in Hc.
  - injection Hc as <-. constructor.
  - destruct (f x) as [y|] eqn:Ey; [|discriminate]. cbn [mbind result_bind] in Hc.
    destruct (comprehension f xs) as [ys'|]; [|discriminate].
    cbn [mbind result_bind] in Hc. injection Hc as <-.
    constructor; [exact Ey | now apply IH].
Qed.

(** ** [update] *)

(** What [update] does on a connection: either an argument tuple cannot be
    built and nothing is sent, or every row is rewritten in turn and the
    transaction is committed. *)
Lemma update_body (docs : list Document) (now : Z) (self : handler) (d : database)
    (t : table_t) :
  tables d !! table self = Some t ->
  let f := fun doc : Document =>
             match embedding doc with
             | None => Raise AttributeError
             | Some e => Ok (tobytes (astype cast e (dump_dtype self)),
                             doc_without_embedding to_bytes doc, id doc)
             end in
  let body : tx unit :=
    argslist ← lift (comprehension f docs);
    _ ← execute_batch (sql_update (table self) now) argslist;
    commit in
  let st0 := {| sess := begin d; logs := logger self |} in
  match comprehension f docs with
  | Raise e => body st0 = (Raise e, st0)
  | Ok args =>
      body st0
      = (Ok tt,
         {| sess := begin
              {| tables :=
                   <[table self :=
                       fold_left
                         (fun t (a : bytes * bytes * pystr) =>
                            alter (fun r => {| r_embedding := Some (fst (fst a));
                                               r_doc := Some (snd (fst a));
                                               r_shard := r_shard r;
                                               r_last_updated := now |})
                                  (snd a) t)
                         args t]> (tables d);
                 schema_versions := schema_versions d |};
            logs := logger self |})
  end.
Proof.
  intros Ht f body st0. subst body. unfold mbind at 1, tx_bind, lift.
  destruct (comprehension f docs) as [args|e]; [|reflexivity].
  unfold mbind, tx_bind.
  erewrite (execute_batch_on_table (table self)
              (fun (a : bytes * bytes * pystr) t =>
                 alter (fun r => {| r_embedding := Some (fst (fst a));
                                    r_doc := Some (snd (fst a));
                                    r_shard := r_shard r;
                                    r_last_updated := now |}) (snd a) t));
    [reflexivity| |reflexivity|exact Ht].
  intros [[emb doc] doc_id]. reflexivity.
Qed.

(** C8. [update] never changes which identifiers are in the table, nor
    the shard of any row, nor the rows of identifiers that are not in the
    batch, nor any other table; identifiers of the batch that are not in
    the table are skipped.  When the handler has a connection and every
    document carries an embedding, the call returns normally and each row
    whose identifier is in the batch holds the embedding and payload of a
    document of the batch with that identifier, the time of the call, and
    its former shard. *)
Theorem update_overwrites_and_keeps_shard (docs : list Document) (now : Z)
    (self : handler) (d : database) (t : table_t) :
  tables d !! table self = Some t ->
  exists t',
    tables (snd (update cast to_bytes docs now self d)) !! table self = Some t'
    /\ (forall name, name <> table self ->
          tables (snd (update cast to_bytes docs now self d)) !! name = tables d !! name)
    /\ schema_versions (snd (update cast to_bytes docs now self d)) = schema_versions d
    /\ dom t' = dom t
    /\ (forall k, t !! k = None -> t' !! k = None)
    /\ (forall k r r', t !! k = Some r -> t' !! k = Some r' -> r_shard r' = r_shard r)
    /\ (forall k, k ∉ map id docs -> t' !! k = t !! k)
    /\ (ready self = true ->
        Forall (fun x => is_Some (embedding x)) docs ->
        fst (fst (update cast to_bytes docs now self d)) = Ok tt
        /\ forall k r, t !! k = Some r -> k ∈ map id docs ->
             exists doc e,
               doc ∈ docs /\ id doc = k /\ embedding doc = Some e
               /\ t' !! k
                  = Some {| r_embedding := Some (tobytes (astype cast e (dump_dtype self)));
                            r_doc := Some (doc_without_embedding to_bytes doc);
                            r_shard := r_shard r;
                            r_last_updated := now |}).
Proof.
  intros Ht.
  pose proof (update_body docs now self d t Ht) as Hbody. cbn zeta in Hbody.
  set (f := fun doc : Document =>
              match embedding doc with
              | None => Raise AttributeError
              | Some e => Ok (tobytes (astype cast e (dump_dtype self)),
                              doc_without_embedding to_bytes doc, id doc)
              end) in *.
  set (new := fun (a : bytes * bytes * pystr) r =>
                {| r_embedding := Some (fst (fst a)); r_doc := Some (snd (fst a));
                   r_shard := r_shard r; r_last_updated := now |}).
  assert (Hspec : forall args,
            let t' := fold_left (fun t a => alter (new a) (snd a) t) args t in
            dom t' = dom t
            /\ (forall k, k ∉ map snd args -> t' !! k = t !! k)
            /\ (forall k r, t !! k = Some r -> k ∈ map snd args ->
                  exists a, a ∈ args /\ snd a = k /\ t' !! k = Some (new a r))).
  { intros args. apply (fold_alter_spec new snd). reflexivity. }
  (* the rows of an unchanged table *)
  assert (Hsame : forall d',
            d' = d ->
            tables d' !! table self = Some t
            /\ (forall name, name <> table self -> tables d' !! name = tables d !! name)
            /\ schema_versions d' = schema_versions d
            /\ dom t = dom t
            /\ (forall k, t !! k = None -> t !! k = None)
            /\ (forall k r r', t !! k = Some r -> t !! k = Some r' -> r_shard r' = r_shard r)
            /\ (forall k, k ∉ map id docs -> t !! k = t !! k)).
  { intros d' ->. repeat split; auto. intros k r r' H1 H2. congruence. }
  unfold update. fold f.
  match goal with
  | |- context [get_connection self d ?b] => set (body := b) in *
  end.
  destruct (comprehension f docs) as [args|e] eqn:Hc.
  - (* the arguments are built *)
    pose proof (comprehension_Forall2 f docs args Hc) as Hall.
    assert (Hkeys : map snd args = map id docs).
    { clear -Hall. induction Hall as [|x a xs ys Hx _ IH]; [reflexivity|].
      cbn [map]. rewrite IH. f_equal. subst f. cbn beta in Hx.
      destruct (embedding x); [|discriminate]. now injection Hx as <-. }
    destruct (Hspec args) as (Hdom & Hout & Hin). rewrite Hkeys in Hout, Hin.
    set (t' := fold_left (fun t a => alter (new a) (snd a) t) args t) in *.
    assert (Hshard : forall k r r', t !! k = Some r -> t' !! k = Some r' ->
                       r_shard r' = r_shard r).
    { intros k r r' Hr Hr'.
      destruct (decide (k ∈ map id docs)) as [Hk|Hk].
      - destruct (Hin k r Hr Hk) as (a & _ & _ & Ha). rewrite Ha in Hr'.
        now injection Hr' as <-.
      - rewrite Hout in Hr' by exact Hk. congruence. }
    assert (Hnone : forall k, t !! k = None -> t' !! k = None).
    { intros k Hk. apply not_elem_of_dom. rewrite Hdom. now apply not_elem_of_dom. }
    destruct (get_connection_db self d body) as [Hdb|Hdb].
    + (* no connection *)
      exists t. rewrite Hdb. destruct (Hsame d eq_refl) as (H1 & H2 & H3 & H4 & H5 & H6 & H7).
      repeat (split; [assumption|]).
      intros Hready _.
      destruct (get_connection_ready self d body Hready) as (self' & Hrun & _).
      rewrite Hrun in Hdb |- *. cbn [fst snd] in Hdb |- *. rewrite Hbody in Hdb |- *.
      cbn in Hdb. split; [reflexivity|].
      intros k r Hr Hk. destruct (Hin k r Hr Hk) as (a & Ha & Hka & Hlk).
      assert (Ht' : t' = t).
      { apply (f_equal (fun x => tables x !! table self)) in Hdb. cbn in Hdb.
        rewrite lookup_insert_eq, Ht in Hdb. now injection Hdb. }
      rewrite Ht' in Hlk.
      apply (list_elem_of_lookup_1 args) in Ha as [i Hi].
      destruct (Forall2_lookup_r _ _ _ _ _ Hall Hi) as (x & Hx & Hfx).
      subst f. cbn beta in Hfx. destruct (embedding x) as [e0|] eqn:He0; [|discriminate].
      injection Hfx as <-. exists x, e0.
      split; [eapply list_elem_of_lookup_2; exact Hx|]. auto.
    + exists t'. rewrite Hdb, Hbody. cbn.
      split; [apply lookup_insert_eq|].
      split; [intros name Hne; now rewrite lookup_insert_ne by congruence|].
      repeat (split; [first [reflexivity|assumption]|]).
      intros Hready _.
      destruct (get_connection_ready self d body Hready) as (self' & Hrun & _).
      rewrite Hrun. cbn [fst]. rewrite Hbody. split; [reflexivity|].
      intros k r Hr Hk. destruct (Hin k r Hr Hk) as (a & Ha & Hka & Hlk).
      apply (list_elem_of_lookup_1 args) in Ha as [i Hi].
      destruct (Forall2_lookup_r _ _ _ _ _ Hall Hi) as (x & Hx & Hfx).
      subst f. cbn beta in Hfx. destruct (embedding x) as [e0|] eqn:He0; [|discriminate].
      injection Hfx as <-. exists x, e0.
      split; [eapply list_elem_of_lookup_2; exact Hx|]. auto.
  - (* an argument tuple cannot be built: nothing is sent *)
    exists t.
    assert (Hdb : snd (get_connection self d body) = d).
    { destruct (get_connection_db self d body) as [H|H]; [exact H|].
      rewrite H, Hbody. reflexivity. }
    rewrite Hdb. destruct (Hsame d eq_refl) as (H1 & H2 & H3 & H4 & H5 & H6 & H7).
    repeat (split; [assumption|]).
    intros _ Hemb. exfalso.
    assert (Hok : exists ys, comprehension f docs = Ok ys).
    { destruct (comprehension_ok f docs) as (ys & Hys & _); [|eauto].
      eapply Forall_impl; [exact Hemb|]. intros x [e0 He0]. subst f. cbn beta.
      rewrite He0. eauto. }
    destruct Hok as [ys Hys]. congruence.
Qed.


(** ** [add] on fresh identifiers *)

Lemma add_inserts_rows (docs : list Document) (now : Z) (self : handler)
    (d : database) (t : table_t) :
  ready self = true ->
  tables d !! table self = Some t ->
  partitions self <> 0 ->
  Forall (fun x => exists msg, Utf8.encode (id x) = Ok msg) docs ->
  NoDup (map id docs) ->
  (forall x, x ∈ docs -> t !! id x = None) ->
  exists self' t',
    add cast to_bytes docs now self d
    = (Ok tt, self',
       {| tables := <[table self := t']> (tables d);
          schema_versions := schema_versions d |})
    /\ ready self' = true
    /\ config self' = config self
    /\ logger self' = logger self
    /\ (forall x, x ∈ docs ->
          exists sh,
            _get_next_shard self (id x) = Ok sh
            /\ t' !! id x
               = Some {| r_embedding :=
                           (fun e => tobytes (astype cast e (dump_dtype self)))
                             <$> embedding x;
                         r_doc := Some (doc_without_embedding to_bytes x);
                         r_shard := sh;
                         r_last_updated := now |})
    /\ (forall k, k ∉ map id docs -> t' !! k = t !! k).
Proof.
  intros Hready Ht Hparts Henc Hnd Hfresh.
  set (f := fun doc0 : Document =>
              shard ← _get_next_shard self (id doc0);
              Ok (id doc0,
                  (fun e => tobytes (astype cast e (dump_dtype self))) <$> embedding doc0,
                  doc_without_embedding to_bytes doc0, shard)).
  destruct (comprehension_ok f docs) as (args & Hc & Hall).
  { eapply Forall_impl; [exact Henc|]. intros x Hx. subst f. cbn beta.
    destruct (get_next_shard_ok self (id x) Hparts Hx) as [sh ->].
    eexists. reflexivity. }
  assert (Hkeys : map (fun a : pystr * option bytes * bytes * Z => fst (fst (fst a))) args
                  = map id docs).
  { clear -Hall. induction Hall as [|x a xs ys Hx _ IH]; [reflexivity|].
    cbn [map]. rewrite IH. f_equal. apply add_args_id in Hx as [-> _]. reflexivity. }
  set (mk := fun a : pystr * option bytes * bytes * Z =>
               {| r_embedding := snd (fst (fst a)); r_doc := Some (snd (fst a));
                  r_shard := snd a; r_last_updated := now |}).
  destruct (fold_insert_spec mk (fun a => fst (fst (fst a))) args t) as (Hin & Hout).
  { rewrite Hkeys. exact Hnd. }
  rewrite Hkeys in Hout.
  unfold add. fold f.
  match goal with
  | |- context [get_connection self d ?b] =>
      destruct (get_connection_ready self d b Hready) as (self' & Hrun & Hr' & Hcfg & Hlog)
  end.
  rewrite Hrun. clear Hrun. revert Hlog.
  unfold mbind at 1 3, tx_bind at 1 3, try_except, mbind, tx_bind, lift. rewrite Hc.
  erewrite (execute_batch_insert_fresh (table self) now args _ t);
    [|reflexivity|exact Ht|rewrite Hkeys; exact Hnd|].
  2:{ intros a Ha. apply (list_elem_of_lookup_1 args) in Ha as [i Hi].
      destruct (Forall2_lookup_r _ _ _ _ _ Hall Hi) as (x & Hx & Hfx).
      apply add_args_id in Hfx as [-> _]. cbn [fst].
      apply Hfresh. eapply list_elem_of_lookup_2; exact Hx. }
  cbn. intros Hlog.
  exists self', (fold_left (fun t a => <[fst (fst (fst a)) := mk a]> t) args t).
  split; [reflexivity|]. repeat (split; [assumption|]).
  split; [|exact Hout].
  intros x Hx. apply (list_elem_of_lookup_1 docs) in Hx as [i Hi].
  destruct (Forall2_lookup_l _ _ _ _ _ Hall Hi) as (a & Ha & Hfa).
  apply add_args_id in Hfa as [Heq Hsh].
  exists (snd a). split; [exact Hsh|].
  pose proof (Hin a ltac:(eapply list_elem_of_lookup_2; exact Ha)) as Hlk.
  rewrite Heq in Hlk at 1. cbn [fst] in Hlk. rewrite Hlk.
  subst mk. cbn beta. rewrite Heq at 1 2. reflexivity.
Qed.

(** The shard that [add] stores in a row is the one of the formula. *)
Lemma add_stores_shard_of_formula (docs : list Document) (now : Z) (self : handler)
    (d : database) (t : table_t) (x : Document) (msg : bytes) :
  ready self = true ->
  tables d !! table self = Some t ->
  partitions self <> 0 ->
  Forall (fun x => exists msg, Utf8.encode (id x) = Ok msg) docs ->
  NoDup (map id docs) ->
  (forall x, x ∈ docs -> t !! id x = None) ->
  x ∈ docs ->
  Utf8.encode (id x) = Ok msg ->
  exists self' d' t' r,
    add cast to_bytes docs now self d = (Ok tt, self', d')
    /\ tables d' !! table self = Some t'
    /\ t' !! id x = Some r
    /\ r_shard r = shard_for msg (partitions self).
Proof.
  intros Hready Ht Hparts Henc Hnd Hfresh Hx Hmsg.
  destruct (add_inserts_rows docs now self d t Hready Ht Hparts Henc Hnd Hfresh)
    as (self' & t' & Hrun & _ & _ & _ & Hrows & _).
  destruct (Hrows x Hx) as (sh & Hsh & Hlk).
  rewrite (get_next_shard_formula self (id x) msg Hmsg Hparts) in Hsh.
  injection Hsh as <-.
  eexists self', _, t', _. split; [exact Hrun|].
  split; [cbn; apply lookup_insert_eq|]. split; [exact Hlk|]. reflexivity.
Qed.

(** C10. [update] dereferences the embedding of every document: when a
    document of the batch has none, the call raises [AttributeError] and the
    database is left as it was, no row having been written.  [add] takes
    such a document and stores a null embedding in its row. *)
Theorem update_requires_embedding_add_accepts_none (docs : list Document) (now : Z)
    (self : handler) (d : database) (doc : Document) :
  ready self = true ->
  doc ∈ docs ->
  embedding doc = None ->
  (exists self',
     update cast to_bytes docs now self d = (Raise AttributeError, self', d)
     /\ ready self' = true /\ config self' = config self)
  /\ (forall t,
        tables d !! table self = Some t ->
        partitions self <> 0 ->
        Forall (fun x => exists msg, Utf8.encode (id x) = Ok msg) docs ->
        NoDup (map id docs) ->
        (forall x, x ∈ docs -> t !! id x = None) ->
        exists self' d' t' sh,
          add cast to_bytes docs now self d = (Ok tt, self', d')
          /\ tables d' !! table self = Some t'
          /\ _get_next_shard self (id doc) = Ok sh
          /\ t' !! id doc
             = Some {| r_embedding := None;
                       r_doc := Some (doc_without_embedding to_bytes doc);
                       r_shard := sh;
                       r_last_updated := now |}).
Proof.
  intros Hready Hin Hnone. split.
  - unfold update.
    match goal with
    | |- context [get_connection self d ?b] =>
        destruct (get_connection_ready self d b Hready) as (self' & Hrun & Hr' & Hcfg & _)
    end.
    exists self'. rewrite Hrun. clear Hrun.
    unfold mbind at 1 3, tx_bind at 1 3, lift.
    rewrite (comprehension_raise _ docs doc AttributeError Hin).
    + cbn. auto.
    + now rewrite Hnone.
    + intros x _. now destruct (embedding x).
  - intros t Ht Hparts Henc Hnd Hfresh.
    destruct (add_inserts_rows docs now self d t Hready Ht Hparts Henc Hnd Hfresh)
      as (self' & t' & Hrun & _ & _ & _ & Hrows & _).
    destruct (Hrows doc Hin) as (sh & Hsh & Hlk).
    eexists self', _, t', sh. split; [exact Hrun|].
    split; [cbn; apply lookup_insert_eq|]. split; [exact Hsh|].
    rewrite Hlk, Hnone. reflexivity.
Qed.


(** ** [delete], [get_size] and [search] *)

Lemma database_insert_id (d : database) (name : string) (t : table_t) :
  tables d !! name = Some t ->
  {| tables := <[name := t]> (tables d); schema_versions := schema_versions d |} = d.
Proof. intros Ht. rewrite insert_id by exact Ht. now destruct d. Qed.

Lemma size_alter (f : row -> row) (k : pystr) (t : table_t) :
  size (alter f k t) = size t.
Proof. rewrite <- !size_dom. now rewrite dom_alter_L. Qed.

Lemma get_size_counts_rows (self : handler) (d : database) (t : table_t) :
  ready self = true ->
  tables d !! table self = Some t ->
  exists self',
    get_size self d = (Ok (Z.of_nat (size t)), self', d)
    /\ ready self' = true /\ config self' = config self.
Proof.
  intros Hready Ht. unfold get_size.
  match goal with
  | |- context [get_connection self d ?b] =>
      destruct (get_connection_ready self d b Hready) as (self' & Hrun & Hr' & Hcfg & _)
  end.
  exists self'. rewrite Hrun. clear Hrun.
  erewrite execute_ok; [|reflexivity|].
  2:{ unfold sql_count, on_table. cbn. rewrite Ht. reflexivity. }
  cbn. rewrite (database_insert_id d _ t Ht). auto.
Qed.

Lemma soft_delete_rewrites_rows (docs : list Document) (now : Z) (self : handler)
    (d : database) (t : table_t) :
  ready self = true ->
  tables d !! table self = Some t ->
  exists self',
    delete_ docs true now self d
    = (Ok tt, self',
       {| tables :=
            <[table self :=
                fold_left
                  (fun t k => alter (fun r => {| r_embedding := None; r_doc := None;
                                                 r_shard := r_shard r;
                                                 r_last_updated := now |}) k t)
                  (map id docs) t]> (tables d);
          schema_versions := schema_versions d |})
    /\ ready self' = true /\ config self' = config self.
Proof.
  intros Hready Ht. unfold delete_.
  match goal with
  | |- context [get_connection self d ?b] =>
      destruct (get_connection_ready self d b Hready) as (self' & Hrun & Hr' & Hcfg & _)
  end.
  exists self'. rewrite Hrun. clear Hrun.
  unfold mbind, tx_bind, log.
  erewrite (execute_batch_on_table (table self)
              (fun k t => alter (fun r => {| r_embedding := None; r_doc := None;
                                             r_shard := r_shard r;
                                             r_last_updated := now |}) k t));
    [|reflexivity|reflexivity|exact Ht].
  cbn. auto.
Qed.

(** Looking up a missing row or a row whose payload is null: [search]
    stops on a [TypeError] before it has replaced any document. *)
Lemma search_without_payload (q : Document) (return_embeddings : bool)
    (self : handler) (d : database) (t : table_t) :
  ready self = true ->
  tables d !! table self = Some t ->
  match t !! id q with
  | Some r => r_doc r = None
  | None => True
  end ->
  exists self',
    search from_bytes [q] return_embeddings self d
    = ({| yielded := []; stop := Some TypeError |}, self', d)
    /\ ready self' = true /\ config self' = config self.
Proof.
  intros Hready Ht Hq. unfold search.
  match goal with
  | |- context [get_connection self d ?b] =>
      destruct (get_connection_ready self d b Hready) as (self' & Hrun & Hr' & Hcfg & _)
  end.
  exists self'. rewrite Hrun. clear Hrun.
  assert (Hloop : exists st',
            search_loop from_bytes self return_embeddings [q]
              {| sess := begin d; logs := logger self |}
            = ({| yielded := []; stop := Some TypeError |}, st')
            /\ committed (sess st') = d).
  { cbn [search_loop]. unfold search_doc, mbind, tx_bind, lift.
    erewrite execute_ok; [|reflexivity|].
    2:{ unfold sql_select_doc, on_table. cbn. rewrite Ht. reflexivity. }
    destruct (t !! id q) as [r|]; cbn; [rewrite Hq|]; eauto. }
  destruct Hloop as (st' & -> & Hcom). cbn. rewrite Hcom. auto.
Qed.

(** C3. After [delete([doc], soft_delete=True)] on a stored document the
    row is still there, with a null embedding, a null payload, the time of
    the call as [last_updated] and its shard; the other rows are untouched
    and [get_size] returns what it returned before.  [search] on that
    identifier retrieves no document: it stops on a [TypeError] without
    having replaced the document it was given, exactly as it does for an
    identifier that is not in the table. *)
Theorem soft_delete_keeps_row_and_hides_document (doc : Document) (now : Z)
    (self : handler) (d : database) (t : table_t) (r : row) :
  ready self = true ->
  tables d !! table self = Some t ->
  t !! id doc = Some r ->
  exists self1 d1 t1,
    delete_ [doc] true now self d = (Ok tt, self1, d1)
    /\ tables d1 !! table self = Some t1
    /\ t1 !! id doc
       = Some {| r_embedding := None; r_doc := None;
                 r_shard := r_shard r; r_last_updated := now |}
    /\ (forall k, k <> id doc -> t1 !! k = t !! k)
    /\ (exists self2, get_size self d = (Ok (Z.of_nat (size t)), self2, d))
    /\ (exists self2, get_size self1 d1 = (Ok (Z.of_nat (size t)), self2, d1))
    /\ (forall q return_embeddings,
          id q = id doc \/ t !! id q = None ->
          exists self2,
            search from_bytes [q] return_embeddings self1 d1
            = ({| yielded := []; stop := Some TypeError |}, self2, d1)).
Proof.
  intros Hready Ht Hr.
  destruct (soft_delete_rewrites_rows [doc] now self d t Hready Ht)
    as (self1 & Hrun & Hr1 & Hcfg1).
  cbn [map fold_left] in Hrun.
  set (tomb := fun r0 => {| r_embedding := None; r_doc := None;
                            r_shard := r_shard r0; r_last_updated := now |}) in *.
  assert (Htable : table self1 = table self) by (now injection Hcfg1).
  set (d1 := {| tables := <[table self := alter tomb (id doc) t]> (tables d);
                schema_versions := schema_versions d |}) in *.
  assert (Ht1 : tables d1 !! table self1 = Some (alter tomb (id doc) t))
    by (rewrite Htable; cbn; apply lookup_insert_eq).
  exists self1, d1, (alter tomb (id doc) t).
  split; [exact Hrun|].
  split; [cbn; apply lookup_insert_eq|].
  split; [rewrite lookup_alter_eq, Hr; reflexivity|].
  split; [intros k Hk; apply lookup_alter_ne; congruence|].
  split.
  { destruct (get_size_counts_rows self d t Hready Ht) as (self2 & H2 & _). eauto. }
  split.
  { destruct (get_size_counts_rows self1 d1 _ Hr1 Ht1) as (self2 & H2 & _).
    rewrite size_alter in H2. eauto. }
  intros q re Hq.
  destruct (search_without_payload q re self1 d1 _ Hr1 Ht1) as (self2 & H2 & _);
    [|eauto].
  destruct Hq as [Hq|Hq].
  - rewrite Hq, lookup_alter_eq, Hr. reflexivity.
  - destruct (decide (id doc = id q)) as [Heq|Hne].
    + rewrite <- Heq, lookup_alter_eq, Hr. reflexivity.
    + rewrite lookup_alter_ne by exact Hne. now rewrite Hq.
Qed.


(** ** Streaming reads *)

Variable id_le : pystr -> pystr -> Prop.
Context `{!RelDecision id_le}.

Lemma yield_each_ok {X Y} (f : X -> result Y) xs :
  Forall (fun x => exists y, f x = Ok y) xs ->
  exists ys, yield_each f xs = {| yielded := ys; stop := None |}
             /\ Forall2 (fun x y => f x = Ok y) xs ys.
Proof.
  induction 1 as [|x xs [y Hy] _ (ys & Hys & Hall)].
  - exists []. split; [reflexivity | constructor].
  - exists (y :: ys). cbn [yield_each]. rewrite Hy, Hys.
    split; [reflexivity | now constructor].
Qed.

Lemma yield_each_elem {X Y} (f : X -> result Y) xs y :
  y ∈ yielded (yield_each f xs) -> exists x, x ∈ xs /\ f x = Ok y.
Proof.
  induction xs as [|x xs IH]; cbn [yield_each].
  - intros Hy. by apply elem_of_nil in Hy.
  - destruct (f x) as [y0|e] eqn:Ey; cbn [yielded].
    + intros Hy. apply elem_of_cons in Hy as [->|Hy].
      * exists x. split; [left | exact Ey].
      * destruct (IH Hy) as (x' & Hx' & Hfx'). exists x'. split; [now right | exact Hfx'].
    + intros Hy. by apply elem_of_nil in Hy.
Qed.

Lemma in_tuple_nonempty {A} (shards : list Z)
    (q : database -> result (A * database)) (d : database) :
  shards <> [] -> in_tuple shards q d = q d.
Proof. destruct shards; [congruence|reflexivity]. Qed.

Lemma in_tuple_empty {A} (q : database -> result (A * database)) (d : database) :
  in_tuple [] q d = Raise SyntaxError.
Proof. reflexivity. Qed.

(** The rows that the delta query selects, as the backend returns them. *)
Lemma sql_select_delta_rows (name : string) (shards : list Z) (timestamp : Z)
    (d : database) (t : table_t) :
  tables d !! name = Some t ->
  shards <> [] ->
  exists recs,
    sql_select_delta id_le name shards timestamp d = Ok (recs, d)
    /\ (forall k emb u,
          (k, emb, u) ∈ recs
          <-> exists r, t !! k = Some r /\ r_shard r ∈ shards
                        /\ timestamp < r_last_updated r
                        /\ emb = r_embedding r /\ u = r_last_updated r)
    /\ (Total id_le -> Transitive id_le ->
        StronglySorted id_le (map (fun rec => fst (fst rec)) recs))
    /\ NoDup (map (fun rec => fst (fst rec)) recs).
Proof.
  intros Ht Hne. unfold sql_select_delta. rewrite in_tuple_nonempty by exact Hne.
  unfold on_table. rewrite Ht.
  rewrite (database_insert_id d name t Ht).
  set (rows := filter (fun kr : pystr * row =>
                         r_shard (snd kr) ∈ shards ∧ timestamp < r_last_updated (snd kr))
                      (map_to_list t)).
  pose proof (merge_sort_Permutation (by_doc_id id_le) rows) as Hperm.
  fold (order_by_doc_id id_le rows) in Hperm.
  eexists. split; [reflexivity|]. split; [|split].
  - intros k emb u. rewrite list_elem_of_fmap. split.
    + intros ([k' r] & Heq & Hin). cbn in Heq. injection Heq as -> -> ->.
      rewrite Hperm in Hin. apply list_elem_of_filter in Hin as [[Hs Hts] Hin].
      apply elem_of_map_to_list in Hin. exists r. cbn in Hs, Hts. auto.
    + intros (r & Hr & Hs & Hts & -> & ->). exists (k, r). split; [reflexivity|].
      rewrite Hperm. apply list_elem_of_filter. split; [split; assumption|].
      now apply elem_of_map_to_list.
  - intros Htot Htrans.
    rewrite map_map. cbn [fst].
    apply (StronglySorted_fmap fst (by_doc_id id_le) id_le); [auto|].
    unfold order_by_doc_id.
    apply StronglySorted_merge_sort.
    + intros x y z. unfold by_doc_id. apply Htrans.
    + intros x y. unfold by_doc_id. apply Htot.
  - rewrite map_map. cbn [fst].
    change (NoDup ((order_by_doc_id id_le rows).*1)).
    rewrite Hperm. subst rows.
    eapply (sublist_NoDup _ ((map_to_list t).*1)).
    + apply NoDup_fst_map_to_list.
    + apply fmap_sublist. apply sublist_filter.
Qed.

(** A delta read on a ready handler streams the decoded rows of the
    query and leaves the database as it is. *)
Lemma get_delta_run (shards : list Z) (timestamp : Z) (self : handler)
    (d : database) (t : table_t) :
  ready self = true ->
  tables d !! table self = Some t ->
  shards <> [] ->
  exists self' recs,
    sql_select_delta id_le (table self) shards timestamp d = Ok (recs, d)
    /\ _get_delta id_le shards timestamp self d
       = (yield_each
            (fun rec : pystr * option bytes * Z =>
               second_val ← decode_embedding (dump_dtype self) (snd (fst rec));
               Ok (fst (fst rec), second_val, snd rec))
            recs, self', d)
    /\ ready self' = true /\ config self' = config self
    /\ logger self' = logger self.
Proof.
  intros Hready Ht Hne.
  destruct (sql_select_delta_rows (table self) shards timestamp d t Ht Hne)
    as (recs & Hsel & _).
  unfold _get_delta.
  match goal with
  | |- context [get_connection self d ?b] =>
      destruct (get_connection_ready self d b Hready) as (self' & Hrun & Hr' & Hcfg & Hlog)
  end.
  exists self', recs. split; [exact Hsel|]. rewrite Hrun. clear Hrun. revert Hlog.
  erewrite execute_ok; [|reflexivity|exact Hsel].
  cbn. intros Hlog. split; [|auto].
  unfold conn_exit, commit_session, rollback_session.
  destruct (raised _); reflexivity.
Qed.

(** A delta read for no shard at all: the statement is refused and the
    error reaches the caller. *)
Lemma get_delta_empty_shards (timestamp : Z) (self : handler) (d : database) :
  ready self = true ->
  exists self',
    _get_delta id_le [] timestamp self d
    = ({| yielded := []; stop := Some SyntaxError |}, self', d)
    /\ ready self' = true /\ config self' = config self
    /\ logger self' = logger self.
Proof.
  intros Hready. unfold _get_delta.
  match goal with
  | |- context [get_connection self d ?b] =>
      destruct (get_connection_ready self d b Hready) as (self' & Hrun & Hr' & Hcfg & Hlog)
  end.
  exists self'. rewrite Hrun. clear Hrun. revert Hlog.
  erewrite execute_raise; [|reflexivity|reflexivity].
  cbn. auto.
Qed.

Lemma decode_embedding_well_sized (dt : dtype) (t : table_t) (k : pystr) (r : row) :
  well_sized dt t -> t !! k = Some r ->
  exists vec, decode_embedding dt (r_embedding r) = Ok vec.
Proof.
  intros Hws Hr. pose proof (map_Forall_lookup_1 _ _ _ _ Hws Hr) as Hk.
  cbn beta in Hk. unfold decode_embedding, frombuffer.
  destruct (r_embedding r) as [b|]; [|eauto].
  rewrite Hk. cbn. eauto.
Qed.

(** C4 (as the code has it).  On a ready handler whose stored embeddings
    hold whole elements, the delta read for a list of shards that is not
    empty yields, without raising and without changing the database, one
    triple (id, embedding, last_updated) for each row of the primary table
    whose shard is among the requested ones and whose [last_updated] is
    strictly greater than the boundary, and nothing else; the identifiers
    come in the order of [ORDER BY doc_id] and none comes twice.  The result
    is the same on every database whose primary table has the same rows,
    whatever its snapshot table holds.  A later delta read whose boundary is
    at least every [last_updated] already yielded yields none of those
    triples again.  For the empty list of shards the statement is not SQL:
    the read yields nothing and raises the syntax error of the backend. *)
Theorem get_delta_streams_rows_after_boundary (shards : list Z) (timestamp : Z)
    (self : handler) (d : database) (t : table_t) :
  ready self = true ->
  tables d !! table self = Some t ->
  well_sized (dump_dtype self) t ->
  (shards = [] ->
   exists self',
     _get_delta id_le shards timestamp self d
     = ({| yielded := []; stop := Some SyntaxError |}, self', d))
  /\ (shards <> [] ->
      exists self' items,
        _get_delta id_le shards timestamp self d
        = ({| yielded := items; stop := None |}, self', d)
        /\ (forall k vec u,
              (k, vec, u) ∈ items
              <-> exists r, t !! k = Some r /\ r_shard r ∈ shards
                            /\ timestamp < r_last_updated r
                            /\ u = r_last_updated r
                            /\ decode_embedding (dump_dtype self) (r_embedding r) = Ok vec)
        /\ (Total id_le -> Transitive id_le ->
            StronglySorted id_le (map (fun x => fst (fst x)) items))
        /\ NoDup (map (fun x => fst (fst x)) items)
        /\ (forall d2,
              tables d2 !! table self = Some t ->
              fst (fst (_get_delta id_le shards timestamp self d2))
              = {| yielded := items; stop := None |})
        /\ (forall d2 t2 shards2 timestamp2,
              tables d2 !! table self = Some t2 ->
              (forall x, x ∈ items -> snd x <= timestamp2) ->
              forall x, x ∈ items ->
                x ∉ yielded (fst (fst (_get_delta id_le shards2 timestamp2 self' d2))))).
Proof.
  intros Hready Ht Hws. split.
  { intros ->. destruct (get_delta_empty_shards timestamp self d Hready)
      as (self' & Hrun & _). eauto. }
  intros Hne.
  set (f := fun rec : pystr * option bytes * Z =>
              second_val ← decode_embedding (dump_dtype self) (snd (fst rec));
              Ok (fst (fst rec), second_val, snd rec)).
  assert (Hf : forall rec y, f rec = Ok y ->
             fst (fst y) = fst (fst rec) /\ snd y = snd rec
             /\ decode_embedding (dump_dtype self) (snd (fst rec)) = Ok (snd (fst y))).
  { intros rec y. subst f. cbn beta.
    destruct (decode_embedding _ _) as [v|]; cbn [mbind result_bind]; [|discriminate].
    intros [= <-]. auto. }
  destruct (get_delta_run shards timestamp self d t Hready Ht Hne)
    as (self' & recs & Hsel & Hrun & Hr' & Hcfg & _).
  fold f in Hrun.
  destruct (sql_select_delta_rows (table self) shards timestamp d t Ht Hne)
    as (recs' & Hsel' & Hmem & Hsorted & Hnodup).
  rewrite Hsel in Hsel'. injection Hsel' as <-.
  destruct (yield_each_ok f recs) as (items & Hitems & Hall).
  { apply Forall_forall. intros [[k emb] u] Hin.
    apply Hmem in Hin as (r & Hr & _ & _ & -> & _).
    destruct (decode_embedding_well_sized _ t k r Hws Hr) as [vec Hvec].
    subst f. cbn. rewrite Hvec. eauto. }
  assert (Hids : map (fun x : pystr * option ndarray * Z => fst (fst x)) items
                 = map (fun rec : pystr * option bytes * Z => fst (fst rec)) recs).
  { clear -Hall Hf. induction Hall as [|rec y recs ys Hy _ IH]; [reflexivity|].
    cbn [map]. rewrite IH. f_equal. now apply Hf in Hy as [-> _]. }
  exists self', items. rewrite Hrun, Hitems.
  split; [reflexivity|]. split; [|split; [|split; [|split]]].
  - intros k vec u. split.
    + intros Hin. apply (list_elem_of_lookup_1 items) in Hin as [i Hi].
      destruct (Forall2_lookup_r _ _ _ _ _ Hall Hi) as ([[k' emb] u'] & Hrec & Hfy).
      apply Hf in Hfy as (Hk & Hu & Hdec). cbn in Hk, Hu, Hdec. subst k' u'.
      apply list_elem_of_lookup_2 in Hrec.
      apply Hmem in Hrec as (r & Hr & Hs & Hts & -> & ->).
      exists r. auto.
    + intros (r & Hr & Hs & Hts & -> & Hdec).
      assert (Hin : (k, r_embedding r, r_last_updated r) ∈ recs)
        by (apply Hmem; exists r; auto).
      apply (list_elem_of_lookup_1 recs) in Hin as [i Hi].
      destruct (Forall2_lookup_l _ _ _ _ _ Hall Hi) as (y & Hy & Hfy).
      apply list_elem_of_lookup_2 in Hy.
      subst f. cbn in Hfy. rewrite Hdec in Hfy. cbn in Hfy. now injection Hfy as <-.
  - intros Htot Htrans. rewrite Hids. now apply Hsorted.
  - rewrite Hids. exact Hnodup.
  - intros d2 Ht2.
    destruct (get_delta_run shards timestamp self d2 t Hready Ht2 Hne)
      as (self2 & recs2 & Hsel2 & Hrun2 & _).
    rewrite Hrun2. cbn [fst]. fold f. rewrite <- Hitems. f_equal.
    unfold sql_select_delta in Hsel, Hsel2.
    rewrite in_tuple_nonempty in Hsel, Hsel2 by exact Hne.
    unfold on_table in Hsel, Hsel2. rewrite Ht in Hsel.
    rewrite Ht2 in Hsel2. congruence.
  - intros d2 t2 shards2 timestamp2 Ht2 Hbound x Hx Hx2.
    assert (Htable : table self' = table self) by (now injection Hcfg).
    assert (Hdt : dump_dtype self' = dump_dtype self) by (now injection Hcfg).
    rewrite <- Htable in Ht2.
    destruct (decide (shards2 = [])) as [->|Hne2].
    { destruct (get_delta_empty_shards timestamp2 self' d2 Hr') as (self2 & Hrun2 & _).
      rewrite Hrun2 in Hx2. cbn in Hx2. now apply elem_of_nil in Hx2. }
    destruct (get_delta_run shards2 timestamp2 self' d2 t2 Hr' Ht2 Hne2)
      as (self2 & recs2 & Hsel2 & Hrun2 & _).
    destruct (sql_select_delta_rows (table self') shards2 timestamp2 d2 t2 Ht2 Hne2)
      as (recs2' & Hsel2' & Hmem2 & _).
    rewrite Hsel2 in Hsel2'. injection Hsel2' as <-.
    rewrite Hrun2 in Hx2. cbn [fst] in Hx2.
    apply yield_each_elem in Hx2 as ([[k emb] u] & Hrec & Hfx).
    apply Hmem2 in Hrec as (r & _ & _ & Hts & _ & ->).
    rewrite Hdt in Hfx. apply Hf in Hfx as (_ & Hu & _). cbn in Hu.
    specialize (Hbound x Hx). lia.
Qed.


(** ** Construction and the schema-version gate *)

Lemma execute_sql_gracefully_ok {A} (statement : database -> result (A * database))
    (self : handler) (d d' : database) (a : A) :
  ready self = true ->
  statement d = Ok (a, d') ->
  exists self',
    _execute_sql_gracefully statement self d = (Ok (Some a), self', d')
    /\ ready self' = true /\ config self' = config self
    /\ logger self' = logger self.
Proof.
  intros Hready Hst. unfold _execute_sql_gracefully.
  match goal with
  | |- context [get_connection self d ?b] =>
      destruct (get_connection_ready self d b Hready) as (self' & Hrun & Hr' & Hcfg & Hlog)
  end.
  exists self'. rewrite Hrun. clear Hrun. revert Hlog.
  unfold mbind, tx_bind, try_except.
  erewrite execute_ok; [|reflexivity|exact Hst].
  cbn. auto.
Qed.

Lemma table_exists_create_schema_versions (d d' : database) (name : string) :
  sql_create_schema_versions d = Ok (tt, d') ->
  tables d' = tables d
  /\ stored_version d' name = stored_version d name
  /\ (table_exists d name = true -> table_exists d' name = true)
  /\ (is_Some (schema_versions d) -> d' = d)
  /\ is_Some (schema_versions d').
Proof.
  unfold sql_create_schema_versions. intros [= <-].
  unfold stored_version, table_exists.
  destruct (schema_versions d) as [reg|] eqn:Hreg; cbn.
  - rewrite Hreg. repeat split; eauto.
  - repeat split; eauto.
    + intros H. apply orb_true_iff in H as [H|H].
      * rewrite H. reflexivity.
      * apply andb_true_iff in H as [_ H]. discriminate.
    + intros [? ?]. discriminate.
Qed.

(** The run of the constructor when the managed table exists. *)
Lemma init_existing_table_run (table_name : string) (max_connections : nat)
    (dt : dtype) (parts : Z) (mute : bool) (d : database) :
  table_exists d table_name = true ->
  exists d1 self3,
    tables d1 = tables d
    /\ (is_Some (schema_versions d) -> d1 = d)
    /\ ready self3 = true
    /\ config self3 = (table_name, dt, parts, "snapshot"%string, mute)
    /\ __init__ table_name max_connections dt false parts mute d
       = match stored_version d table_name with
         | None => (Raise (RuntimeError no_version_message), d1)
         | Some v =>
             if v =? SCHEMA_VERSION then
               (Ok (set_logger self3
                      (logger self3 ++ [{| lvl := INFO; text := "Using existing table" |}])),
                d1)
             else (Raise (RuntimeError (mismatch_message v)), d1)
         end.
Proof.
  intros Hex. unfold __init__. cbn [negb].
  set (self0 := set_pool _ _).
  assert (Hready0 : ready self0 = true) by reflexivity.
  assert (Hcfg0 : config self0 = (table_name, dt, parts, "snapshot"%string, mute))
    by reflexivity.
  unfold _init_table, mbind at 1, meth_bind at 1.
  (* the registry is created when it is missing *)
  unfold _create_schema_version, mbind at 1, meth_bind at 1.
  destruct (sql_create_schema_versions d) as [[[] d1]|] eqn:Hcreate;
    [|discriminate].
  destruct (execute_sql_gracefully_ok _ self0 d d1 tt Hready0 Hcreate)
    as (self1 & -> & Hready1 & Hcfg1 & Hlog1).
  destruct (table_exists_create_schema_versions d d1 table_name Hcreate)
    as (Htabs & Hstored & Hmono & Hsame & Hreg1).
  cbn [mret meth_ret].
  (* the managed table is found *)
  assert (Htable1 : table self1 = table_name)
    by (rewrite Hcfg0 in Hcfg1; now injection Hcfg1).
  unfold mbind at 1, meth_bind at 1, _table_exists, mbind at 1, meth_bind at 1.
  destruct (execute_sql_gracefully_ok (sql_table_exists (table self1)) self1 d1 d1
              (table_exists d1 (table self1)) Hready1 eq_refl)
    as (self2 & -> & Hready2 & Hcfg2 & Hlog2).
  cbn [mret meth_ret]. rewrite Htable1, (Hmono Hex).
  (* the version is compared *)
  assert (Htable2 : table self2 = table_name)
    by (rewrite Hcfg1, Hcfg0 in Hcfg2; now injection Hcfg2).
  unfold mbind at 1, meth_bind at 1, _assert_table_schema_version.
  match goal with
  | |- context [get_connection self2 d1 ?b] =>
      destruct (get_connection_ready self2 d1 b Hready2)
        as (self3 & Hrun & Hready3 & Hcfg3 & Hlog3)
  end.
  rewrite Hrun. clear Hrun.
  assert (Hsel : sql_select_version (table self2) d1
                 = Ok (stored_version d table_name, d1)).
  { unfold sql_select_version. rewrite <- Hstored, Htable2. unfold stored_version.
    destruct Hreg1 as [reg ->]. reflexivity. }
  exists d1, self3. split; [exact Htabs|]. split; [exact Hsame|].
  split; [exact Hready3|]. split; [congruence|].
  unfold mbind, tx_bind. erewrite execute_ok; [|reflexivity|exact Hsel].
  destruct (stored_version d table_name) as [v|]; [|reflexivity].
  destruct (v =? SCHEMA_VERSION); reflexivity.
Qed.

(** *** The name under which the catalog lists a relation *)

Lemma downcase_idem (c : ascii) : downcase (downcase c) = downcase c.
Proof. destruct c as [[] [] [] [] [] [] [] []]; reflexivity. Qed.

Lemma downcase_identifier_idem (s : string) :
  downcase_identifier (downcase_identifier s) = downcase_identifier s.
Proof.
  induction s as [|c s IH]; [reflexivity|].
  cbn. now rewrite downcase_idem, IH.
Qed.

Lemma downcase_identifier_substring (n m : nat) (s : string) :
  downcase_identifier (String.substring n m s)
  = String.substring n m (downcase_identifier s).
Proof.
  revert n m. induction s as [|c s IH]; intros [|n] [|m]; cbn; try reflexivity.
  - now rewrite IH.
  - apply IH.
  - apply IH.
Qed.

Lemma substring_length_le (m : nat) (s : string) :
  (String.length (String.substring 0 m s) <= m)%nat.
Proof.
  revert s. induction m as [|m IH]; intros [|c s]; cbn; try lia.
  specialize (IH s). lia.
Qed.

Lemma pg_mbcliplen_le (fuel : nat) :
  forall s limit, (pg_mbcliplen fuel s limit <= limit)%nat.
Proof.
  induction fuel as [|fuel IH]; intros s limit; cbn [pg_mbcliplen]; [lia|].
  destruct s as [|c s]; [lia|]. cbn zeta.
  destruct (Nat.ltb_spec limit (pg_utf_mblen c)) as [Hlt|Hge]; [lia|].
  match goal with
  | |- context [pg_mbcliplen fuel ?u ?l] => specialize (IH u l)
  end.
  lia.
Qed.

Lemma truncate_identifier_short (s : string) :
  (String.length (truncate_identifier s) < NAMEDATALEN)%nat.
Proof.
  unfold truncate_identifier.
  destruct (Nat.ltb_spec (String.length s) NAMEDATALEN) as [Hlt|Hge]; [exact Hlt|].
  pose proof (substring_length_le
                (pg_mbcliplen (String.length s) s (NAMEDATALEN - 1)) s) as H1.
  pose proof (pg_mbcliplen_le (String.length s) s (NAMEDATALEN - 1)) as H2.
  unfold NAMEDATALEN in *. lia.
Qed.

(** A name of the catalog is its own catalog name. *)
Lemma catalog_name_idem (s : string) : catalog_name (catalog_name s) = catalog_name s.
Proof.
  unfold catalog_name.
  assert (Hdown : downcase_identifier (truncate_identifier (downcase_identifier s))
                  = truncate_identifier (downcase_identifier s)).
  { unfold truncate_identifier.
    destruct (String.length (downcase_identifier s) <? NAMEDATALEN)%nat.
    - apply downcase_identifier_idem.
    - now rewrite downcase_identifier_substring, downcase_identifier_idem. }
  rewrite Hdown. unfold truncate_identifier at 1.
  now rewrite (proj2 (Nat.ltb_lt _ _) (truncate_identifier_short _)).
Qed.

(** [information_schema] lists catalog names only. *)
Lemma table_exists_catalog_name (d : database) (name : string) :
  table_exists d name = true -> catalog_name name = name.
Proof.
  unfold table_exists. intros H. apply orb_true_iff in H as [H|H].
  - apply existsb_exists in H as ([k t] & _ & Hk). cbn [fst] in Hk.
    apply String.eqb_eq in Hk. subst name. apply catalog_name_idem.
  - apply andb_true_iff in H as [H _]. apply String.eqb_eq in H. subst name.
    reflexivity.
Qed.

Lemma table_exists_listed (d : database) (name : string) :
  is_Some (tables d !! name) -> catalog_name name = name ->
  table_exists d name = true.
Proof.
  intros [t Ht] Hname. unfold table_exists. apply orb_true_iff. left.
  apply existsb_exists. exists (name, t). split.
  - apply list_elem_of_In. now apply elem_of_map_to_list.
  - cbn [fst]. rewrite Hname. apply String.eqb_refl.
Qed.


(** The run of the constructor when [information_schema] does not list the
    name of the managed table: the table is created unless the identifier
    denotes a relation already, and a row is added to the registry, whatever
    the registry holds. *)
Lemma init_not_listed_run (table_name : string) (max_connections : nat) (dt : dtype)
    (parts : Z) (mute : bool) (d : database) :
  table_name <> SCHEMA_VERSIONS_TABLE_NAME ->
  table_exists d table_name = false ->
  exists self,
    __init__ table_name max_connections dt false parts mute d
    = (Ok self,
       {| tables := if bool_decide (is_Some (tables d !! table_name))
                       || String.eqb (catalog_name table_name) SCHEMA_VERSIONS_TABLE_NAME
                    then tables d
                    else <[table_name := ∅]> (tables d);
          schema_versions :=
            Some (default [] (schema_versions d) ++ [(table_name, SCHEMA_VERSION)]) |})
    /\ ready self = true
    /\ config self = (table_name, dt, parts, "snapshot"%string, mute)
    /\ logger self = [].
Proof.
  intros Hname Hex. unfold __init__. cbn [negb].
  set (self0 := set_pool _ _).
  assert (Hready0 : ready self0 = true) by reflexivity.
  assert (Hcfg0 : config self0 = (table_name, dt, parts, "snapshot"%string, mute))
    by reflexivity.
  assert (Hlog0 : logger self0 = []) by reflexivity.
  unfold _init_table, mbind at 1, meth_bind at 1.
  unfold _create_schema_version, mbind at 1, meth_bind at 1.
  destruct (sql_create_schema_versions d) as [[[] d1]|] eqn:Hcreate;
    [|discriminate].
  destruct (execute_sql_gracefully_ok _ self0 d d1 tt Hready0 Hcreate)
    as (self1 & -> & Hready1 & Hcfg1 & Hlog1).
  cbn [mret meth_ret].
  assert (Htable1 : table self1 = table_name)
    by (rewrite Hcfg0 in Hcfg1; now injection Hcfg1).
  assert (Hd1 : tables d1 = tables d
                /\ schema_versions d1 = Some (default [] (schema_versions d))).
  { unfold sql_create_schema_versions in Hcreate. injection Hcreate as <-.
    destruct (schema_versions d) as [reg|] eqn:Hreg; cbn; [rewrite Hreg|]; auto. }
  destruct Hd1 as [Htabs1 Hreg1].
  assert (Hex1 : table_exists d1 table_name = false).
  { unfold table_exists in Hex |- *. rewrite Htabs1.
    apply orb_false_iff in Hex as [Hex _]. rewrite Hex. cbn [orb].
    apply andb_false_iff. left. now apply String.eqb_neq. }
  unfold mbind at 1, meth_bind at 1, _table_exists, mbind at 1, meth_bind at 1.
  destruct (execute_sql_gracefully_ok (sql_table_exists (table self1)) self1 d1 d1
              (table_exists d1 (table self1)) Hready1 eq_refl)
    as (self2 & -> & Hready2 & Hcfg2 & Hlog2).
  cbn [mret meth_ret]. rewrite Htable1, Hex1.
  assert (Htable2 : table self2 = table_name)
    by (rewrite Hcfg1, Hcfg0 in Hcfg2; now injection Hcfg2).
  unfold _create_table, mbind at 1, meth_bind at 1.
  assert (Hsql : sql_create_table (table self2) SCHEMA_VERSION d1
                 = Ok (tt, {| tables :=
                                if bool_decide (is_Some (tables d !! table_name))
                                   || String.eqb (catalog_name table_name)
                                        SCHEMA_VERSIONS_TABLE_NAME
                                then tables d
                                else <[table_name := ∅]> (tables d);
                              schema_versions :=
                                Some (default [] (schema_versions d)
                                      ++ [(table_name, SCHEMA_VERSION)]) |})).
  { assert (Hb : bool_decide (is_Some (schema_versions d1)) = true)
      by (apply bool_decide_eq_true_2; rewrite Hreg1; eauto).
    unfold sql_create_table, relation_exists.
    rewrite Hb, Hreg1, Htable2, Htabs1. now rewrite andb_true_r. }
  destruct (execute_sql_gracefully_ok _ self2 d1 _ tt Hready2 Hsql)
    as (self3 & -> & Hready3 & Hcfg3 & Hlog3).
  cbn [mret meth_ret]. exists self3. split; [reflexivity|].
  split; [exact Hready3|]. split; congruence.
Qed.

(** C5 (what the code does).  Initialisation on a database where the
    managed table already exists.  When the name of the table is spelled as
    the catalog lists it (no capital letter, at most 63 bytes), the
    existence check finds the table: if the registry has no row for it the
    constructor raises a [RuntimeError] and leaves the tables as they are;
    if the registry records a version other than [SCHEMA_VERSION] it raises
    a [RuntimeError] whose message contains the decimal writing of the
    recorded version and of [SCHEMA_VERSION], and leaves the database as it
    is; in both cases no handler is returned.  When the name is not spelled
    so, the existence check compares it with the catalog's spelling and
    never finds the table: the constructor compares no version, returns a
    handler whatever the registry holds, and adds one more row to the
    registry. *)
Theorem init_existing_table_checks_version (table_name : string)
    (max_connections : nat) (dt : dtype) (parts : Z) (mute : bool) (d : database) :
  is_Some (tables d !! table_name) ->
  (catalog_name table_name = table_name ->
   match stored_version d table_name with
   | None =>
       exists d',
         __init__ table_name max_connections dt false parts mute d
         = (Raise (RuntimeError no_version_message), d')
         /\ tables d' = tables d
   | Some v =>
       if v =? SCHEMA_VERSION then
         exists self,
           __init__ table_name max_connections dt false parts mute d = (Ok self, d)
           /\ ready self = true
           /\ config self = (table_name, dt, parts, "snapshot"%string, mute)
       else
         __init__ table_name max_connections dt false parts mute d
         = (Raise (RuntimeError (mismatch_message v)), d)
         /\ exists pre mid post,
              mismatch_message v
              = pre +:+ pretty v +:+ mid +:+ pretty SCHEMA_VERSION +:+ post
   end)
  /\ (catalog_name table_name <> table_name ->
      exists self d',
        __init__ table_name max_connections dt false parts mute d = (Ok self, d')
        /\ tables d' = tables d
        /\ schema_versions d'
           = Some (default [] (schema_versions d) ++ [(table_name, SCHEMA_VERSION)])
        /\ ready self = true
        /\ logger self = []).
Proof.
  intros Hsome. split.
  - intros Hspelled.
    pose proof (table_exists_listed d table_name Hsome Hspelled) as Hex.
    destruct (init_existing_table_run table_name max_connections dt parts mute d Hex)
      as (d1 & self3 & Htabs & Hsame & Hready3 & Hcfg3 & ->).
    destruct (stored_version d table_name) as [v|] eqn:Hv.
    + assert (Hd1 : d1 = d).
      { apply Hsame. unfold stored_version in Hv.
        destruct (schema_versions d); [eauto|discriminate]. }
      subst d1.
      destruct (v =? SCHEMA_VERSION).
      * eexists. split; [reflexivity|]. split; [exact Hready3|exact Hcfg3].
      * split; [reflexivity|]. unfold mismatch_message. eexists _, _, _. reflexivity.
    + exists d1. split; [reflexivity|exact Htabs].
  - intros Hnot.
    assert (Hex : table_exists d table_name = false).
    { destruct (table_exists d table_name) eqn:Hex; [|reflexivity].
      now apply table_exists_catalog_name in Hex. }
    assert (Hname : table_name <> SCHEMA_VERSIONS_TABLE_NAME).
    { intros ->. now apply Hnot. }
    destruct (init_not_listed_run table_name max_connections dt parts mute d Hname Hex)
      as (self & Hrun & Hready & _ & Hlog).
    rewrite bool_decide_eq_true_2 in Hrun by exact Hsome. cbn [orb] in Hrun.
    eexists self, _. split; [exact Hrun|]. auto.
Qed.


(** ** Failures of the snapshot and delta reads *)

(** C6 (as the code has it).  When the pool hands out a connection, a
    snapshot read never raises and leaves the database as it is: when the
    list of shards is empty or the snapshot table does not exist, the query
    fails, the read yields nothing and logs one error; when a row cannot be
    decoded it stops after the rows already yielded and logs one error.  The
    snapshot size never raises either: it is zero, with one warning logged,
    when the snapshot table does not exist.  A delta read has no such guard:
    when the list of shards is empty the syntax error, and when its table
    does not exist the [UndefinedTable] error, reaches the caller, and when
    a row cannot be decoded the sequence stops on that exception; nothing is
    logged.  When the pool hands out no connection, each of the three
    raises [UnboundLocalError], logs nothing and changes nothing. *)
Theorem snapshot_failures_logged_delta_failures_raised (shards : list Z)
    (timestamp : Z) (self : handler) (d : database) :
  (forall c p1,
     _get_connection self = Ok (c, p1) ->
     (exists self' items,
        get_snapshot id_le shards self d
        = ({| yielded := items; stop := None |}, self', d)
        /\ match shards with
           | [] =>
               items = []
               /\ logger self'
                  = logger self ++ [{| lvl := ERROR; text := "Error importing snapshot" |}]
           | _ :: _ =>
               match tables d !! snapshot_table self with
               | None =>
                   items = []
                   /\ logger self'
                      = logger self ++
                        [{| lvl := ERROR; text := "Error importing snapshot" |}]
               | Some _ =>
                   exists recs,
                     sql_select_snapshot id_le (snapshot_table self) shards d
                     = Ok (recs, d)
                     /\ let r := yield_each
                                   (fun rec : pystr * option bytes =>
                                      vec ← decode_embedding (dump_dtype self) (snd rec);
                                      Ok (fst rec, vec))
                                   recs in
                        items = yielded r
                        /\ logger self'
                           = logger self ++
                             match stop r with
                             | None => []
                             | Some _ =>
                                 [{| lvl := ERROR; text := "Error importing snapshot" |}]
                             end
               end
           end)
     /\ (exists self' n,
           get_snapshot_size self d = (Ok n, self', d)
           /\ match tables d !! snapshot_table self with
              | None =>
                  n = 0
                  /\ logger self'
                     = logger self ++
                       [{| lvl := WARNING; text := "Could not get size of snapshot" |}]
              | Some s => n = Z.of_nat (size s) /\ logger self' = logger self
              end)
     /\ match shards with
        | [] =>
            exists self',
              _get_delta id_le shards timestamp self d
              = ({| yielded := []; stop := Some SyntaxError |}, self', d)
              /\ logger self' = logger self
        | _ :: _ =>
            match tables d !! table self with
            | None =>
                exists self',
                  _get_delta id_le shards timestamp self d
                  = ({| yielded := []; stop := Some UndefinedTable |}, self', d)
                  /\ logger self' = logger self
            | Some _ =>
                exists self' recs,
                  sql_select_delta id_le (table self) shards timestamp d = Ok (recs, d)
                  /\ _get_delta id_le shards timestamp self d
                     = (yield_each
                          (fun rec : pystr * option bytes * Z =>
                             second_val ← decode_embedding (dump_dtype self)
                                            (snd (fst rec));
                             Ok (fst (fst rec), second_val, snd rec))
                          recs, self', d)
                  /\ logger self' = logger self
            end
        end)
  /\ (forall e,
        _get_connection self = Raise e ->
        get_snapshot id_le shards self d
        = ({| yielded := []; stop := Some UnboundLocalError |}, self, d)
        /\ get_snapshot_size self d = (Raise UnboundLocalError, self, d)
        /\ _get_delta id_le shards timestamp self d
           = ({| yielded := []; stop := Some UnboundLocalError |}, self, d)).
Proof.
  split.
  2:{ intros e He. unfold get_snapshot, get_snapshot_size, _get_delta, get_connection.
      rewrite He. auto. }
  intros c p1 Hget. split; [|split].
  - (* get_snapshot *)
    unfold get_snapshot.
    match goal with
    | |- context [get_connection self d ?b] =>
        destruct (get_connection_obtained self d b c p1 Hget) as (self' & Hrun & _ & Hlog)
    end.
    rewrite Hrun. clear Hrun. revert Hlog.
    destruct shards as [|z zs].
    { erewrite execute_raise; [|reflexivity|reflexivity].
      unfold after, mbind, tx_bind, log, rollback, commit.
      cbn. intros Hlog. exists self', []. auto. }
    destruct (tables d !! snapshot_table self) as [s|] eqn:Hs.
    + assert (Hsel : exists recs,
                sql_select_snapshot id_le (snapshot_table self) (z :: zs) d
                = Ok (recs, d)).
      { unfold sql_select_snapshot, in_tuple, on_table. rewrite Hs.
        rewrite (database_insert_id d _ s Hs). eauto. }
      destruct Hsel as [recs Hsel].
      erewrite execute_ok; [|reflexivity|exact Hsel].
      unfold after, mbind, tx_bind, log, rollback, commit.
      destruct (yield_each _ recs) as [items [e|]] eqn:Hy; cbn; intros Hlog;
        exists self', items; (split; [reflexivity|]); exists recs;
        (split; [exact Hsel|]); rewrite Hy; cbn; rewrite ?app_nil_r; auto.
    + erewrite execute_raise; [|reflexivity|].
      2:{ unfold sql_select_snapshot, in_tuple, on_table. cbn. rewrite Hs. reflexivity. }
      unfold after, mbind, tx_bind, log, rollback, commit.
      cbn. intros Hlog. exists self', []. auto.
  - (* get_snapshot_size *)
    unfold get_snapshot_size.
    match goal with
    | |- context [get_connection self d ?b] =>
        destruct (get_connection_obtained self d b c p1 Hget) as (self' & Hrun & _ & Hlog)
    end.
    rewrite Hrun. clear Hrun. revert Hlog. unfold try_except.
    destruct (tables d !! snapshot_table self) as [s|] eqn:Hs.
    + erewrite execute_ok; [|reflexivity|].
      2:{ unfold sql_count, on_table. cbn. rewrite Hs. reflexivity. }
      cbn. rewrite (database_insert_id d _ s Hs). intros Hlog.
      exists self', (Z.of_nat (size s)). auto.
    + erewrite execute_raise; [|reflexivity|].
      2:{ unfold sql_count, on_table. cbn. rewrite Hs. reflexivity. }
      cbn. intros Hlog. exists self', 0. auto.
  - (* _get_delta *)
    unfold _get_delta.
    match goal with
    | |- context [get_connection self d ?b] =>
        destruct (get_connection_obtained self d b c p1 Hget) as (self' & Hrun & _ & Hlog)
    end.
    rewrite Hrun. clear Hrun. revert Hlog.
    destruct shards as [|z zs].
    { erewrite execute_raise; [|reflexivity|reflexivity].
      cbn. intros Hlog. exists self'. auto. }
    destruct (tables d !! table self) as [t|] eqn:Ht.
    + assert (Hsel : exists recs,
                sql_select_delta id_le (table self) (z :: zs) timestamp d
                = Ok (recs, d)).
      { unfold sql_select_delta, in_tuple, on_table. rewrite Ht.
        rewrite (database_insert_id d _ t Ht). eauto. }
      destruct Hsel as [recs Hsel].
      erewrite execute_ok; [|reflexivity|exact Hsel].
      cbn. intros Hlog. exists self', recs. split; [exact Hsel|]. split; [|exact Hlog].
      f_equal. unfold conn_exit, commit_session, rollback_session.
      destruct (raised _); reflexivity.
    + erewrite execute_raise; [|reflexivity|].
      2:{ unfold sql_select_delta, in_tuple, on_table. cbn. rewrite Ht. reflexivity. }
      cbn. intros Hlog. exists self'. auto.
Qed.


(** ** The partition count at construction *)

Lemma get_connection_blind {R} `{Outcome R} (n : Z) (self : handler) (d : database)
    (body : txstate -> R * txstate) :
  get_connection (set_partitions n self) d body
  = (fst (fst (get_connection self d body)),
     set_partitions n (snd (fst (get_connection self d body))),
     snd (get_connection self d body)).
Proof.
  unfold get_connection, _get_connection. cbn [postgreSQL_pool set_partitions logger].
  destruct (postgreSQL_pool self) as [p|]; [|reflexivity].
  destruct (getconn p) as [[c p1]|e]; [|reflexivity].
  destruct (body _) as [r st].
  destruct (_close_connection p1 c); reflexivity.
Qed.

Lemma blind_bind {A B} (m : meth A) (k : A -> meth B) :
  partition_blind m -> (forall a, partition_blind (k a)) ->
  partition_blind (m ≫= k).
Proof.
  intros Hm Hk n self d. unfold mbind, meth_bind. rewrite Hm.
  destruct (m self d) as [[[a|e] self'] d']; cbn [fst snd]; [|reflexivity].
  apply Hk.
Qed.

Lemma blind_ret {A} (a : A) : partition_blind (mret a : meth A).
Proof. intros n self d. reflexivity. Qed.

Lemma blind_raise {A} (e : exc) : partition_blind (meth_raise e : meth A).
Proof. intros n self d. reflexivity. Qed.

Lemma blind_logger_info (s : string) : partition_blind (logger_info s).
Proof. intros n self d. reflexivity. Qed.

Lemma blind_execute_sql_gracefully {A} (statement : database -> result (A * database)) :
  partition_blind (_execute_sql_gracefully statement).
Proof. intros n self d. unfold _execute_sql_gracefully. apply get_connection_blind. Qed.

Lemma blind_init_table : partition_blind _init_table.
Proof.
  unfold _init_table. apply blind_bind.
  { unfold _create_schema_version. apply blind_bind;
      [apply blind_execute_sql_gracefully | intros; apply blind_ret]. }
  intros _. apply blind_bind.
  { intros n self d. unfold _table_exists. cbn [table set_partitions].
    apply (blind_bind (_execute_sql_gracefully (sql_table_exists (table self)))).
    - apply blind_execute_sql_gracefully.
    - intros [b|]; [apply blind_ret | apply blind_raise]. }
  intros [|].
  - apply blind_bind; [|intros; apply blind_logger_info].
    intros n self d. unfold _assert_table_schema_version. cbn [table set_partitions].
    apply get_connection_blind.
  - intros n self d. unfold _create_table. cbn [table set_partitions].
    apply (blind_bind (_execute_sql_gracefully (sql_create_table (table self) SCHEMA_VERSION))).
    + apply blind_execute_sql_gracefully.
    + intros; apply blind_ret.
Qed.

(** C7 (as the code has it).  The constructor does not look at
    [partitions]: with any other value it raises the same exception or
    returns the same handler, that value stored in place of the first, and
    leaves the same database; the handler it returns holds the value it was
    given.  The shard computation then raises [ZeroDivisionError] when the
    count is zero, returns a shard in (N, 0] when N is negative, and a shard
    in [0, N) when N is positive. *)
Theorem init_stores_partitions_unchecked (table_name : string)
    (max_connections : nat) (dt : dtype) (dry_run mute : bool) (d : database)
    (n : Z) :
  (forall m,
     __init__ table_name max_connections dt dry_run m mute d
     = (match fst (__init__ table_name max_connections dt dry_run n mute d) with
        | Ok self => Ok (set_partitions m self)
        | Raise e => Raise e
        end,
        snd (__init__ table_name max_connections dt dry_run n mute d)))
  /\ (forall self d',
        __init__ table_name max_connections dt dry_run n mute d = (Ok self, d') ->
        partitions self = n)
  /\ (forall (self : handler) (doc_id : pystr) (msg : bytes),
        Utf8.encode doc_id = Ok msg ->
        (partitions self = 0 ->
         _get_next_shard self doc_id = Raise ZeroDivisionError)
        /\ (partitions self < 0 ->
            exists s, _get_next_shard self doc_id = Ok s /\ partitions self < s <= 0)
        /\ (0 < partitions self ->
            exists s, _get_next_shard self doc_id = Ok s /\ 0 <= s < partitions self)).
Proof.
  assert (Hany : forall m,
     __init__ table_name max_connections dt dry_run m mute d
     = (match fst (__init__ table_name max_connections dt dry_run n mute d) with
        | Ok self => Ok (set_partitions m self)
        | Raise e => Raise e
        end,
        snd (__init__ table_name max_connections dt dry_run n mute d))).
  { intros m. unfold __init__. destruct dry_run; cbn [negb]; [reflexivity|].
    set (self_n := set_pool
                     {| table := table_name; dump_dtype := dt; partitions := n;
                        snapshot_table := "snapshot";
                        mute_unique_warnings := mute;
                        postgreSQL_pool := None; logger := [] |}
                     (Some (SimpleConnectionPool 1 max_connections))).
    change (set_pool
              {| table := table_name; dump_dtype := dt; partitions := m;
                 snapshot_table := "snapshot";
                 mute_unique_warnings := mute;
                 postgreSQL_pool := None; logger := [] |}
              (Some (SimpleConnectionPool 1 max_connections)))
      with (set_partitions m self_n).
    rewrite (blind_init_table m self_n d).
    destruct (_init_table self_n d) as [[[u|e] self'] d']; reflexivity. }
  split; [exact Hany|]. split.
  - intros self d' Hinit. pose proof (Hany n) as Hn. rewrite Hinit in Hn.
    cbn in Hn. injection Hn as Hn. rewrite Hn. reflexivity.
  - intros self doc_id msg Henc. unfold _get_next_shard. rewrite Henc.
    cbn [mbind result_bind]. rewrite int16_hexdigest. cbn [mbind result_bind].
    unfold py_mod. split; [|split].
    + intros ->. reflexivity.
    + intros Hneg. destruct (Z.eqb_spec (partitions self) 0); [lia|].
      eexists. split; [reflexivity|]. apply Z.mod_neg_bound. exact Hneg.
    + intros Hpos. destruct (Z.eqb_spec (partitions self) 0); [lia|].
      eexists. split; [reflexivity|]. apply Z.mod_pos_bound. exact Hpos.
Qed.

End Properties.

(** * The model at work

    The states used below are reached by the handler itself. *)

Example demo_init :
  snd (__init__ "default_table" 10 float64 false 4 false Demo.empty_db) = Demo.db0.
Proof. vm_compute. reflexivity. Qed.

Example demo_add_abc :
  snd (add Demo.cast Demo.to_bytes [Demo.doc_a; Demo.doc_b; Demo.doc_c] 100
         Demo.h0 Demo.db0) = Demo.db1.
Proof. vm_compute. reflexivity. Qed.

Example demo_add_float32 :
  snd (add Demo.cast Demo.to_bytes [Demo.doc_a32] 100 Demo.h32 Demo.db0) = Demo.db32.
Proof. vm_compute. reflexivity. Qed.

(** The float64 store starts on the table written by the float32 store:
    the table exists and its recorded schema version is the current one. *)
Example demo_init_on_float32_table :
  exists self,
    __init__ "default_table" 10 float64 false 4 false Demo.db32 = (Ok self, Demo.db32)
    /\ config self = config Demo.h0.
Proof. eexists. split; vm_compute; reflexivity. Qed.

Example sha256_empty :
  Sha256.hexdigest []
  = "e3b0c44298fc1c149afbf4c8996fb92427ae41e4649b934ca495991b7852b855"%string.
Proof. vm_compute. reflexivity. Qed.

Example sha256_abc :
  Sha256.hexdigest [97; 98; 99]
  = "ba7816bf8f01cfea414140de5dae2223b00361a396177a9cb410ff61f20015ad"%string.
Proof. vm_compute. reflexivity. Qed.

(** A message longer than one block. *)
Example sha256_two_blocks :
  Sha256.hexdigest
    (map (fun n => Z.of_N n)
       (str "abcdbcdecdefdefgefghfghighijhijkijkljklmklmnlmnomnopnopq"))
  = "248d6a61d20638b8e5c026930c3e6039a33ce45964ff2167f6ecedd419db06c1"%string.
Proof. vm_compute. reflexivity. Qed.

Example utf8_examples :
  Utf8.encode [0x41%N; 0xE9%N; 0x20AC%N; 0x1F600%N]
  = Ok [0x41; 0xC3; 0xA9; 0xE2; 0x82; 0xAC; 0xF0; 0x9F; 0x98; 0x80]
  /\ Utf8.encode [0xD800%N] = Raise UnicodeEncodeError.
Proof. split; reflexivity. Qed.

(** The scenario of the specification: with four partitions the rows of
    ["a"], ["b"], ["c"] carry the shards 3, 1 and 2, and after a snapshot
    the read of the shards 0 and 1 yields ["b"] alone. *)
Example demo_snapshot_shards_0_1 :
  fst (fst (get_snapshot Demo.str_le [0; 1]
              (snd (fst (snapshot Demo.h0 Demo.db1)))
              (snd (snapshot Demo.h0 Demo.db1))))
  = {| yielded := [(str "b", Some Demo.vec1)]; stop := None |}.
Proof. vm_compute. reflexivity. Qed.

(** After [close()] the pool refuses to hand out a connection: the
    [finally] clause of [get_connection] then raises on the unbound [conn],
    and the pool has recorded no event. *)
Example demo_add_after_close :
  exists self',
    close Demo.h0 Demo.db1 = (Ok tt, self', Demo.db1)
    /\ add Demo.cast Demo.to_bytes [Demo.doc "d" None []] 200 self' Demo.db1
       = (Raise UnboundLocalError, self', Demo.db1)
    /\ (events <$> postgreSQL_pool self') = Some [].
Proof. eexists. repeat split; vm_compute; reflexivity. Qed.

(** A dry-run handler has no pool. *)
Example demo_dry_run :
  exists self,
    __init__ "default_table" 10 float64 true 4 false Demo.empty_db
    = (Ok self, Demo.empty_db)
    /\ initialized self = false
    /\ fst (fst (get_size self Demo.empty_db)) = Raise UnboundLocalError.
Proof. eexists. repeat split; vm_compute; reflexivity. Qed.

(** ** The collation of the examples is a total order *)

Lemma str_leb_total a b : Demo.str_leb a b = true \/ Demo.str_leb b a = true.
Proof.
  revert b. induction a as [|x a IH]; intros [|y b]; cbn; auto.
  destruct (N.ltb_spec x y), (N.ltb_spec y x); auto; try lia.
  assert (x = y) by lia. subst. rewrite N.eqb_refl. apply IH.
Qed.

Lemma str_leb_trans a b c :
  Demo.str_leb a b = true -> Demo.str_leb b c = true -> Demo.str_leb a c = true.
Proof.
  revert b c. induction a as [|x a IH]; intros [|y b] [|z c]; cbn; auto;
    try discriminate.
  destruct (N.ltb_spec x y), (N.ltb_spec y z), (N.ltb_spec x z); auto; try lia;
    destruct (N.eqb_spec x y), (N.eqb_spec y z), (N.eqb_spec x z);
    try discriminate; try lia; eauto.
Qed.

Lemma str_le_total : Total Demo.str_le.
Proof. intros a b. apply str_leb_total. Qed.

Lemma str_le_trans : Transitive Demo.str_le.
Proof. intros a b c. apply str_leb_trans. Qed.

(** ** The theorems at concrete inputs *)

(** C2 at work: a batch of a new document and of ["a"], which is stored. *)
Lemma add_conflict_rolls_back_batch_witness :
  snd (add Demo.cast Demo.to_bytes [Demo.doc "d" None [13]; Demo.doc_a] 200
         Demo.h0 Demo.db1) = Demo.db1
  /\ exists self',
       add Demo.cast Demo.to_bytes [Demo.doc "d" None [13]; Demo.doc_a] 200
         Demo.h0 Demo.db1 = (Ok tt, self', Demo.db1)
       /\ length (logger self') = 1%nat.
Proof.
  destruct (add_conflict_rolls_back_batch Demo.cast Demo.to_bytes
              [Demo.doc "d" None [13]; Demo.doc_a] 200 Demo.h0 Demo.db1 Demo.t1
              Demo.doc_a) as [Hdb Hrun].
  - vm_compute. reflexivity.
  - apply list_elem_of_further, list_elem_of_here.
  - vm_compute. eexists. reflexivity.
  - split; [exact Hdb|].
    destruct Hrun as (self' & Hrun & Hlog & _).
    + reflexivity.
    + simpl. lia.
    + repeat constructor; eexists; reflexivity.
    + exists self'. split; [exact Hrun|]. rewrite Hlog. reflexivity.
Defined.

(** C3 at work: the soft deletion of ["a"]. *)
Lemma soft_delete_keeps_row_and_hides_document_witness :
  exists self1 d1,
    delete_ [Demo.doc_a] true 200 Demo.h0 Demo.db1 = (Ok tt, self1, d1)
    /\ (exists self2, get_size self1 d1 = (Ok 3, self2, d1))
    /\ (exists self2,
          search Demo.from_bytes [Demo.doc_a] true self1 d1
          = ({| yielded := []; stop := Some TypeError |}, self2, d1)).
Proof.
  destruct (soft_delete_keeps_row_and_hides_document Demo.from_bytes Demo.doc_a 200
              Demo.h0 Demo.db1 Demo.t1 Demo.row_a)
    as (self1 & d1 & t' & Hdel & _ & _ & _ & _ & Hsize & Hsearch).
  - reflexivity.
  - vm_compute. reflexivity.
  - vm_compute. reflexivity.
  - exists self1, d1. split; [exact Hdel|]. split; [exact Hsize|].
    apply Hsearch. left. reflexivity.
Defined.

Lemma demo_table_well_sized : well_sized float64 Demo.t1.
Proof.
  unfold well_sized. apply map_Forall_to_list.
  vm_compute. repeat constructor.
Defined.

(** C4 at work: the rows of the shards 1, 2 and 3 written after time 0,
    and the read for no shard. *)
Lemma get_delta_streams_rows_after_boundary_witness :
  (exists self',
     _get_delta Demo.str_le [1; 2; 3] 0 Demo.h0 Demo.db1
     = ({| yielded := [(str "a", None, 100); (str "b", Some Demo.vec1, 100);
                       (str "c", None, 100)];
           stop := None |}, self', Demo.db1))
  /\ (exists self',
        _get_delta Demo.str_le [] 0 Demo.h0 Demo.db1
        = ({| yielded := []; stop := Some SyntaxError |}, self', Demo.db1)).
Proof.
  split.
  - destruct (get_delta_streams_rows_after_boundary Demo.str_le [1; 2; 3] 0
                Demo.h0 Demo.db1 Demo.t1) as [_ Hrows].
    + reflexivity.
    + vm_compute. reflexivity.
    + exact demo_table_well_sized.
    + destruct (Hrows ltac:(discriminate)) as (self' & items & Hrun & _).
      exists self'. rewrite Hrun.
      assert (Hitems : fst (fst (_get_delta Demo.str_le [1; 2; 3] 0 Demo.h0 Demo.db1))
                       = {| yielded := [(str "a", None, 100);
                                        (str "b", Some Demo.vec1, 100);
                                        (str "c", None, 100)];
                            stop := None |}) by (vm_compute; reflexivity).
      rewrite Hrun in Hitems. cbn [fst] in Hitems. rewrite Hitems. reflexivity.
  - destruct (get_delta_streams_rows_after_boundary Demo.str_le [] 0
                Demo.h0 Demo.db1 Demo.t1) as [Hnone _].
    + reflexivity.
    + vm_compute. reflexivity.
    + exact demo_table_well_sized.
    + exact (Hnone eq_refl).
Defined.

(** C5 at work: a table created under version 1, and a table whose name
    has a capital letter. *)
Lemma init_existing_table_checks_version_witness :
  __init__ "default_table" 10 float64 false 4 false Demo.db_v1
  = (Raise (RuntimeError (mismatch_message 1)), Demo.db_v1)
  /\ exists self d',
       __init__ "Docs" 10 float64 false 4 false Demo.db_Docs = (Ok self, d')
       /\ schema_versions d' = Some [("Docs"%string, 1); ("Docs"%string, 2)].
Proof.
  split.
  - pose proof (proj1 (init_existing_table_checks_version "default_table" 10 float64 4
                         false Demo.db_v1 ltac:(vm_compute; eauto))
                  ltac:(vm_compute; reflexivity)) as H.
    change (stored_version Demo.db_v1 "default_table") with (Some 1) in H.
    cbn [Z.eqb SCHEMA_VERSION Pos.eqb] in H.
    exact (proj1 H).
  - destruct (proj2 (init_existing_table_checks_version "Docs" 10 float64 4
                       false Demo.db_Docs ltac:(vm_compute; eauto))
                ltac:(vm_compute; discriminate))
      as (self & d' & Hrun & _ & Hreg & _).
    exists self, d'. split; [exact Hrun|exact Hreg].
Defined.

(** C8 at work: an update of ["b"] and of an identifier that is not
    stored. *)
Lemma update_overwrites_and_keeps_shard_witness :
  exists t',
    tables (snd (update Demo.cast Demo.to_bytes
                   [Demo.doc "b" (Some Demo.vec1) [77]; Demo.doc "z" (Some Demo.vec1) [1]]
                   200 Demo.h0 Demo.db1)) !! "default_table"%string = Some t'
    /\ dom t' = dom Demo.t1
    /\ (forall r', t' !! str "b" = Some r' -> r_shard r' = 1).
Proof.
  destruct (update_overwrites_and_keeps_shard Demo.cast Demo.to_bytes
              [Demo.doc "b" (Some Demo.vec1) [77]; Demo.doc "z" (Some Demo.vec1) [1]]
              200 Demo.h0 Demo.db1 Demo.t1)
    as (t' & Ht' & _ & _ & Hdom & _ & Hshard & _).
  - vm_compute. reflexivity.
  - exists t'. split; [exact Ht'|]. split; [exact Hdom|].
    intros r' Hr'. apply (Hshard (str "b") Demo.row_b r'); [|exact Hr'].
    vm_compute. reflexivity.
Defined.

(** C10 at work: ["c"] carries no embedding. *)
Lemma update_requires_embedding_add_accepts_none_witness :
  (exists self',
     update Demo.cast Demo.to_bytes [Demo.doc_b; Demo.doc_c] 200 Demo.h0 Demo.db1
     = (Raise AttributeError, self', Demo.db1))
  /\ (exists self' d' t',
        add Demo.cast Demo.to_bytes [Demo.doc_b; Demo.doc_c] 100 Demo.h0 Demo.db0
        = (Ok tt, self', d')
        /\ tables d' !! "default_table"%string = Some t'
        /\ t' !! str "c" = Some Demo.row_c).
Proof.
  split.
  - destruct (update_requires_embedding_add_accepts_none Demo.cast Demo.to_bytes
                [Demo.doc_b; Demo.doc_c] 200 Demo.h0 Demo.db1 Demo.doc_c)
      as [(self' & Hrun & _) _].
    + reflexivity.
    + apply list_elem_of_further, list_elem_of_here.
    + reflexivity.
    + exists self'. exact Hrun.
  - destruct (update_requires_embedding_add_accepts_none Demo.cast Demo.to_bytes
                [Demo.doc_b; Demo.doc_c] 100 Demo.h0 Demo.db0 Demo.doc_c)
      as [_ Hadd].
    + reflexivity.
    + apply list_elem_of_further, list_elem_of_here.
    + reflexivity.
    + destruct (Hadd ∅) as (self' & d' & t' & sh & Hrun & Ht' & Hsh & Hrow).
      * vm_compute. reflexivity.
      * simpl. lia.
      * repeat constructor; eexists; reflexivity.
      * apply (bool_decide_unpack _). vm_compute. exact I.
      * intros x _. apply lookup_empty.
      * exists self', d', t'. split; [exact Hrun|]. split; [exact Ht'|].
        change (str "c") with (id Demo.doc_c).
        rewrite Hrow. assert (Hsh3 : sh = 2).
        { assert (H : _get_next_shard Demo.h0 (id Demo.doc_c) = Ok 2)
            by (vm_compute; reflexivity).
          rewrite H in Hsh. now injection Hsh. }
        rewrite Hsh3. reflexivity.
Defined.

(** C6 at work, and against the claim as it is written.  The float64
    store reads the table written by the float32 store: the snapshot read
    logs the decoding error and ends, the delta read raises it. *)
Lemma snapshot_failures_logged_delta_failures_raised_witness :
  (exists self' n,
     get_snapshot_size Demo.h0 Demo.db32 = (Ok n, self', Demo.db32) /\ n = 0)
  /\ (exists self' items,
        get_snapshot Demo.str_le [3] Demo.h0 Demo.db32
        = ({| yielded := items; stop := None |}, self', Demo.db32)
        /\ items = [])
  /\ get_snapshot Demo.str_le [3] Demo.h_dry Demo.db32
     = ({| yielded := []; stop := Some UnboundLocalError |}, Demo.h_dry, Demo.db32).
Proof.
  destruct (proj1 (snapshot_failures_logged_delta_failures_raised Demo.str_le [3] 0
                     Demo.h0 Demo.db32) 0%nat _ eq_refl)
    as ((self1 & items & Hsnap & Hcase1) & (self2 & n & Hsize & Hcase2) & _).
  change (tables Demo.db32 !! snapshot_table Demo.h0) with (@None table_t) in Hcase1, Hcase2.
  split; [|split].
  - exists self2, n. split; [exact Hsize | exact (proj1 Hcase2)].
  - exists self1, items. split; [exact Hsnap | exact (proj1 Hcase1)].
  - exact (proj1 (proj2 (snapshot_failures_logged_delta_failures_raised Demo.str_le [3] 0
                           Demo.h_dry Demo.db32) AttributeError eq_refl)).
Defined.

Lemma delta_read_failure_reaches_caller :
  exists self',
    _get_delta Demo.str_le [0; 1; 2; 3] 0 Demo.h0 Demo.db32
    = ({| yielded := []; stop := Some ValueError |}, self', Demo.db32)
    /\ logger self' = []
    /\ raised (fst (fst (_get_delta Demo.str_le [0; 1; 2; 3] 0 Demo.h0 Demo.db32)))
       <> None.
Proof.
  eexists. split; [vm_compute; reflexivity|].
  split; [reflexivity|]. vm_compute. discriminate.
Qed.

(** C4 against the claim as it is written: a delta read for the empty set
    of shards raises the syntax error of the backend instead of yielding
    no row. *)
Lemma delta_read_for_no_shard_raises :
  exists self',
    _get_delta Demo.str_le [] 0 Demo.h0 Demo.db1
    = ({| yielded := []; stop := Some SyntaxError |}, self', Demo.db1)
    /\ raised (fst (fst (_get_delta Demo.str_le [] 0 Demo.h0 Demo.db1))) <> None.
Proof.
  eexists. split; [vm_compute; reflexivity|]. vm_compute. discriminate.
Qed.

(** C5 against the claim as it is written: the table of a handler whose
    table name has a capital letter exists, under that identifier, and the
    registry records version 1 for it; the constructor does not find the
    table, compares no version and returns a handler, and the registry has
    one more row. *)
Lemma init_mixed_case_name_skips_version_check :
  exists self,
    __init__ "Docs" 10 float64 false 4 false Demo.db_Docs
    = (Ok self,
       {| tables := tables Demo.db_Docs;
          schema_versions := Some [("Docs"%string, 1); ("Docs"%string, 2)] |})
    /\ is_Some (tables Demo.db_Docs !! "Docs"%string)
    /\ stored_version Demo.db_Docs "Docs" = Some 1
    /\ logger self = [].
Proof.
  eexists. split; [vm_compute; reflexivity|].
  split; [vm_compute; eauto|]. split; reflexivity.
Qed.

(** C7 against the claim as it is written: the constructor takes a
    partition count of zero and of minus four; with zero the first [add]
    raises [ZeroDivisionError], with minus four it stores the shard -1. *)
Lemma init_accepts_non_positive_partitions :
  (exists self d1,
     __init__ "default_table" 10 float64 false 0 false Demo.empty_db = (Ok self, d1)
     /\ partitions self = 0
     /\ fst (fst (add Demo.cast Demo.to_bytes [Demo.doc_a] 100 self d1))
        = Raise ZeroDivisionError)
  /\ (exists self d1 self' d2 t r,
        __init__ "default_table" 10 float64 false (-4) false Demo.empty_db = (Ok self, d1)
        /\ partitions self = -4
        /\ add Demo.cast Demo.to_bytes [Demo.doc_a] 100 self d1 = (Ok tt, self', d2)
        /\ tables d2 !! "default_table"%string = Some t
        /\ t !! str "a" = Some r /\ r_shard r = -1).
Proof.
  split.
  - eexists _, _. split; [vm_compute; reflexivity|].
    split; [reflexivity|]. vm_compute. reflexivity.
  - eexists _, _, _, _, _, _. split; [vm_compute; reflexivity|].
    split; [reflexivity|]. split; [vm_compute; reflexivity|].
    split; [vm_compute; reflexivity|]. split; vm_compute; reflexivity.
Qed.

(** * Further properties of the handler *)

(** ** Calls that only read *)

Lemma on_table_read {A} (name : string) (g : table_t -> A) (d : database) :
  on_table name (fun t => Ok (g t, t)) d
  = match tables d !! name with
    | Some t => Ok (g t, d)
    | None => Raise UndefinedTable
    end.
Proof.
  unfold on_table. destruct (tables d !! name) as [t|] eqn:Ht; [|reflexivity].
  now rewrite (database_insert_id d name t Ht).
Qed.

Lemma untouched_begin (d : database) (l : list log_record) :
  untouched d {| sess := begin d; logs := l |}.
Proof. split; reflexivity. Qed.

Lemma untouched_exit {R} `{Outcome R} (d : database) (r : R) (st : txstate) :
  untouched d st -> committed (conn_exit r (sess st)) = d.
Proof.
  intros [Hc Hw]. unfold conn_exit, commit_session, rollback_session.
  destruct (raised r); [exact Hc|].
  destruct (failed (sess st)); [exact Hc | now apply Hw].
Qed.

Lemma untouched_execute {A} (f : database -> result (A * database)) (d : database)
    (st : txstate) :
  (forall w, match f w with Ok (_, w') => w' = w | Raise _ => True end) ->
  untouched d st -> untouched d (snd (execute f st)).
Proof.
  intros Hf [Hc Hw]. unfold execute.
  destruct (failed (sess st)) eqn:Hfail;
    [cbn [snd]; split; [exact Hc|rewrite Hfail; discriminate]|].
  specialize (Hf (working (sess st))).
  destruct (f (working (sess st))) as [[a w]|e]; cbn.
  - split; [exact Hc|]. intros _. rewrite Hf. now apply Hw.
  - split; [exact Hc|discriminate].
Qed.

Lemma untouched_after_recover (d : database) (m : tx unit) (st : txstate) :
  untouched d st ->
  (m = commit \/ m = rollback \/ exists l s, m = log l s) ->
  untouched d (after m st).
Proof.
  intros [Hc Hw] [-> | [-> | (l & s & ->)]]; unfold after; cbn.
  - unfold commit_session. destruct (failed (sess st)); split; cbn; auto.
  - split; cbn; auto.
  - split; assumption.
Qed.

Lemma read_statement_on_table {A} (name : string) (g : table_t -> A) :
  forall w, match on_table name (fun t => Ok (g t, t)) w with
            | Ok (_, w') => w' = w
            | Raise _ => True
            end.
Proof.
  intros w. rewrite on_table_read. now destruct (tables w !! name).
Qed.

Lemma read_statement_in_tuple {A} (shards : list Z) (name : string)
    (g : table_t -> A) :
  forall w, match in_tuple shards (on_table name (fun t => Ok (g t, t))) w with
            | Ok (_, w') => w' = w
            | Raise _ => True
            end.
Proof.
  intros w. destruct shards; [exact I|]. apply read_statement_on_table.
Qed.

Lemma get_connection_untouched {R} `{Outcome R} (self : handler) (d : database)
    (body : txstate -> R * txstate) :
  (forall st, untouched d st -> untouched d (snd (body st))) ->
  snd (get_connection self d body) = d.
Proof.
  intros Hbody. destruct (get_connection_db self d body) as [H0|H0]; rewrite H0;
    [reflexivity|].
  apply untouched_exit, Hbody, untouched_begin.
Qed.

Section MoreProperties.

Variable cast : dtype -> dtype -> bytes -> bytes.
Variable to_bytes : Document -> bytes.
Variable from_bytes : bytes -> result Document.
Variable id_le : pystr -> pystr -> Prop.
Context `{!RelDecision id_le}.

Lemma search_doc_untouched (self : handler) (re : bool) (doc : Document)
    (d : database) (st : txstate) :
  untouched d st -> untouched d (snd (search_doc from_bytes self re doc st)).
Proof.
  intros Hst. unfold search_doc, mbind at 1, tx_bind at 1.
  pose proof (untouched_execute (sql_select_doc (table self) (id doc)) d st
                (read_statement_on_table _ _) Hst) as Hex.
  destruct (execute _ st) as [[res|e] st1]; cbn [snd] in Hex |- *; [|exact Hex].
  unfold mbind, tx_bind, lift, mret, tx_ret.
  repeat match goal with
         | |- context [match ?x with _ => _ end] => destruct x; cbn [snd]; try exact Hex
         end.
Qed.

Lemma search_loop_untouched (self : handler) (re : bool) (docs : list Document)
    (d : database) :
  forall st, untouched d st ->
             untouched d (snd (search_loop from_bytes self re docs st)).
Proof.
  induction docs as [|doc docs IH]; intros st Hst; cbn [search_loop]; [exact Hst|].
  pose proof (search_doc_untouched self re doc d st Hst) as H1.
  destruct (search_doc from_bytes self re doc st) as [[doc'|e] st1]; cbn [snd] in *;
    [|exact H1].
  specialize (IH st1 H1). destruct (search_loop _ _ _ docs st1) as [r st2].
  exact IH.
Qed.

Lemma untouched_recover (d : database) (l : level) (s : string) (st : txstate) :
  untouched d st ->
  untouched d (after (_ ← log l s; _ ← rollback; commit) st).
Proof. intros [Hc Hw]. split; cbn; auto. Qed.

Lemma untouched_commit (d : database) (st : txstate) :
  untouched d st -> untouched d (after commit st).
Proof.
  intros [Hc Hw]. unfold after. cbn. unfold commit_session.
  destruct (failed (sess st)); split; cbn; auto.
Qed.

Lemma untouched_log (d : database) (l : level) (s : string) (st : txstate) :
  untouched d st -> untouched d (after (log l s) st).
Proof. intros [Hc Hw]. split; assumption. Qed.

(** X1. The calls that only query leave the database exactly as it is,
    whatever they return or raise and whatever the state of the pool:
    [search], [get_size], [get_snapshot], [_get_delta], [get_generator],
    [get_snapshot_size] and the two timestamp reads. *)
Theorem reads_leave_database_unchanged (self : handler) (d : database)
    (docs : list Document) (re : bool) (shards : list Z) (timestamp : Z) :
  snd (search from_bytes docs re self d) = d
  /\ snd (get_size self d) = d
  /\ snd (get_snapshot id_le shards self d) = d
  /\ snd (_get_delta id_le shards timestamp self d) = d
  /\ snd (get_generator id_le re self d) = d
  /\ snd (get_snapshot_size self d) = d
  /\ snd (_get_snapshot_timestamp self d) = d
  /\ snd (_get_data_timestamp self d) = d.
Proof.
  repeat split.
  - apply get_connection_untouched. intros st. apply search_loop_untouched.
  - apply get_connection_untouched. intros st.
    apply untouched_execute, read_statement_on_table.
  - apply get_connection_untouched. intros st Hst.
    pose proof (untouched_execute (sql_select_snapshot id_le (snapshot_table self) shards)
                  d st (read_statement_in_tuple _ _ _) Hst) as Hex.
    destruct (execute _ st) as [[recs|e] st1]; cbn [snd] in Hex |- *.
    + destruct (stop _); cbn [snd];
        [now apply untouched_recover | now apply untouched_commit].
    + now apply untouched_recover.
  - apply get_connection_untouched. intros st Hst.
    pose proof (untouched_execute (sql_select_delta id_le (table self) shards timestamp)
                  d st (read_statement_in_tuple _ _ _) Hst) as Hex.
    destruct (execute _ st) as [[recs|e] st1]; exact Hex.
  - apply get_connection_untouched. intros st Hst.
    pose proof (untouched_execute (sql_select_all id_le (table self))
                  d st (read_statement_on_table _ _) Hst) as Hex.
    destruct (execute _ st) as [[recs|e] st1]; exact Hex.
  - apply get_connection_untouched. intros st Hst. unfold try_except.
    pose proof (untouched_execute (sql_count (snapshot_table self))
                  d st (read_statement_on_table _ _) Hst) as Hex.
    destruct (execute _ st) as [[n|e] st1]; exact Hex.
  - apply get_connection_untouched. intros st Hst.
    pose proof (untouched_execute (sql_max_last_updated (snapshot_table self))
                  d st (read_statement_on_table _ _) Hst) as Hex.
    destruct (execute _ st) as [[m|e] st1]; cbn [snd] in *;
      [exact Hex | now apply untouched_log].
  - apply get_connection_untouched. intros st Hst.
    pose proof (untouched_execute (sql_max_last_updated (table self))
                  d st (read_statement_on_table _ _) Hst) as Hex.
    destruct (execute _ st) as [[m|e] st1]; cbn [snd] in *;
      [exact Hex | now apply untouched_log].
Qed.


(** ** [search] as one lookup per document *)

Lemma search_doc_state (self : handler) (re : bool) (doc : Document) (st : txstate) :
  snd (search_doc from_bytes self re doc st)
  = snd (execute (sql_select_doc (table self) (id doc)) st).
Proof.
  unfold search_doc, mbind at 1, tx_bind at 1.
  destruct (execute _ st) as [[res|e] st1]; cbn [snd]; [|reflexivity].
  unfold mbind, tx_bind, lift, mret, tx_ret.
  repeat match goal with
         | |- context [match ?x with _ => _ end] =>
             destruct x; cbn [snd]; try reflexivity
         end.
Qed.

Lemma search_doc_retrieve (self : handler) (re : bool) (doc : Document)
    (t : table_t) (st : txstate) :
  failed (sess st) = false ->
  tables (working (sess st)) !! table self = Some t ->
  exists st1,
    search_doc from_bytes self re doc st = (retrieve from_bytes self re t doc, st1)
    /\ failed (sess st1) = false
    /\ tables (working (sess st1)) !! table self = Some t.
Proof.
  intros Hfail Ht. unfold search_doc, mbind at 1, tx_bind at 1.
  erewrite execute_ok; [|exact Hfail|].
  2:{ unfold sql_select_doc. rewrite on_table_read, Ht. reflexivity. }
  eexists. split.
  { unfold retrieve, mbind, tx_bind, lift, mret, tx_ret.
    destruct (t !! id doc) as [r|]; cbn; [|reflexivity].
    destruct (r_doc r) as [b|]; cbn; [|reflexivity].
    destruct (from_bytes b) as [rd|e]; cbn; [|reflexivity].
    destruct (r_embedding r) as [buf|]; cbn; [|reflexivity].
    destruct re; cbn; [|reflexivity].
    destruct (frombuffer buf (dump_dtype self)); reflexivity. }
  split; [reflexivity|exact Ht].
Qed.

Lemma search_loop_retrieve (self : handler) (re : bool) (docs : list Document)
    (t : table_t) :
  forall st,
    failed (sess st) = false ->
    tables (working (sess st)) !! table self = Some t ->
    fst (search_loop from_bytes self re docs st)
    = yield_each (retrieve from_bytes self re t) docs.
Proof.
  induction docs as [|doc docs IH]; intros st Hfail Ht; [reflexivity|].
  cbn [search_loop yield_each].
  destruct (search_doc_retrieve self re doc t st Hfail Ht) as (st1 & -> & Hf1 & Ht1).
  destruct (retrieve from_bytes self re t doc) as [doc'|e]; [|reflexivity].
  specialize (IH st1 Hf1 Ht1).
  destruct (search_loop from_bytes self re docs st1) as [r st2]. cbn [fst] in *.
  now rewrite IH.
Qed.

Lemma search_run (docs : list Document) (re : bool)
    (self : handler) (d : database) :
  ready self = true ->
  exists self',
    search from_bytes docs re self d
    = (match tables d !! table self with
       | Some t => yield_each (retrieve from_bytes self re t) docs
       | None =>
           match docs with
           | [] => {| yielded := []; stop := None |}
           | _ :: _ => {| yielded := []; stop := Some UndefinedTable |}
           end
       end, self', d)
    /\ ready self' = true /\ config self' = config self
    /\ logger self' = logger self.
Proof.
  intros Hready.
  assert (Hdb : snd (search from_bytes docs re self d) = d).
  { apply get_connection_untouched. intros st. apply search_loop_untouched. }
  assert (Hlogs : forall ds st,
            logs (snd (search_loop from_bytes self re ds st)) = logs st).
  { induction ds as [|doc ds IH]; intros st; cbn [search_loop]; [reflexivity|].
    assert (H1 : logs (snd (search_doc from_bytes self re doc st)) = logs st).
    { rewrite search_doc_state. unfold execute.
      destruct (failed (sess st)); [reflexivity|].
      destruct (sql_select_doc _ _ _) as [[a w]|e]; reflexivity. }
    destruct (search_doc from_bytes self re doc st) as [[doc'|e] st1]; cbn [snd] in *;
      [|exact H1].
    specialize (IH st1). destruct (search_loop _ _ _ ds st1) as [r st2].
    cbn [snd] in *. congruence. }
  unfold search in *.
  destruct (get_connection_ready self d (search_loop from_bytes self re docs) Hready)
    as (self' & Hrun & Hr' & Hcfg & Hlog).
  rewrite Hrun in Hdb |- *. cbn [snd] in Hdb. rewrite Hdb.
  rewrite Hlogs in Hlog. cbn in Hlog.
  exists self'. split; [|auto]. f_equal. f_equal.
  destruct (tables d !! table self) as [t|] eqn:Ht.
  - apply search_loop_retrieve; [reflexivity | exact Ht].
  - destruct docs as [|doc docs]; [reflexivity|].
    cbn [search_loop]. unfold search_doc, mbind at 1, tx_bind at 1.
    erewrite execute_raise; [reflexivity|reflexivity|].
    unfold sql_select_doc. rewrite on_table_read. cbn. now rewrite Ht.
Qed.

(** X2. With a connection at hand, [search] on a list of documents is one
    independent lookup per document, in order, on the table as it is: each
    document is replaced by what its row decodes to, and the first document
    whose row is missing, has a null payload or cannot be decoded stops the
    call on its exception, the documents before it being already replaced
    and the ones after it untouched.  When the table itself does not exist
    the first document raises [UndefinedTable]. *)
Theorem search_is_lookup_per_document (docs : list Document) (re : bool)
    (self : handler) (d : database) :
  ready self = true ->
  exists self',
    search from_bytes docs re self d
    = (match tables d !! table self with
       | Some t => yield_each (retrieve from_bytes self re t) docs
       | None =>
           match docs with
           | [] => {| yielded := []; stop := None |}
           | _ :: _ => {| yielded := []; stop := Some UndefinedTable |}
           end
       end, self', d)
    /\ ready self' = true /\ config self' = config self
    /\ logger self' = logger self.
Proof. apply search_run. Qed.


(** ** Insert, then look up *)

(** X3. A document given to [add] under a fresh identifier can be
    searched right away: [search] replaces the query document by what the
    stored payload decodes to, with the stored embedding read back in the
    type [dump_dtype] when embeddings are asked for, and with the scores of
    the query document. *)
Theorem add_then_search_round_trip (docs : list Document) (now : Z)
    (self : handler) (d : database) (t : table_t) (x q rd : Document)
    (vec : option ndarray) (re : bool) :
  ready self = true ->
  tables d !! table self = Some t ->
  partitions self <> 0 ->
  Forall (fun x => exists msg, Utf8.encode (id x) = Ok msg) docs ->
  NoDup (map id docs) ->
  (forall x, x ∈ docs -> t !! id x = None) ->
  x ∈ docs ->
  from_bytes (doc_without_embedding to_bytes x) = Ok rd ->
  decode_embedding (dump_dtype self)
    ((fun e => tobytes (astype cast e (dump_dtype self))) <$> embedding x) = Ok vec ->
  id q = id x ->
  exists self1 d1 self2,
    add cast to_bytes docs now self d = (Ok tt, self1, d1)
    /\ search from_bytes [q] re self1 d1
       = ({| yielded :=
               [ {| id := id rd;
                    embedding := if re then match vec with
                                            | Some v => Some v
                                            | None => embedding rd
                                            end
                                 else embedding rd;
                    content := content rd;
                    scores := scores q |} ];
             stop := None |}, self2, d1).
Proof.
  intros Hready Ht Hparts Henc Hnd Hfresh Hx Hrd Hvec Hq.
  destruct (add_inserts_rows cast to_bytes docs now self d t
              Hready Ht Hparts Henc Hnd Hfresh)
    as (self1 & t' & Hadd & Hr1 & Hcfg1 & _ & Hrows & _).
  destruct (Hrows x Hx) as (sh & _ & Hrow).
  assert (Htab : table self1 = table self) by (now injection Hcfg1).
  assert (Hdt : dump_dtype self1 = dump_dtype self) by (now injection Hcfg1).
  destruct (search_run [q] re self1
              {| tables := <[table self := t']> (tables d);
                 schema_versions := schema_versions d |} Hr1)
    as (self2 & Hsearch & _).
  eexists self1, _, self2. split; [exact Hadd|].
  rewrite Hsearch. f_equal. f_equal.
  rewrite Htab. cbn [tables]. rewrite lookup_insert_eq.
  cbn [yield_each]. unfold retrieve. rewrite Hq, Hrow. cbn [r_doc r_embedding].
  rewrite Hrd. cbn [mbind result_bind]. rewrite Hdt.
  destruct (embedding x) as [e|]; cbn [fmap option_fmap option_map] in *.
  - cbn [decode_embedding] in Hvec.
    destruct re; cbn [mbind result_bind]; [|reflexivity].
    destruct (frombuffer _ _) as [v|]; cbn [mbind result_bind] in Hvec |- *;
      [|discriminate].
    injection Hvec as <-. reflexivity.
  - cbn [decode_embedding] in Hvec. injection Hvec as <-.
    destruct re; reflexivity.
Qed.

Lemma size_after_inserts (t t' : table_t) (ks : list pystr) :
  NoDup ks ->
  (forall k, k ∈ ks -> t !! k = None) ->
  (forall k, k ∈ ks -> is_Some (t' !! k)) ->
  (forall k, k ∉ ks -> t' !! k = t !! k) ->
  size t' = (size t + length ks)%nat.
Proof.
  intros Hnd Hfresh Hin Hout.
  assert (Hdom : dom t' = dom t ∪ list_to_set ks).
  { apply set_eq. intros k.
    rewrite elem_of_union, !elem_of_dom, elem_of_list_to_set.
    destruct (decide (k ∈ ks)) as [Hk|Hk].
    - split; [auto|]. intros _. now apply Hin.
    - rewrite (Hout k Hk). tauto. }
  rewrite <- !size_dom, Hdom, size_union.
  - now rewrite size_list_to_set.
  - intros k Hk1 Hk2. apply elem_of_list_to_set in Hk2.
    apply elem_of_dom in Hk1 as [r Hr]. rewrite (Hfresh k Hk2) in Hr. discriminate.
Qed.

(** X4. After [add] of a batch of distinct, fresh identifiers [get_size]
    returns what it returned before plus the number of documents of the
    batch. *)
Theorem add_grows_size_by_batch_length (docs : list Document) (now : Z)
    (self : handler) (d : database) (t : table_t) :
  ready self = true ->
  tables d !! table self = Some t ->
  partitions self <> 0 ->
  Forall (fun x => exists msg, Utf8.encode (id x) = Ok msg) docs ->
  NoDup (map id docs) ->
  (forall x, x ∈ docs -> t !! id x = None) ->
  exists self0 self1 d1 self2,
    get_size self d = (Ok (Z.of_nat (size t)), self0, d)
    /\ add cast to_bytes docs now self d = (Ok tt, self1, d1)
    /\ get_size self1 d1
       = (Ok (Z.of_nat (size t) + Z.of_nat (length docs)), self2, d1).
Proof.
  intros Hready Ht Hparts Henc Hnd Hfresh.
  destruct (get_size_counts_rows self d t Hready Ht) as (self0 & Hsize0 & _).
  destruct (add_inserts_rows cast to_bytes docs now self d t
              Hready Ht Hparts Henc Hnd Hfresh)
    as (self1 & t' & Hadd & Hr1 & Hcfg1 & _ & Hrows & Hout).
  assert (Htab : table self1 = table self) by (now injection Hcfg1).
  destruct (get_size_counts_rows self1
              {| tables := <[table self := t']> (tables d);
                 schema_versions := schema_versions d |} t' Hr1)
    as (self2 & Hsize1 & _).
  { rewrite Htab. cbn. apply lookup_insert_eq. }
  eexists self0, self1, _, self2. split; [exact Hsize0|]. split; [exact Hadd|].
  rewrite Hsize1. do 3 f_equal.
  rewrite (size_after_inserts t t' (map id docs)); [|exact Hnd| | |exact Hout].
  - rewrite length_map. lia.
  - intros k Hk. apply list_elem_of_fmap in Hk as (x & -> & Hx). now apply Hfresh.
  - intros k Hk. apply list_elem_of_fmap in Hk as (x & -> & Hx).
    destruct (Hrows x Hx) as (sh & _ & ->). eauto.
Qed.


(** ** A batch that repeats an identifier *)

Lemma execute_batch_insert_repeated name now args :
  forall st t,
    failed (sess st) = false ->
    tables (working (sess st)) !! name = Some t ->
    ~ NoDup (map (fun a : pystr * option bytes * bytes * Z => fst (fst (fst a))) args) ->
    exists st',
      execute_batch (sql_insert name now) args st = (Raise UniqueViolation, st')
      /\ committed (sess st') = committed (sess st)
      /\ logs st' = logs st.
Proof.
  induction args as [|a args IH]; intros st t Hfail Ht Hdup.
  - exfalso. apply Hdup. constructor.
  - destruct (decide (is_Some (t !! fst (fst (fst a))))) as [Hsome|Hnone].
    { apply (execute_batch_insert_conflict name now (a :: args) st t Hfail Ht).
      exists a. split; [left | exact Hsome]. }
    cbn [execute_batch]. unfold mbind, tx_bind.
    destruct a as [[[doc_id emb] doc] shard]. cbn [fst] in *.
    assert (Hr : t !! doc_id = None).
    { destruct (t !! doc_id); [exfalso; apply Hnone; eauto | reflexivity]. }
    erewrite execute_ok; [|exact Hfail|].
    2:{ unfold sql_insert, on_table. rewrite Ht, Hr. reflexivity. }
    cbn [map] in Hdup.
    match goal with
    | |- exists st', execute_batch _ _ ?st1 = _ /\ _ =>
        destruct (decide (doc_id ∈ map (fun a : pystr * option bytes * bytes * Z =>
                                          fst (fst (fst a))) args)) as [Hin|Hnotin];
          [ apply list_elem_of_fmap in Hin as (a' & Ha' & Hin);
            destruct (execute_batch_insert_conflict name now args st1
                        (<[doc_id := {| r_embedding := emb; r_doc := Some doc;
                                        r_shard := shard; r_last_updated := now |}]> t))
              as (st' & Hrun & Hc & Hl);
            [reflexivity | cbn; apply lookup_insert_eq
            | exists a'; split; [exact Hin|]; rewrite <- Ha', lookup_insert_eq; eauto
            | exists st'; cbn in Hc, Hl; auto]
          | destruct (IH st1 (<[doc_id := {| r_embedding := emb; r_doc := Some doc;
                                             r_shard := shard; r_last_updated := now |}]> t))
              as (st' & Hrun & Hc & Hl);
            [reflexivity | cbn; apply lookup_insert_eq
            | intros Hnd; apply Hdup; constructor; assumption
            | exists st'; cbn in Hc, Hl; auto] ]
    end.
Qed.

(** The run of [add] when the batch of inserts stops on a uniqueness
    violation. *)
Lemma add_on_unique_violation (docs : list Document) (now : Z) (self : handler)
    (d : database) args :
  ready self = true ->
  comprehension
    (fun doc0 : Document =>
       shard ← _get_next_shard self (id doc0);
       Ok (id doc0,
           (fun e => tobytes (astype cast e (dump_dtype self))) <$> embedding doc0,
           doc_without_embedding to_bytes doc0, shard)) docs = Ok args ->
  (exists st',
     execute_batch (sql_insert (table self) now) args
       {| sess := begin d; logs := logger self |} = (Raise UniqueViolation, st')
     /\ committed (sess st') = d /\ logs st' = logger self) ->
  exists self',
    add cast to_bytes docs now self d = (Ok tt, self', d)
    /\ logger self'
       = (if mute_unique_warnings self then logger self
          else logger self ++
               [{| lvl := WARNING;
                   text := "Document already exists in PSQL database. Skipping entire transaction..." |}])
    /\ ready self' = true
    /\ config self' = config self.
Proof.
  intros Hready Hc (st' & Hb & Hcom & Hl).
  set (f := fun doc0 : Document =>
              shard ← _get_next_shard self (id doc0);
              Ok (id doc0,
                  (fun e => tobytes (astype cast e (dump_dtype self))) <$> embedding doc0,
                  doc_without_embedding to_bytes doc0, shard)) in *.
  unfold add. fold f.
  match goal with
  | |- context [get_connection self d ?b] =>
      destruct (get_connection_ready self d b Hready) as (self' & Hrun & Hr' & Hcfg & Hlog)
  end.
  exists self'. rewrite Hrun. clear Hrun. revert Hlog.
  unfold mbind, tx_bind, try_except, lift. rewrite Hc, Hb.
  destruct (mute_unique_warnings self); cbn; rewrite ?Hl, ?Hcom; intros Hlog;
    repeat split; auto.
Qed.

(** X5. A batch given to [add] in which one identifier comes twice is
    rolled back as a whole, even when that identifier is not in the table:
    the second insert violates the primary key, nothing of the batch is
    persisted, the call returns normally and one warning is logged unless
    muted. *)
Theorem add_repeated_id_rolls_back_batch (docs : list Document) (now : Z)
    (self : handler) (d : database) (t : table_t) :
  ready self = true ->
  tables d !! table self = Some t ->
  partitions self <> 0 ->
  Forall (fun x => exists msg, Utf8.encode (id x) = Ok msg) docs ->
  ~ NoDup (map id docs) ->
  exists self',
    add cast to_bytes docs now self d = (Ok tt, self', d)
    /\ logger self'
       = (if mute_unique_warnings self then logger self
          else logger self ++
               [{| lvl := WARNING;
                   text := "Document already exists in PSQL database. Skipping entire transaction..." |}]).
Proof.
  intros Hready Ht Hparts Henc Hdup.
  set (f := fun doc0 : Document =>
              shard ← _get_next_shard self (id doc0);
              Ok (id doc0,
                  (fun e => tobytes (astype cast e (dump_dtype self))) <$> embedding doc0,
                  doc_without_embedding to_bytes doc0, shard)).
  destruct (comprehension_ok f docs) as (args & Hc & Hall).
  { eapply Forall_impl; [exact Henc|]. intros x Hx. subst f. cbn beta.
    destruct (get_next_shard_ok self (id x) Hparts Hx) as [sh ->].
    eexists. reflexivity. }
  assert (Hkeys : map (fun a : pystr * option bytes * bytes * Z => fst (fst (fst a))) args
                  = map id docs).
  { clear -Hall. induction Hall as [|x a xs ys Hx _ IH]; [reflexivity|].
    cbn [map]. rewrite IH. f_equal.
    apply (add_args_id cast to_bytes) in Hx as [-> _]. reflexivity. }
  destruct (add_on_unique_violation docs now self d args Hready Hc)
    as (self' & Hrun & Hlog & _).
  { apply (execute_batch_insert_repeated (table self) now args
             {| sess := begin d; logs := logger self |} t);
      [reflexivity|exact Ht|].
    now rewrite Hkeys. }
  exists self'. auto.
Qed.


(** ** Deleting, cleaning up and clearing *)

Lemma fold_delete_lookup (ks : list pystr) :
  forall (t : table_t) k,
    fold_left (fun t k => delete k t) ks t !! k
    = if decide (k ∈ ks) then None else t !! k.
Proof.
  induction ks as [|k0 ks IH]; intros t k; cbn [fold_left].
  - destruct (decide (k ∈ [])) as [H|_]; [by apply elem_of_nil in H | reflexivity].
  - rewrite IH. destruct (decide (k ∈ ks)) as [Hin|Hnotin].
    + rewrite decide_True by (now right). reflexivity.
    + destruct (decide (k = k0)) as [->|Hne].
      * rewrite decide_True by left. apply lookup_delete_eq.
      * rewrite decide_False.
        -- apply lookup_delete_ne. congruence.
        -- intros H. apply elem_of_cons in H as [?|?]; contradiction.
Qed.

Lemma hard_delete_run (docs : list Document) (now : Z) (self : handler)
    (d : database) (t : table_t) :
  ready self = true ->
  tables d !! table self = Some t ->
  exists self',
    delete_ docs false now self d
    = (Ok tt, self',
       {| tables := <[table self := fold_left (fun t k => delete k t) (map id docs) t]>
                      (tables d);
          schema_versions := schema_versions d |})
    /\ ready self' = true /\ config self' = config self
    /\ logger self' = logger self.
Proof.
  intros Hready Ht. unfold delete_.
  match goal with
  | |- context [get_connection self d ?b] =>
      destruct (get_connection_ready self d b Hready) as (self' & Hrun & Hr' & Hcfg & Hlog)
  end.
  exists self'. rewrite Hrun. clear Hrun. revert Hlog.
  unfold mbind, tx_bind.
  erewrite (execute_batch_on_table (table self) (fun k t => delete k t));
    [|reflexivity|reflexivity|exact Ht].
  cbn. auto.
Qed.

Lemma cleanup_run (self : handler) (d : database) (t : table_t) :
  ready self = true ->
  tables d !! table self = Some t ->
  exists self',
    cleanup self d
    = (Ok tt, self',
       {| tables := <[table self := filter (fun kr => is_Some (r_doc (snd kr))) t]>
                      (tables d);
          schema_versions := schema_versions d |})
    /\ ready self' = true /\ config self' = config self
    /\ logger self' = logger self.
Proof.
  intros Hready Ht. unfold cleanup.
  match goal with
  | |- context [get_connection self d ?b] =>
      destruct (get_connection_ready self d b Hready) as (self' & Hrun & Hr' & Hcfg & Hlog)
  end.
  exists self'. rewrite Hrun. clear Hrun. revert Hlog.
  unfold mbind, tx_bind.
  erewrite execute_ok; [|reflexivity|].
  2:{ unfold sql_cleanup, on_table. cbn. rewrite Ht. reflexivity. }
  cbn. auto.
Qed.

Lemma clear_run (self : handler) (d : database) (t : table_t) :
  ready self = true ->
  tables d !! table self = Some t ->
  exists self',
    clear self d
    = (Ok tt, self',
       {| tables := <[table self := ∅]> (tables d);
          schema_versions := schema_versions d |})
    /\ ready self' = true /\ config self' = config self
    /\ logger self' = logger self.
Proof.
  intros Hready Ht. unfold clear.
  match goal with
  | |- context [get_connection self d ?b] =>
      destruct (get_connection_ready self d b Hready) as (self' & Hrun & Hr' & Hcfg & Hlog)
  end.
  exists self'. rewrite Hrun. clear Hrun. revert Hlog.
  unfold mbind, tx_bind.
  erewrite execute_ok; [|reflexivity|].
  2:{ unfold sql_clear, on_table. cbn. rewrite Ht. reflexivity. }
  cbn. auto.
Qed.

(** X6. A hard [delete] removes the rows of the identifiers of the batch
    and no other; identifiers that are not stored are skipped without
    error.  Deleting the same batch again changes nothing, and [search] on
    a deleted identifier stops on a [TypeError]. *)
Theorem hard_delete_removes_rows (docs : list Document) (now : Z)
    (self : handler) (d : database) (t : table_t) :
  ready self = true ->
  tables d !! table self = Some t ->
  exists self1 d1 t1,
    delete_ docs false now self d = (Ok tt, self1, d1)
    /\ tables d1 !! table self = Some t1
    /\ (forall k, t1 !! k = if decide (k ∈ map id docs) then None else t !! k)
    /\ (forall now2, exists self2,
          delete_ docs false now2 self1 d1 = (Ok tt, self2, d1))
    /\ (forall q re, id q ∈ map id docs ->
          exists self2,
            search from_bytes [q] re self1 d1
            = ({| yielded := []; stop := Some TypeError |}, self2, d1)).
Proof.
  intros Hready Ht.
  destruct (hard_delete_run docs now self d t Hready Ht)
    as (self1 & Hrun & Hr1 & Hcfg1 & _).
  set (t1 := fold_left (fun t k => delete k t) (map id docs) t) in *.
  set (d1 := {| tables := <[table self := t1]> (tables d);
                schema_versions := schema_versions d |}) in *.
  assert (Htab : table self1 = table self) by (now injection Hcfg1).
  assert (Ht1 : tables d1 !! table self1 = Some t1)
    by (rewrite Htab; cbn; apply lookup_insert_eq).
  assert (Hlk : forall k, t1 !! k = if decide (k ∈ map id docs) then None else t !! k)
    by (intros k; apply fold_delete_lookup).
  exists self1, d1, t1. split; [exact Hrun|].
  split; [cbn; apply lookup_insert_eq|]. split; [exact Hlk|]. split.
  - intros now2.
    destruct (hard_delete_run docs now2 self1 d1 t1 Hr1 Ht1) as (self2 & Hrun2 & _).
    exists self2. rewrite Hrun2. f_equal.
    assert (Hfix : fold_left (fun t k => delete k t) (map id docs) t1 = t1).
    { apply map_eq. intros k. rewrite fold_delete_lookup, Hlk.
      now destruct (decide (k ∈ map id docs)). }
    rewrite Hfix, Htab. subst d1. cbn. now rewrite insert_insert_eq.
  - intros q re Hq.
    destruct (search_run [q] re self1 d1 Hr1) as (self2 & Hsearch & _).
    exists self2. rewrite Hsearch, Ht1. cbn [yield_each]. unfold retrieve.
    rewrite Hlk, decide_True by exact Hq. reflexivity.
Qed.

(** X7. On a table that holds no tombstone, a soft [delete] of a batch
    followed by [cleanup] leaves the database that the hard [delete] of the
    same batch leaves. *)
Theorem soft_delete_then_cleanup_is_hard_delete (docs : list Document) (now : Z)
    (self : handler) (d : database) (t : table_t) :
  ready self = true ->
  tables d !! table self = Some t ->
  map_Forall (fun _ r => is_Some (r_doc r)) t ->
  exists self1 d1 self2 d2 self3,
    delete_ docs true now self d = (Ok tt, self1, d1)
    /\ cleanup self1 d1 = (Ok tt, self2, d2)
    /\ delete_ docs false now self d = (Ok tt, self3, d2).
Proof.
  intros Hready Ht Hlive.
  destruct (soft_delete_rewrites_rows docs now self d t Hready Ht)
    as (self1 & Hsoft & Hr1 & Hcfg1).
  set (tomb := fun r0 => {| r_embedding := None; r_doc := None;
                            r_shard := r_shard r0; r_last_updated := now |}) in *.
  set (ts := fold_left (fun t k => alter tomb k t) (map id docs) t) in *.
  assert (Htab : table self1 = table self) by (now injection Hcfg1).
  destruct (cleanup_run self1
              {| tables := <[table self := ts]> (tables d);
                 schema_versions := schema_versions d |} ts Hr1)
    as (self2 & Hclean & _).
  { rewrite Htab. cbn. apply lookup_insert_eq. }
  destruct (hard_delete_run docs now self d t Hready Ht) as (self3 & Hhard & _).
  eexists self1, _, self2, _, self3.
  split; [exact Hsoft|]. split; [exact Hclean|]. rewrite Hhard. f_equal.
  rewrite Htab. cbn. rewrite insert_insert_eq. do 2 f_equal.
  assert (Hspec : dom ts = dom t
                  /\ (forall k, k ∉ map id docs -> ts !! k = t !! k)
                  /\ (forall k r, t !! k = Some r -> k ∈ map id docs ->
                        exists a, a ∈ map id docs /\ a = k /\ ts !! k = Some (tomb r))).
  { pose proof (fold_alter_spec (fun (_ : pystr) => tomb) (fun k => k)
                  ltac:(reflexivity) (map id docs) t) as H.
    rewrite map_id in H. exact H. }
  destruct Hspec as (Hdom & Hout & Hin).
  apply map_eq. intros k. rewrite fold_delete_lookup. symmetry.
  destruct (decide (k ∈ map id docs)) as [Hk|Hk].
  - apply map_lookup_filter_None. right. intros r Hr [b Hb].
    destruct (t !! k) as [r0|] eqn:Hr0.
    + destruct (Hin k r0 Hr0 Hk) as (_ & _ & _ & Hlk). rewrite Hlk in Hr.
      injection Hr as <-. discriminate.
    + assert (Hnone : ts !! k = None).
      { apply not_elem_of_dom. rewrite Hdom. now apply not_elem_of_dom. }
      congruence.
  - rewrite <- (Hout k Hk).
    destruct (ts !! k) as [r|] eqn:Hr.
    + apply map_lookup_filter_Some. split; [exact Hr|]. cbn.
      rewrite (Hout k Hk) in Hr. exact (Hlive k r Hr).
    + apply map_lookup_filter_None. left. exact Hr.
Qed.

(** X8. [cleanup] removes exactly the rows whose payload is null: a row
    is in the table afterwards if and only if it was there with a payload,
    and it is unchanged.  A second [cleanup] changes nothing. *)
Theorem cleanup_removes_exactly_tombstones (self : handler) (d : database)
    (t : table_t) :
  ready self = true ->
  tables d !! table self = Some t ->
  exists self1 d1 t1,
    cleanup self d = (Ok tt, self1, d1)
    /\ tables d1 !! table self = Some t1
    /\ (forall k r, t1 !! k = Some r <-> t !! k = Some r /\ is_Some (r_doc r))
    /\ (forall name, name <> table self -> tables d1 !! name = tables d !! name)
    /\ exists self2, cleanup self1 d1 = (Ok tt, self2, d1).
Proof.
  intros Hready Ht.
  destruct (cleanup_run self d t Hready Ht) as (self1 & Hrun & Hr1 & Hcfg1 & _).
  set (t1 := filter (fun kr : pystr * row => is_Some (r_doc (snd kr))) t) in *.
  set (d1 := {| tables := <[table self := t1]> (tables d);
                schema_versions := schema_versions d |}) in *.
  assert (Htab : table self1 = table self) by (now injection Hcfg1).
  assert (Ht1 : tables d1 !! table self1 = Some t1)
    by (rewrite Htab; cbn; apply lookup_insert_eq).
  exists self1, d1, t1. split; [exact Hrun|].
  split; [cbn; apply lookup_insert_eq|]. split; [|split].
  - intros k r. subst t1. rewrite map_lookup_filter_Some. reflexivity.
  - intros name Hne. cbn. apply lookup_insert_ne. congruence.
  - destruct (cleanup_run self1 d1 t1 Hr1 Ht1) as (self2 & Hrun2 & _).
    exists self2. rewrite Hrun2. f_equal.
    assert (Hfix : filter (fun kr : pystr * row => is_Some (r_doc (snd kr))) t1 = t1).
    { apply map_filter_id. intros k r Hr. subst t1.
      apply map_lookup_filter_Some in Hr as [_ Hr]. exact Hr. }
    rewrite Hfix, Htab. subst d1. cbn. now rewrite insert_insert_eq.
Qed.

(** X9. [clear] empties the primary table and nothing else: [get_size] is
    zero afterwards, while the other tables, the snapshot among them, and
    the version registry are as before. *)
Theorem clear_empties_primary_table_only (self : handler) (d : database)
    (t : table_t) :
  ready self = true ->
  tables d !! table self = Some t ->
  exists self1 d1 self2,
    clear self d = (Ok tt, self1, d1)
    /\ tables d1 !! table self = Some ∅
    /\ (forall name, name <> table self -> tables d1 !! name = tables d !! name)
    /\ schema_versions d1 = schema_versions d
    /\ get_size self1 d1 = (Ok 0, self2, d1).
Proof.
  intros Hready Ht.
  destruct (clear_run self d t Hready Ht) as (self1 & Hrun & Hr1 & Hcfg1 & _).
  set (d1 := {| tables := <[table self := ∅]> (tables d);
                schema_versions := schema_versions d |}) in *.
  assert (Htab : table self1 = table self) by (now injection Hcfg1).
  destruct (get_size_counts_rows self1 d1 ∅ Hr1) as (self2 & Hsize & _).
  { rewrite Htab. cbn. apply lookup_insert_eq. }
  exists self1, d1, self2. split; [exact Hrun|].
  split; [cbn; apply lookup_insert_eq|].
  split; [intros name Hne; cbn; apply lookup_insert_ne; congruence|].
  split; [reflexivity|]. rewrite Hsize. rewrite map_size_empty. reflexivity.
Qed.


(** ** Snapshots *)

Lemma order_by_doc_id_spec {B} (proj : pystr * row -> B) (key : B -> pystr)
    (l : list (pystr * row)) :
  (forall kr, key (proj kr) = fst kr) ->
  NoDup (l.*1) ->
  let recs := map proj (order_by_doc_id id_le l) in
  (forall b, b ∈ recs <-> exists kr, kr ∈ l /\ b = proj kr)
  /\ (Total id_le -> Transitive id_le -> StronglySorted id_le (map key recs))
  /\ NoDup (map key recs)
  /\ length recs = length l.
Proof.
  intros Hkey Hnd recs.
  pose proof (merge_sort_Permutation (by_doc_id id_le) l) as Hperm.
  fold (order_by_doc_id id_le l) in Hperm.
  assert (Hkeys : map key recs = (order_by_doc_id id_le l).*1).
  { subst recs. rewrite map_map. apply map_ext. intros kr. apply Hkey. }
  split; [|split; [|split]].
  - intros b. subst recs. rewrite list_elem_of_fmap. split.
    + intros (kr & -> & Hin). exists kr. rewrite Hperm in Hin. auto.
    + intros (kr & Hin & ->). exists kr. rewrite Hperm. auto.
  - intros Htot Htrans. rewrite Hkeys.
    apply (StronglySorted_fmap fst (by_doc_id id_le) id_le); [auto|].
    unfold order_by_doc_id. apply StronglySorted_merge_sort.
    + intros x y z. unfold by_doc_id. apply Htrans.
    + intros x y. unfold by_doc_id. apply Htot.
  - rewrite Hkeys, Hperm. exact Hnd.
  - subst recs. rewrite length_map. now rewrite Hperm.
Qed.

Lemma NoDup_fst_filter_map_to_list (P : pystr * row -> Prop)
    `{!forall x, Decision (P x)} (t : table_t) :
  NoDup ((filter P (map_to_list t)).*1).
Proof.
  eapply (sublist_NoDup _ ((map_to_list t).*1)).
  - apply NoDup_fst_map_to_list.
  - apply fmap_sublist. apply sublist_filter.
Qed.

(** The rows that the snapshot query selects. *)
Lemma sql_select_snapshot_rows (name : string) (shards : list Z) (d : database)
    (s : table_t) :
  tables d !! name = Some s ->
  shards <> [] ->
  exists recs,
    sql_select_snapshot id_le name shards d = Ok (recs, d)
    /\ (forall k emb,
          (k, emb) ∈ recs
          <-> exists r, s !! k = Some r /\ r_shard r ∈ shards /\ emb = r_embedding r)
    /\ (Total id_le -> Transitive id_le -> StronglySorted id_le (map fst recs))
    /\ NoDup (map fst recs).
Proof.
  intros Hs Hne. unfold sql_select_snapshot.
  rewrite in_tuple_nonempty by exact Hne. rewrite on_table_read, Hs.
  eexists. split; [reflexivity|].
  destruct (order_by_doc_id_spec
              (fun kr : pystr * row => (fst kr, r_embedding (snd kr))) fst
              (filter (fun kr : pystr * row => r_shard (snd kr) ∈ shards) (map_to_list s))
              ltac:(reflexivity)
              (NoDup_fst_filter_map_to_list _ s))
    as (Hmem & Hsorted & Hnd & _).
  split; [|split; assumption].
  intros k emb. rewrite Hmem. split.
  - intros ([k' r] & Hin & Heq). cbn in Heq. injection Heq as -> ->.
    apply list_elem_of_filter in Hin as [Hsh Hin].
    apply elem_of_map_to_list in Hin. exists r. auto.
  - intros (r & Hr & Hsh & ->). exists (k, r). split; [|reflexivity].
    apply list_elem_of_filter. split; [exact Hsh|]. now apply elem_of_map_to_list.
Qed.

Lemma snapshot_run (self : handler) (d : database) (t : table_t) :
  ready self = true ->
  tables d !! table self = Some t ->
  snapshot_table self <> table self ->
  exists self',
    snapshot self d
    = (Ok tt, self',
       {| tables := <[snapshot_table self := t]> (tables d);
          schema_versions := schema_versions d |})
    /\ ready self' = true /\ config self' = config self
    /\ logger self'
       = logger self ++ [{| lvl := INFO; text := "Successfully created snapshot" |}].
Proof.
  intros Hready Ht Hne. unfold snapshot.
  match goal with
  | |- context [get_connection self d ?b] =>
      destruct (get_connection_ready self d b Hready) as (self' & Hrun & Hr' & Hcfg & Hlog)
  end.
  exists self'. rewrite Hrun. clear Hrun. revert Hlog.
  unfold try_except, mbind, tx_bind.
  erewrite execute_ok; [|reflexivity|].
  2:{ unfold sql_recreate_like. cbn [working begin sess].
      rewrite lookup_delete_ne by exact Hne. rewrite Ht. reflexivity. }
  cbn [commit commit_session sess failed working begin committed logs].
  erewrite execute_ok; [|reflexivity|].
  2:{ unfold sql_copy_into, on_table. cbn [working begin sess tables schema_versions].
      rewrite lookup_insert_ne by exact Hne.
      rewrite lookup_delete_ne by exact Hne. rewrite Ht.
      rewrite lookup_insert_eq.
      rewrite bool_decide_eq_true_2
        by (rewrite dom_empty_L; apply (left_absorb_L ∅ (∩))).
      reflexivity. }
  cbn. rewrite insert_insert_eq, insert_delete_eq, (left_id_L ∅ (∪)). auto.
Qed.

Lemma snapshot_failed_run (self : handler) (d : database) :
  ready self = true ->
  tables d !! table self = None \/ snapshot_table self = table self ->
  exists self',
    snapshot self d = (Ok tt, self', d)
    /\ ready self' = true /\ config self' = config self
    /\ logger self' = logger self ++ [{| lvl := ERROR; text := "Error snapshotting" |}].
Proof.
  intros Hready Hcase. unfold snapshot.
  match goal with
  | |- context [get_connection self d ?b] => set (body := b)
  end.
  assert (Hbody : body {| sess := begin d; logs := logger self |}
                  = (Ok tt,
                     {| sess := begin d;
                        logs := logger self ++
                                [{| lvl := ERROR; text := "Error snapshotting" |}] |})).
  { subst body. unfold try_except, mbind at 1, tx_bind at 1.
    erewrite execute_raise; [reflexivity|reflexivity|].
    unfold sql_recreate_like. cbn [working begin sess].
    destruct Hcase as [Hnone | ->].
    - destruct (decide (snapshot_table self = table self)) as [->|Hne].
      + rewrite lookup_delete_eq. reflexivity.
      + rewrite lookup_delete_ne by exact Hne. rewrite Hnone. reflexivity.
    - rewrite lookup_delete_eq. reflexivity. }
  destruct (get_connection_ready self d body Hready) as (self' & Hrun & Hr' & Hcfg & Hlog).
  exists self'. rewrite Hrun. rewrite Hbody in Hlog |- *. cbn in Hlog |- *. auto.
Qed.

(** X10. [snapshot] never raises.  When the primary table exists and the
    snapshot table goes by another name, the snapshot table holds afterwards
    exactly the rows of the primary table, whatever it held before, every
    other table is as it was, and one info record is logged.  When the
    primary table does not exist, or is itself named as the snapshot table,
    the database is left as it was and one error is logged. *)
Theorem snapshot_copies_primary_table (self : handler) (d : database) :
  ready self = true ->
  exists self' d',
    snapshot self d = (Ok tt, self', d')
    /\ match tables d !! table self with
       | Some t =>
           if decide (snapshot_table self = table self) then
             d' = d
             /\ logger self'
                = logger self ++ [{| lvl := ERROR; text := "Error snapshotting" |}]
           else
             tables d' !! snapshot_table self = Some t
             /\ (forall name, name <> snapshot_table self ->
                   tables d' !! name = tables d !! name)
             /\ schema_versions d' = schema_versions d
             /\ logger self'
                = logger self ++
                  [{| lvl := INFO; text := "Successfully created snapshot" |}]
       | None =>
           d' = d
           /\ logger self'
              = logger self ++ [{| lvl := ERROR; text := "Error snapshotting" |}]
       end.
Proof.
  intros Hready.
  destruct (tables d !! table self) as [t|] eqn:Ht.
  - destruct (decide (snapshot_table self = table self)) as [Heq|Hne].
    + destruct (snapshot_failed_run self d Hready (or_intror Heq))
        as (self' & Hrun & _ & _ & Hlog).
      exists self', d. auto.
    + destruct (snapshot_run self d t Hready Ht Hne) as (self' & Hrun & _ & _ & Hlog).
      eexists self', _. split; [exact Hrun|]. cbn.
      split; [apply lookup_insert_eq|].
      split; [intros name Hn; apply lookup_insert_ne; congruence|]. auto.
  - destruct (snapshot_failed_run self d Hready (or_introl Ht))
      as (self' & Hrun & _ & _ & Hlog).
    exists self', d. auto.
Qed.


Lemma get_snapshot_run (shards : list Z) (self : handler) (d : database)
    (s : table_t) :
  ready self = true ->
  tables d !! snapshot_table self = Some s ->
  well_sized (dump_dtype self) s ->
  exists self' items,
    get_snapshot id_le shards self d
    = ({| yielded := items; stop := None |}, self', d)
    /\ (forall k vec,
          (k, vec) ∈ items
          <-> exists r, s !! k = Some r /\ r_shard r ∈ shards
                        /\ decode_embedding (dump_dtype self) (r_embedding r) = Ok vec)
    /\ (Total id_le -> Transitive id_le -> StronglySorted id_le (map fst items))
    /\ NoDup (map fst items)
    /\ ready self' = true /\ config self' = config self
    /\ (shards <> [] -> logger self' = logger self)
    /\ items
       = match shards with
         | [] => []
         | _ :: _ =>
             yielded
               (yield_each
                  (fun rec : pystr * option bytes =>
                     vec ← decode_embedding (dump_dtype self) (snd rec);
                     Ok (fst rec, vec))
                  (map (fun kr : pystr * row => (fst kr, r_embedding (snd kr)))
                     (order_by_doc_id id_le
                        (filter (fun kr : pystr * row => r_shard (snd kr) ∈ shards)
                                (map_to_list s)))))
         end.
Proof.
  intros Hready Hs Hws.
  destruct (decide (shards = [])) as [->|Hne].
  { (* the statement is refused; the error is logged and swallowed *)
    unfold get_snapshot.
    match goal with
    | |- context [get_connection self d ?b] => set (body := b)
    end.
    destruct (get_connection_ready self d body Hready)
      as (self' & Hrun & Hr' & Hcfg & _).
    assert (Hbody : body {| sess := begin d; logs := logger self |}
                    = ({| yielded := []; stop := None |},
                       {| sess := begin d;
                          logs := logger self ++
                                  [{| lvl := ERROR;
                                      text := "Error importing snapshot" |}] |})).
    { subst body. cbn beta.
      erewrite execute_raise; [|reflexivity|reflexivity]. reflexivity. }
    exists self', []. rewrite Hrun, Hbody.
    split; [reflexivity|].
    split.
    { intros k vec. split.
      - intros Hin. now apply elem_of_nil in Hin.
      - intros (r & _ & Hin & _). now apply elem_of_nil in Hin. }
    split; [intros; constructor|]. split; [constructor|].
    split; [exact Hr'|]. split; [exact Hcfg|]. split; [congruence|reflexivity]. }
  destruct (sql_select_snapshot_rows (snapshot_table self) shards d s Hs Hne)
    as (recs & Hsel & Hmem & Hsorted & Hnd).
  assert (Hrecs : recs
                  = map (fun kr : pystr * row => (fst kr, r_embedding (snd kr)))
                      (order_by_doc_id id_le
                         (filter (fun kr : pystr * row => r_shard (snd kr) ∈ shards)
                                 (map_to_list s)))).
  { pose proof Hsel as Hsel'. unfold sql_select_snapshot in Hsel'.
    rewrite in_tuple_nonempty in Hsel' by exact Hne.
    rewrite on_table_read, Hs in Hsel'. now injection Hsel'. }
  set (f := fun rec : pystr * option bytes =>
              vec ← decode_embedding (dump_dtype self) (snd rec); Ok (fst rec, vec)).
  assert (Hf : forall rec y, f rec = Ok y ->
             fst y = fst rec
             /\ decode_embedding (dump_dtype self) (snd rec) = Ok (snd y)).
  { intros rec y. subst f. cbn beta.
    destruct (decode_embedding _ _) as [v|]; cbn [mbind result_bind]; [|discriminate].
    intros [= <-]. auto. }
  destruct (yield_each_ok f recs) as (items & Hitems & Hall).
  { apply Forall_forall. intros [k emb] Hin.
    apply Hmem in Hin as (r & Hr & _ & ->).
    destruct (decode_embedding_well_sized _ s k r Hws Hr) as [vec Hvec].
    subst f. cbn. rewrite Hvec. eauto. }
  assert (Hids : map fst items = map fst recs).
  { clear -Hall Hf. induction Hall as [|rec y recs ys Hy _ IH]; [reflexivity|].
    cbn [map]. rewrite IH. f_equal. now apply Hf in Hy as [-> _]. }
  unfold get_snapshot. fold f.
  match goal with
  | |- context [get_connection self d ?b] => set (body := b)
  end.
  assert (Hbody : body {| sess := begin d; logs := logger self |}
                  = ({| yielded := items; stop := None |},
                     {| sess := begin d; logs := logger self |})).
  { subst body. cbn beta.
    erewrite execute_ok; [|reflexivity|exact Hsel].
    rewrite Hitems. reflexivity. }
  destruct (get_connection_ready self d body Hready) as (self' & Hrun & Hr' & Hcfg & Hlog).
  exists self', items. rewrite Hrun. rewrite Hbody in Hlog |- *.
  split; [reflexivity|].
  split; [|rewrite Hids; repeat (split; [now auto|]);
           destruct shards; [congruence|];
           fold f; rewrite <- Hrecs, Hitems; reflexivity].
  intros k vec. split.
  - intros Hin. apply (list_elem_of_lookup_1 items) in Hin as [i Hi].
    destruct (Forall2_lookup_r _ _ _ _ _ Hall Hi) as ([k' emb] & Hrec & Hfy).
    apply Hf in Hfy as (Hk & Hdec). cbn in Hk, Hdec. subst k'.
    apply list_elem_of_lookup_2 in Hrec.
    apply Hmem in Hrec as (r & Hr & Hsh & ->). exists r. auto.
  - intros (r & Hr & Hsh & Hdec).
    assert (Hin : (k, r_embedding r) ∈ recs) by (apply Hmem; exists r; auto).
    apply (list_elem_of_lookup_1 recs) in Hin as [i Hi].
    destruct (Forall2_lookup_l _ _ _ _ _ Hall Hi) as (y & Hy & Hfy).
    apply list_elem_of_lookup_2 in Hy.
    subst f. cbn in Hfy. rewrite Hdec in Hfy. cbn in Hfy. now injection Hfy as <-.
Qed.

(** X11. A snapshot is a point-in-time image: after [snapshot], a
    snapshot read yields one pair (id, embedding) for each row that the
    primary table held when the snapshot was taken and whose shard is among
    the requested ones, and nothing else, the identifiers in the order of
    [ORDER BY doc_id] and none twice; and it yields the same on every later
    database that still holds this snapshot table, whatever has been written
    to the primary table since. *)
Theorem snapshot_read_is_point_in_time (shards : list Z) (self : handler)
    (d : database) (t : table_t) :
  ready self = true ->
  tables d !! table self = Some t ->
  snapshot_table self <> table self ->
  well_sized (dump_dtype self) t ->
  exists self1 d1 items,
    snapshot self d = (Ok tt, self1, d1)
    /\ (forall k vec,
          (k, vec) ∈ items
          <-> exists r, t !! k = Some r /\ r_shard r ∈ shards
                        /\ decode_embedding (dump_dtype self) (r_embedding r) = Ok vec)
    /\ (Total id_le -> Transitive id_le -> StronglySorted id_le (map fst items))
    /\ NoDup (map fst items)
    /\ (forall d2,
          tables d2 !! snapshot_table self = Some t ->
          exists self2,
            get_snapshot id_le shards self1 d2
            = ({| yielded := items; stop := None |}, self2, d2))
    /\ tables d1 !! snapshot_table self = Some t.
Proof.
  intros Hready Ht Hne Hws.
  destruct (snapshot_run self d t Hready Ht Hne) as (self1 & Hsnap & Hr1 & Hcfg1 & _).
  assert (Hsn : snapshot_table self1 = snapshot_table self) by (now injection Hcfg1).
  assert (Hdt : dump_dtype self1 = dump_dtype self) by (now injection Hcfg1).
  assert (Hd1 : tables {| tables := <[snapshot_table self := t]> (tables d);
                          schema_versions := schema_versions d |}
                !! snapshot_table self1 = Some t)
    by (rewrite Hsn; cbn; apply lookup_insert_eq).
  destruct (get_snapshot_run shards self1 _ t Hr1 Hd1)
    as (self2 & items & Hrun & Hmem & Hsorted & Hnd & _ & _ & _ & Hitems).
  { now rewrite Hdt. }
  rewrite Hdt in Hmem.
  eexists self1, _, items. split; [exact Hsnap|].
  split; [exact Hmem|]. split; [exact Hsorted|]. split; [exact Hnd|].
  split; [|rewrite Hsn in Hd1; exact Hd1].
  intros d2 Hd2. rewrite <- Hsn in Hd2.
  destruct (get_snapshot_run shards self1 d2 t Hr1 Hd2)
    as (self3 & items' & Hrun' & _ & _ & _ & _ & _ & _ & Hitems').
  { now rewrite Hdt. }
  exists self3. rewrite Hrun'. now rewrite Hitems, Hitems'.
Qed.


(** ** Snapshot and delta together *)

Lemma get_delta_items (shards : list Z) (timestamp : Z) (self : handler)
    (d : database) (t : table_t) :
  ready self = true ->
  tables d !! table self = Some t ->
  well_sized (dump_dtype self) t ->
  shards <> [] ->
  exists self' items,
    _get_delta id_le shards timestamp self d
    = ({| yielded := items; stop := None |}, self', d)
    /\ (forall k vec u,
          (k, vec, u) ∈ items
          <-> exists r, t !! k = Some r /\ r_shard r ∈ shards
                        /\ timestamp < r_last_updated r
                        /\ u = r_last_updated r
                        /\ decode_embedding (dump_dtype self) (r_embedding r) = Ok vec)
    /\ ready self' = true /\ config self' = config self
    /\ logger self' = logger self.
Proof.
  intros Hready Ht Hws Hne.
  set (f := fun rec : pystr * option bytes * Z =>
              second_val ← decode_embedding (dump_dtype self) (snd (fst rec));
              Ok (fst (fst rec), second_val, snd rec)).
  assert (Hf : forall rec y, f rec = Ok y ->
             fst (fst y) = fst (fst rec) /\ snd y = snd rec
             /\ decode_embedding (dump_dtype self) (snd (fst rec)) = Ok (snd (fst y))).
  { intros rec y. subst f. cbn beta.
    destruct (decode_embedding _ _) as [v|]; cbn [mbind result_bind]; [|discriminate].
    intros [= <-]. auto. }
  destruct (get_delta_run id_le shards timestamp self d t Hready Ht Hne)
    as (self' & recs & Hsel & Hrun & Hr' & Hcfg & Hlog).
  fold f in Hrun.
  destruct (sql_select_delta_rows id_le (table self) shards timestamp d t Ht Hne)
    as (recs' & Hsel' & Hmem & _).
  rewrite Hsel in Hsel'. injection Hsel' as <-.
  destruct (yield_each_ok f recs) as (items & Hitems & Hall).
  { apply Forall_forall. intros [[k emb] u] Hin.
    apply Hmem in Hin as (r & Hr & _ & _ & -> & _).
    destruct (decode_embedding_well_sized _ t k r Hws Hr) as [vec Hvec].
    subst f. cbn. rewrite Hvec. eauto. }
  exists self', items. rewrite Hrun, Hitems.
  split; [reflexivity|]. split; [|auto].
  intros k vec u. split.
  - intros Hin. apply (list_elem_of_lookup_1 items) in Hin as [i Hi].
    destruct (Forall2_lookup_r _ _ _ _ _ Hall Hi) as ([[k' emb] u'] & Hrec & Hfy).
    apply Hf in Hfy as (Hk & Hu & Hdec). cbn in Hk, Hu, Hdec. subst k' u'.
    apply list_elem_of_lookup_2 in Hrec.
    apply Hmem in Hrec as (r & Hr & Hs & Hts & -> & ->).
    exists r. auto.
  - intros (r & Hr & Hs & Hts & -> & Hdec).
    assert (Hin : (k, r_embedding r, r_last_updated r) ∈ recs)
      by (apply Hmem; exists r; auto).
    apply (list_elem_of_lookup_1 recs) in Hin as [i Hi].
    destruct (Forall2_lookup_l _ _ _ _ _ Hall Hi) as (y & Hy & Hfy).
    apply list_elem_of_lookup_2 in Hy.
    subst f. cbn in Hfy. rewrite Hdec in Hfy. cbn in Hfy. now injection Hfy as <-.
Qed.

(** X12. A snapshot read followed by a delta read, for a list of shards
    that is not empty, misses no row.  When
    every row of the primary table that was not written after the boundary
    is in the snapshot table as it is in the primary table, each row of the
    primary table in the requested shards is yielded with its current
    embedding: by the snapshot read when it was last written at or before
    the boundary, by the delta read, with its [last_updated], when it was
    written after it.  Every triple of the delta is a current row written
    after the boundary. *)
Theorem snapshot_then_delta_covers_primary_table (shards : list Z) (timestamp : Z)
    (self : handler) (d : database) (s t : table_t) :
  ready self = true ->
  shards <> [] ->
  tables d !! snapshot_table self = Some s ->
  tables d !! table self = Some t ->
  well_sized (dump_dtype self) s ->
  well_sized (dump_dtype self) t ->
  (forall k r, t !! k = Some r -> r_last_updated r <= timestamp -> s !! k = Some r) ->
  exists self1 snap self2 delta,
    get_snapshot id_le shards self d
    = ({| yielded := snap; stop := None |}, self1, d)
    /\ _get_delta id_le shards timestamp self1 d
       = ({| yielded := delta; stop := None |}, self2, d)
    /\ (forall k r,
          t !! k = Some r -> r_shard r ∈ shards ->
          exists vec,
            decode_embedding (dump_dtype self) (r_embedding r) = Ok vec
            /\ if decide (r_last_updated r <= timestamp)
               then (k, vec) ∈ snap /\ forall v u, (k, v, u) ∉ delta
               else (k, vec, r_last_updated r) ∈ delta)
    /\ (forall k vec u,
          (k, vec, u) ∈ delta ->
          timestamp < u
          /\ exists r, t !! k = Some r /\ u = r_last_updated r
                       /\ decode_embedding (dump_dtype self) (r_embedding r) = Ok vec).
Proof.
  intros Hready Hne Hs Ht Hwss Hwst Hold.
  destruct (get_snapshot_run shards self d s Hready Hs Hwss)
    as (self1 & snap & Hsnap & Hmems & _ & _ & Hr1 & Hcfg1 & _).
  assert (Htab : table self1 = table self) by (now injection Hcfg1).
  assert (Hdt : dump_dtype self1 = dump_dtype self) by (now injection Hcfg1).
  rewrite <- Htab in Ht. rewrite <- Hdt in Hwst.
  destruct (get_delta_items shards timestamp self1 d t Hr1 Ht Hwst Hne)
    as (self2 & delta & Hdelta & Hmemd & _).
  rewrite Hdt in Hmemd, Hwst.
  exists self1, snap, self2, delta.
  split; [exact Hsnap|]. split; [exact Hdelta|]. split.
  - intros k r Hk Hsh.
    destruct (decode_embedding_well_sized _ t k r Hwst Hk) as [vec Hvec].
    exists vec. split; [exact Hvec|].
    destruct (decide (r_last_updated r <= timestamp)) as [Hle|Hgt].
    + split.
      * apply Hmems. exists r. auto.
      * intros v u Hin. apply Hmemd in Hin as (r' & Hk' & _ & Hts & _).
        rewrite Hk in Hk'. injection Hk' as <-. lia.
    + apply Hmemd. exists r. repeat split; auto. lia.
  - intros k vec u Hin. apply Hmemd in Hin as (r & Hk & _ & Hts & -> & Hdec).
    split; [exact Hts|]. exists r. auto.
Qed.


(** ** Timestamps *)

Lemma max_last_updated_spec (t : table_t) :
  match max_last_updated t with
  | None => t = ∅
  | Some v =>
      (exists k r, t !! k = Some r /\ r_last_updated r = v)
      /\ (forall k r, t !! k = Some r -> r_last_updated r <= v)
  end.
Proof.
  unfold max_last_updated.
  apply (map_fold_weak_ind
           (fun (b : option Z) (m : table_t) =>
              match b with
              | None => m = ∅
              | Some v =>
                  (exists k r, m !! k = Some r /\ r_last_updated r = v)
                  /\ (forall k r, m !! k = Some r -> r_last_updated r <= v)
              end)); [reflexivity|].
  intros i x m acc Hi IH. destruct acc as [v|].
  - destruct IH as [(k & r & Hk & Hr) Hmax]. split.
    + destruct (Z.max_spec v (r_last_updated x)) as [[_ ->]|[_ ->]].
      * exists i, x. split; [apply lookup_insert_eq|reflexivity].
      * exists k, r. split; [|exact Hr].
        rewrite lookup_insert_ne; [exact Hk|]. intros ->. congruence.
    + intros k' r' Hk'. destruct (decide (k' = i)) as [->|Hne].
      * rewrite lookup_insert_eq in Hk'. injection Hk' as <-. lia.
      * rewrite lookup_insert_ne in Hk' by auto.
        specialize (Hmax k' r' Hk'). lia.
  - subst m. split.
    + exists i, x. split; [apply lookup_insert_eq|reflexivity].
    + intros k' r' Hk'. destruct (decide (k' = i)) as [->|Hne].
      * rewrite lookup_insert_eq in Hk'. injection Hk' as <-. lia.
      * rewrite lookup_insert_ne in Hk' by auto. now rewrite lookup_empty in Hk'.
Qed.

Lemma sql_max_last_updated_run (name : string) (d : database) :
  sql_max_last_updated name d
  = match tables d !! name with
    | Some t => Ok (max_last_updated t, d)
    | None => Raise UndefinedTable
    end.
Proof. unfold sql_max_last_updated. apply on_table_read. Qed.

Lemma data_timestamp_run (self : handler) (d : database) :
  ready self = true ->
  exists self',
    _get_data_timestamp self d
    = (match tables d !! table self with
       | Some t => {| yielded := [max_last_updated t]; stop := None |}
       | None => {| yielded := []; stop := None |}
       end, self', d)
    /\ ready self' = true /\ config self' = config self
    /\ logger self'
       = match tables d !! table self with
         | Some _ => logger self
         | None => logger self ++
                   [{| lvl := ERROR; text := "Could not obtain timestamp from data" |}]
         end.
Proof.
  intros Hready. unfold _get_data_timestamp.
  match goal with
  | |- context [get_connection self d ?b] => set (body := b)
  end.
  destruct (get_connection_ready self d body Hready) as (self' & Hrun & Hr' & Hcfg & Hlog).
  exists self'. rewrite Hrun. clear Hrun. revert Hlog. subst body. cbn beta.
  pose proof (sql_max_last_updated_run (table self) d) as Hsql.
  destruct (tables d !! table self) as [t|].
  - erewrite execute_ok; [|reflexivity|exact Hsql]. cbn. auto.
  - erewrite execute_raise; [|reflexivity|exact Hsql]. cbn. auto.
Qed.

Lemma snapshot_timestamp_run (self : handler) (d : database) :
  ready self = true ->
  exists self',
    _get_snapshot_timestamp self d
    = (match tables d !! snapshot_table self with
       | Some t => {| yielded := [max_last_updated t]; stop := None |}
       | None => {| yielded := []; stop := None |}
       end, self', d)
    /\ ready self' = true /\ config self' = config self
    /\ logger self'
       = match tables d !! snapshot_table self with
         | Some _ => logger self
         | None => logger self ++
                   [{| lvl := ERROR; text := "Could not obtain timestamp from snapshot" |}]
         end.
Proof.
  intros Hready. unfold _get_snapshot_timestamp.
  match goal with
  | |- context [get_connection self d ?b] => set (body := b)
  end.
  destruct (get_connection_ready self d body Hready) as (self' & Hrun & Hr' & Hcfg & Hlog).
  exists self'. rewrite Hrun. clear Hrun. revert Hlog. subst body. cbn beta.
  pose proof (sql_max_last_updated_run (snapshot_table self) d) as Hsql.
  destruct (tables d !! snapshot_table self) as [t|].
  - erewrite execute_ok; [|reflexivity|exact Hsql]. cbn. auto.
  - erewrite execute_raise; [|reflexivity|exact Hsql]. cbn. auto.
Qed.

Lemma delta_empty_after (shards : list Z) (timestamp : Z) (self : handler)
    (d : database) (t : table_t) :
  ready self = true ->
  tables d !! table self = Some t ->
  shards <> [] ->
  (forall k r, t !! k = Some r -> r_last_updated r <= timestamp) ->
  exists self',
    _get_delta id_le shards timestamp self d
    = ({| yielded := []; stop := None |}, self', d).
Proof.
  intros Hready Ht Hne Hmax.
  destruct (get_delta_run id_le shards timestamp self d t Hready Ht Hne)
    as (self' & recs & Hsel & Hrun & _).
  destruct (sql_select_delta_rows id_le (table self) shards timestamp d t Ht Hne)
    as (recs' & Hsel' & Hmem & _).
  rewrite Hsel in Hsel'. injection Hsel' as <-.
  exists self'. rewrite Hrun. destruct recs as [|[[k emb] u] recs]; [reflexivity|].
  exfalso. destruct (proj1 (Hmem k emb u)) as (r & Hk & _ & Hts & _).
  - apply list_elem_of_here.
  - specialize (Hmax k r Hk). lia.
Qed.

(** X13. The data timestamp is the time of the latest write.  On a ready
    handler [_get_data_timestamp] yields one value: null when the primary
    table is empty, otherwise the [last_updated] of one of its rows that no
    row exceeds; a delta read from that timestamp on yields nothing, whatever
    the shards asked for, at least one.  When the table does not exist it yields nothing and logs
    one error instead of raising.  The database is unchanged throughout. *)
Theorem data_timestamp_is_latest_write (self : handler) (d : database) :
  ready self = true ->
  match tables d !! table self with
  | Some t =>
      exists self' m,
        _get_data_timestamp self d
        = ({| yielded := [m]; stop := None |}, self', d)
        /\ logger self' = logger self
        /\ match m with
           | None => t = ∅
           | Some v =>
               (exists k r, t !! k = Some r /\ r_last_updated r = v)
               /\ (forall k r, t !! k = Some r -> r_last_updated r <= v)
               /\ (forall shards, shards <> [] -> exists self2,
                     _get_delta id_le shards v self' d
                     = ({| yielded := []; stop := None |}, self2, d))
           end
  | None =>
      exists self' rec,
        _get_data_timestamp self d
        = ({| yielded := []; stop := None |}, self', d)
        /\ logger self' = logger self ++ [rec]
        /\ lvl rec = ERROR
  end.
Proof.
  intros Hready.
  destruct (data_timestamp_run self d Hready) as (self' & Hrun & Hr' & Hcfg & Hlog).
  destruct (tables d !! table self) as [t|] eqn:Ht.
  - exists self', (max_last_updated t). split; [exact Hrun|]. split; [exact Hlog|].
    pose proof (max_last_updated_spec t) as Hspec.
    destruct (max_last_updated t) as [v|]; [|exact Hspec].
    destruct Hspec as [Hatt Hmax]. split; [exact Hatt|]. split; [exact Hmax|].
    intros shards Hne.
    apply (delta_empty_after shards v self' d t Hr'); [|exact Hne|exact Hmax].
    assert (Htab : table self' = table self) by (now injection Hcfg).
    now rewrite Htab.
  - eexists self', _. split; [exact Hrun|]. split; [exact Hlog|]. reflexivity.
Qed.


Lemma snapshot_size_run (self : handler) (d : database) (s : table_t) :
  ready self = true ->
  tables d !! snapshot_table self = Some s ->
  exists self',
    get_snapshot_size self d = (Ok (Z.of_nat (size s)), self', d)
    /\ ready self' = true /\ config self' = config self
    /\ logger self' = logger self.
Proof.
  intros Hready Hs. unfold get_snapshot_size.
  match goal with
  | |- context [get_connection self d ?b] => set (body := b)
  end.
  destruct (get_connection_ready self d body Hready) as (self' & Hrun & Hr' & Hcfg & Hlog).
  exists self'. rewrite Hrun. clear Hrun. revert Hlog. subst body.
  unfold try_except.
  assert (Hsql : sql_count (snapshot_table self) d = Ok (Z.of_nat (size s), d))
    by (unfold sql_count; now rewrite on_table_read, Hs).
  erewrite execute_ok; [|reflexivity|exact Hsql]. cbn. auto.
Qed.

(** X14. What the snapshot records of the primary table.  After a
    successful [snapshot], the snapshot size is the number of rows that
    [get_size] counts, and the snapshot timestamp is the data timestamp: the
    two tables agree until the next write, so that a delta read from the
    snapshot timestamp on, for a list of shards that is not empty, yields
    nothing. *)
Theorem snapshot_agrees_with_primary_table (shards : list Z) (self : handler)
    (d : database) (t : table_t) :
  ready self = true ->
  tables d !! table self = Some t ->
  snapshot_table self <> table self ->
  shards <> [] ->
  exists self1 d1 self2 self3 self4 self5 m,
    snapshot self d = (Ok tt, self1, d1)
    /\ get_size self1 d1 = (Ok (Z.of_nat (size t)), self2, d1)
    /\ get_snapshot_size self2 d1 = (Ok (Z.of_nat (size t)), self3, d1)
    /\ _get_data_timestamp self3 d1
       = ({| yielded := [m]; stop := None |}, self4, d1)
    /\ _get_snapshot_timestamp self4 d1
       = ({| yielded := [m]; stop := None |}, self5, d1)
    /\ match m with
       | Some v =>
           exists self6,
             _get_delta id_le shards v self5 d1
             = ({| yielded := []; stop := None |}, self6, d1)
       | None => t = ∅
       end.
Proof.
  intros Hready Ht Hne Hshards.
  destruct (snapshot_run self d t Hready Ht Hne) as (self1 & Hsnap & Hr1 & Hcfg1 & _).
  set (d1 := {| tables := <[snapshot_table self := t]> (tables d);
                schema_versions := schema_versions d |}) in *.
  assert (Hs1 : tables d1 !! snapshot_table self = Some t) by apply lookup_insert_eq.
  assert (Ht1 : tables d1 !! table self = Some t).
  { subst d1. cbn. rewrite lookup_insert_ne by exact Hne. exact Ht. }
  assert (Hcfg : forall h, config h = config self ->
             table h = table self /\ snapshot_table h = snapshot_table self).
  { intros h Hh. now injection Hh. }
  destruct (Hcfg _ Hcfg1) as [Htab1 Hsn1].
  destruct (get_size_counts_rows self1 d1 t Hr1) as (self2 & Hsize & Hr2 & Hcfg2);
    [now rewrite Htab1|].
  rewrite Hcfg1 in Hcfg2. destruct (Hcfg _ Hcfg2) as [Htab2 Hsn2].
  destruct (snapshot_size_run self2 d1 t Hr2) as (self3 & Hssize & Hr3 & Hcfg3 & _);
    [now rewrite Hsn2|].
  rewrite Hcfg2 in Hcfg3. destruct (Hcfg _ Hcfg3) as [Htab3 Hsn3].
  destruct (data_timestamp_run self3 d1 Hr3) as (self4 & Hdts & Hr4 & Hcfg4 & _).
  rewrite Htab3, Ht1 in Hdts.
  rewrite Hcfg3 in Hcfg4. destruct (Hcfg _ Hcfg4) as [Htab4 Hsn4].
  destruct (snapshot_timestamp_run self4 d1 Hr4) as (self5 & Hsts & Hr5 & Hcfg5 & _).
  rewrite Hsn4, Hs1 in Hsts.
  rewrite Hcfg4 in Hcfg5. destruct (Hcfg _ Hcfg5) as [Htab5 Hsn5].
  exists self1, d1, self2, self3, self4, self5, (max_last_updated t).
  repeat (split; [assumption|]).
  pose proof (max_last_updated_spec t) as Hspec.
  destruct (max_last_updated t) as [v|]; [|exact Hspec].
  destruct Hspec as [_ Hmax].
  apply (delta_empty_after shards v self5 d1 t Hr5); [|exact Hshards|exact Hmax].
  now rewrite Htab5.
Qed.


(** ** The full dump *)

Lemma yield_each_raise {X Y} (f : X -> result Y) (xs : list X) (x : X) (e : exc) :
  x ∈ xs -> f x = Raise e ->
  (forall x' e', x' ∈ xs -> f x' = Raise e' -> e' = e) ->
  stop (yield_each f xs) = Some e.
Proof.
  induction xs as [|a xs IH]; intros Hin Hx Hall.
  - now apply elem_of_nil in Hin.
  - cbn [yield_each]. destruct (f a) as [y|e'] eqn:Ha.
    + cbn [stop]. apply elem_of_cons in Hin as [->|Hin]; [congruence|].
      apply IH; [exact Hin|exact Hx|].
      intros x' e'' Hx'. apply Hall. now apply list_elem_of_further.
    + cbn [stop]. f_equal. apply (Hall a); [apply list_elem_of_here|exact Ha].
Qed.

Lemma sql_select_all_rows (name : string) (d : database) (t : table_t) :
  tables d !! name = Some t ->
  exists recs,
    sql_select_all id_le name d = Ok (recs, d)
    /\ (forall k emb doc,
          (k, emb, doc) ∈ recs
          <-> exists r, t !! k = Some r /\ emb = r_embedding r /\ doc = r_doc r)
    /\ (Total id_le -> Transitive id_le ->
        StronglySorted id_le (map (fun rec => fst (fst rec)) recs))
    /\ NoDup (map (fun rec => fst (fst rec)) recs)
    /\ length recs = size t.
Proof.
  intros Ht. unfold sql_select_all. rewrite on_table_read, Ht.
  eexists. split; [reflexivity|].
  destruct (order_by_doc_id_spec
              (fun kr : pystr * row => (fst kr, r_embedding (snd kr), r_doc (snd kr)))
              (fun rec => fst (fst rec)) (map_to_list t))
    as (Hmem & Hsorted & Hnd & Hlen).
  { reflexivity. }
  { apply NoDup_fst_map_to_list. }
  split; [|split; [exact Hsorted|split; [exact Hnd|]]].
  - intros k emb doc. rewrite Hmem. split.
    + intros ([k' r] & Hin & Heq). apply elem_of_map_to_list in Hin.
      cbn in Heq. injection Heq as -> -> ->. exists r. auto.
    + intros (r & Hr & -> & ->). exists (k, r). split; [|reflexivity].
      now apply elem_of_map_to_list.
  - rewrite Hlen. apply length_map_to_list.
Qed.

Lemma get_generator_run (include_metas : bool) (self : handler) (d : database)
    (t : table_t) :
  ready self = true ->
  tables d !! table self = Some t ->
  exists self' recs,
    sql_select_all id_le (table self) d = Ok (recs, d)
    /\ get_generator id_le include_metas self d
       = (yield_each
            (fun rec : pystr * option bytes * option bytes =>
               vec ← decode_embedding float64 (snd (fst rec));
               Ok (fst (fst rec), vec, if include_metas then snd rec else None))
            recs, self', d)
    /\ ready self' = true /\ config self' = config self
    /\ logger self' = logger self.
Proof.
  intros Hready Ht.
  destruct (sql_select_all_rows (table self) d t Ht) as (recs & Hsel & _).
  unfold get_generator.
  match goal with
  | |- context [get_connection self d ?b] => set (body := b)
  end.
  destruct (get_connection_ready self d body Hready) as (self' & Hrun & Hr' & Hcfg & Hlog).
  exists self', recs. split; [exact Hsel|]. rewrite Hrun. clear Hrun. revert Hlog.
  subst body. cbn beta.
  erewrite execute_ok; [|reflexivity|exact Hsel].
  cbn [fst snd logs sess]. intros Hlog.
  split; [|auto]. f_equal.
  unfold conn_exit, commit_session, rollback_session.
  now destruct (raised _).
Qed.

(** X15. The full dump.  [get_generator] reads every embedding with
    numpy's default element type, eight bytes wide, whatever [dump_dtype]
    is.  When each stored embedding has a whole number of such elements it
    yields one triple for each row of the primary table and nothing else,
    in the order of [ORDER BY doc_id], as many triples as [get_size]
    counts; the third component is the stored payload, or null when
    [include_metas] is off.  When some stored embedding has not, the dump
    stops on a [ValueError].  The database and the log are unchanged. *)
Theorem get_generator_dumps_every_row (include_metas : bool) (self : handler)
    (d : database) (t : table_t) :
  ready self = true ->
  tables d !! table self = Some t ->
  exists self' r,
    get_generator id_le include_metas self d = (r, self', d)
    /\ logger self' = logger self
    /\ (well_sized float64 t ->
        stop r = None
        /\ (forall k vec doc,
              (k, vec, doc) ∈ yielded r
              <-> exists row, t !! k = Some row
                              /\ decode_embedding float64 (r_embedding row) = Ok vec
                              /\ doc = if include_metas then r_doc row else None)
        /\ (Total id_le -> Transitive id_le ->
            StronglySorted id_le (map (fun x => fst (fst x)) (yielded r)))
        /\ Z.of_nat (length (yielded r)) = Z.of_nat (size t))
    /\ (~ well_sized float64 t -> stop r = Some ValueError).
Proof.
  intros Hready Ht.
  set (f := fun rec : pystr * option bytes * option bytes =>
              vec ← decode_embedding float64 (snd (fst rec));
              Ok (fst (fst rec), vec, if include_metas then snd rec else None)).
  assert (Hf : forall rec y, f rec = Ok y ->
             fst (fst y) = fst (fst rec)
             /\ snd y = (if include_metas then snd rec else None)
             /\ decode_embedding float64 (snd (fst rec)) = Ok (snd (fst y))).
  { intros rec y. subst f. cbn beta.
    destruct (decode_embedding _ _) as [v|]; cbn [mbind result_bind]; [|discriminate].
    intros [= <-]. auto. }
  assert (Hferr : forall rec e, f rec = Raise e -> e = ValueError).
  { intros [[k emb] doc] e. subst f. cbn. destruct emb as [b|]; cbn; [|discriminate].
    unfold frombuffer. destruct (_ =? 0); cbn; [discriminate|]. now intros [= <-]. }
  destruct (get_generator_run include_metas self d t Hready Ht)
    as (self' & recs & Hsel & Hrun & _ & _ & Hlog).
  fold f in Hrun.
  destruct (sql_select_all_rows (table self) d t Ht)
    as (recs' & Hsel' & Hmem & Hsorted & _ & Hlen).
  rewrite Hsel in Hsel'. injection Hsel' as <-.
  eexists self', _. split; [exact Hrun|]. split; [exact Hlog|]. split.
  - intros Hws.
    destruct (yield_each_ok f recs) as (items & Hitems & Hall).
    { apply Forall_forall. intros [[k emb] doc] Hin.
      apply Hmem in Hin as (r & Hr & -> & _).
      destruct (decode_embedding_well_sized _ t k r Hws Hr) as [vec Hvec].
      subst f. cbn. rewrite Hvec. eauto. }
    rewrite Hitems. cbn [stop yielded].
    assert (Hids : map (fun x : pystr * option ndarray * option bytes => fst (fst x)) items
                   = map (fun rec : pystr * option bytes * option bytes => fst (fst rec))
                       recs).
    { clear -Hall Hf. induction Hall as [|rec y recs ys Hy _ IH]; [reflexivity|].
      cbn [map]. rewrite IH. f_equal. now apply Hf in Hy as [-> _]. }
    split; [reflexivity|]. split; [|split].
    + intros k vec doc. split.
      * intros Hin. apply (list_elem_of_lookup_1 items) in Hin as [i Hi].
        destruct (Forall2_lookup_r _ _ _ _ _ Hall Hi) as ([[k' emb] doc'] & Hrec & Hfy).
        apply Hf in Hfy as (Hk & Hdoc & Hdec). cbn in Hk, Hdoc, Hdec. subst k' doc.
        apply list_elem_of_lookup_2 in Hrec.
        apply Hmem in Hrec as (r & Hr & -> & ->). exists r. auto.
      * intros (r & Hr & Hdec & ->).
        assert (Hin : (k, r_embedding r, r_doc r) ∈ recs)
          by (apply Hmem; exists r; auto).
        apply (list_elem_of_lookup_1 recs) in Hin as [i Hi].
        destruct (Forall2_lookup_l _ _ _ _ _ Hall Hi) as (y & Hy & Hfy).
        apply list_elem_of_lookup_2 in Hy.
        subst f. cbn in Hfy. rewrite Hdec in Hfy. cbn in Hfy. now injection Hfy as <-.
    + intros Htot Htrans. rewrite Hids. now apply Hsorted.
    + rewrite <- Hlen. f_equal. symmetry. exact (Forall2_length _ _ _ Hall).
  - intros Hnws.
    assert (Hbad : exists k r, t !! k = Some r
                     /\ exists e, decode_embedding float64 (r_embedding r) = Raise e).
    { assert (Hd : forall (k : pystr) (x : row),
                Decision (match r_embedding x with
                          | Some b => Z.of_nat (length b) mod itemsize float64 = 0
                          | None => True
                          end))
        by (intros ? x; destruct (r_embedding x); apply _).
      unfold well_sized in Hnws. apply map_not_Forall in Hnws; [|exact Hd].
      destruct Hnws as (k & r & Hr & Hno). exists k, r. split; [exact Hr|].
      destruct (r_embedding r) as [b|]; [|now destruct Hno].
      cbn. unfold frombuffer. destruct (Z.eqb_spec (Z.of_nat (length b) mod itemsize float64) 0).
      - contradiction.
      - cbn. eauto. }
    destruct Hbad as (k & r & Hr & e & Hdec).
    apply (yield_each_raise f recs (k, r_embedding r, r_doc r)).
    + apply Hmem. exists r. auto.
    + subst f. cbn. rewrite Hdec. cbn.
      f_equal. apply (Hferr (k, r_embedding r, r_doc r)). cbn. now rewrite Hdec.
    + intros x' e' _. apply Hferr.
Qed.


(** ** Construction on a database without the managed table *)



(** ** Calls without a connection *)

Lemma get_connection_unavailable {R} `{Outcome R} (self : handler) (d : database)
    (body : txstate -> R * txstate) (e : exc) :
  _get_connection self = Raise e ->
  get_connection self d body = (throw UnboundLocalError, self, d).
Proof. intros He. unfold get_connection. now rewrite He. Qed.

(** X17. When the pool hands out no connection (it was never created, it
    is closed, or it is exhausted), every operation that works on the
    database raises [UnboundLocalError], the error of the [finally] clause
    of [get_connection], whatever the pool raised; a generator does so
    before its first item.  This holds also for [snapshot], [get_snapshot]
    and [get_snapshot_size], whose own error handling lies inside the
    connection block.  The handler, its log and the database are left as
    they are. *)
Theorem no_connection_no_operation (self : handler) (d : database) (e : exc)
    (docs : list Document) (now timestamp : Z) (flag : bool) (shards : list Z) :
  _get_connection self = Raise e ->
  add cast to_bytes docs now self d = (Raise UnboundLocalError, self, d)
  /\ update cast to_bytes docs now self d = (Raise UnboundLocalError, self, d)
  /\ delete_ docs flag now self d = (Raise UnboundLocalError, self, d)
  /\ cleanup self d = (Raise UnboundLocalError, self, d)
  /\ clear self d = (Raise UnboundLocalError, self, d)
  /\ get_size self d = (Raise UnboundLocalError, self, d)
  /\ snapshot self d = (Raise UnboundLocalError, self, d)
  /\ get_snapshot_size self d = (Raise UnboundLocalError, self, d)
  /\ search from_bytes docs flag self d
     = ({| yielded := []; stop := Some UnboundLocalError |}, self, d)
  /\ get_snapshot id_le shards self d
     = ({| yielded := []; stop := Some UnboundLocalError |}, self, d)
  /\ _get_delta id_le shards timestamp self d
     = ({| yielded := []; stop := Some UnboundLocalError |}, self, d)
  /\ get_generator id_le flag self d
     = ({| yielded := []; stop := Some UnboundLocalError |}, self, d)
  /\ _get_snapshot_timestamp self d
     = ({| yielded := []; stop := Some UnboundLocalError |}, self, d)
  /\ _get_data_timestamp self d
     = ({| yielded := []; stop := Some UnboundLocalError |}, self, d).
Proof.
  intros He.
  unfold add, update, delete_, cleanup, clear, get_size, snapshot, get_snapshot_size,
    search, get_snapshot, _get_delta, get_generator, _get_snapshot_timestamp,
    _get_data_timestamp.
  repeat split; now rewrite (get_connection_unavailable _ _ _ e He).
Qed.

(** X18. [close] closes the pool once: on a handler with an open pool it
    returns normally and changes neither the log nor the database; the
    handler still counts as initialised, but its pool hands out no
    connection any more, so that a later operation raises
    [UnboundLocalError], and a second [close] raises the pool's error. *)
Theorem close_ends_the_handler (self : handler) (d : database) :
  ready self = true ->
  exists self1,
    close self d = (Ok tt, self1, d)
    /\ config self1 = config self
    /\ logger self1 = logger self
    /\ initialized self1 = true
    /\ _get_connection self1 = Raise PoolError
    /\ (forall d', close self1 d' = (Raise PoolError, self1, d'))
    /\ (forall d', get_size self1 d' = (Raise UnboundLocalError, self1, d')).
Proof.
  unfold ready, pool_ready, close. intros Hready.
  destruct (postgreSQL_pool self) as [p|] eqn:Hp; [|discriminate].
  unfold closeall. destruct (closed p) eqn:Hclosed; [discriminate|].
  eexists. split; [reflexivity|].
  split; [reflexivity|]. split; [reflexivity|]. split; [reflexivity|].
  assert (Hget : _get_connection
                   (set_pool self
                      (Some {| closed := true; minconn := minconn p; maxconn := maxconn p;
                               idle := idle p; used := used p; next_conn := next_conn p;
                               events := events p |})) = Raise PoolError) by reflexivity.
  split; [exact Hget|]. split.
  - intros d'. reflexivity.
  - intros d'. unfold get_size. now rewrite (get_connection_unavailable _ _ _ _ Hget).
Qed.

(** X19. A handler constructed in dry-run mode touches nothing and can do
    nothing: the constructor leaves the database as it is, whatever it
    holds, and logs one line; the handler does not count as initialised;
    [close] raises [AttributeError], since the pool attribute was never
    assigned, and an operation on the database raises
    [UnboundLocalError]. *)
Theorem dry_run_handler_is_inert (table_name : string) (max_connections : nat)
    (dt : dtype) (parts : Z) (mute : bool) (d : database) :
  exists self,
    __init__ table_name max_connections dt true parts mute d = (Ok self, d)
    /\ config self = (table_name, dt, parts, "snapshot"%string, mute)
    /\ initialized self = false
    /\ length (logger self) = 1%nat
    /\ (forall d', close self d' = (Raise AttributeError, self, d'))
    /\ (forall d', get_size self d' = (Raise UnboundLocalError, self, d'))
    /\ (forall d', snapshot self d' = (Raise UnboundLocalError, self, d')).
Proof.
  eexists. split; [reflexivity|].
  split; [reflexivity|]. split; [reflexivity|]. split; [reflexivity|].
  split; [|split]; intros d'.
  - reflexivity.
  - unfold get_size. now rewrite (get_connection_unavailable _ _ _ AttributeError).
  - unfold snapshot. now rewrite (get_connection_unavailable _ _ _ AttributeError).
Qed.


(** ** Tombstones *)

Lemma add_existing_id_run (docs : list Document) (now : Z) (self : handler)
    (d : database) (t : table_t) (x : Document) :
  ready self = true ->
  tables d !! table self = Some t ->
  partitions self <> 0 ->
  Forall (fun x => exists msg, Utf8.encode (id x) = Ok msg) docs ->
  x ∈ docs -> is_Some (t !! id x) ->
  exists self',
    add cast to_bytes docs now self d = (Ok tt, self', d)
    /\ ready self' = true /\ config self' = config self.
Proof.
  intros Hready Ht Hparts Henc Hx Hsome.
  set (f := fun doc0 : Document =>
              shard ← _get_next_shard self (id doc0);
              Ok (id doc0,
                  (fun e => tobytes (astype cast e (dump_dtype self))) <$> embedding doc0,
                  doc_without_embedding to_bytes doc0, shard)).
  destruct (comprehension_ok f docs) as (args & Hc & Hall).
  { eapply Forall_impl; [exact Henc|]. intros y Hy. subst f. cbn beta.
    destruct (get_next_shard_ok self (id y) Hparts Hy) as [sh ->].
    eexists. reflexivity. }
  destruct (add_on_unique_violation docs now self d args Hready Hc)
    as (self' & Hrun & _ & Hr' & Hcfg).
  { apply (execute_batch_insert_conflict (table self) now args
             {| sess := begin d; logs := logger self |} t);
      [reflexivity|exact Ht|].
    apply (list_elem_of_lookup_1 docs) in Hx as [i Hi].
    destruct (Forall2_lookup_l _ _ _ _ _ Hall Hi) as (a & Ha & Hfa).
    exists a. split; [now apply list_elem_of_lookup_2 in Ha|].
    apply (add_args_id cast to_bytes) in Hfa as [-> _]. exact Hsome. }
  exists self'. auto.
Qed.

Lemma update_one_run (x : Document) (e : ndarray) (now : Z) (self : handler)
    (d : database) (t : table_t) :
  ready self = true ->
  tables d !! table self = Some t ->
  embedding x = Some e ->
  exists self',
    update cast to_bytes [x] now self d
    = (Ok tt, self',
       {| tables :=
            <[table self :=
                alter (fun r => {| r_embedding := Some (tobytes (astype cast e (dump_dtype self)));
                                   r_doc := Some (doc_without_embedding to_bytes x);
                                   r_shard := r_shard r;
                                   r_last_updated := now |}) (id x) t]> (tables d);
          schema_versions := schema_versions d |})
    /\ ready self' = true /\ config self' = config self
    /\ logger self' = logger self.
Proof.
  intros Hready Ht He.
  pose proof (update_body cast to_bytes [x] now self d t Ht) as Hbody.
  cbn zeta in Hbody. unfold update.
  match goal with
  | |- context [get_connection self d ?b] => set (body := b) in *
  end.
  cbn [comprehension] in Hbody. rewrite He in Hbody.
  cbn [mbind result_bind fold_left fst snd] in Hbody.
  destruct (get_connection_ready self d body Hready) as (self' & Hrun & Hr' & Hcfg & Hlog).
  exists self'. rewrite Hrun. rewrite Hbody in Hlog |- *.
  split; [reflexivity|]. auto.
Qed.

(** X20. A tombstone keeps its identifier taken.  After the soft deletion
    of a stored document, [add] of a document with that identifier is
    rejected as a duplicate and changes nothing, while [update] writes the
    new embedding and payload into the tombstone, under the shard the row
    had, and leaves the other rows as they were; [search] then finds the
    document again. *)
Theorem tombstone_is_revived_by_update_not_by_add (x q rd : Document) (e : ndarray)
    (now now2 : Z) (self : handler) (d : database) (t : table_t) (r : row) :
  ready self = true ->
  tables d !! table self = Some t ->
  t !! id x = Some r ->
  embedding x = Some e ->
  partitions self <> 0 ->
  (exists msg, Utf8.encode (id x) = Ok msg) ->
  from_bytes (doc_without_embedding to_bytes x) = Ok rd ->
  id q = id x ->
  exists self1 d1 self2 self3 d3 t3 self4,
    delete_ [x] true now self d = (Ok tt, self1, d1)
    /\ add cast to_bytes [x] now2 self1 d1 = (Ok tt, self2, d1)
    /\ update cast to_bytes [x] now2 self2 d1 = (Ok tt, self3, d3)
    /\ tables d3 !! table self = Some t3
    /\ t3 !! id x
       = Some {| r_embedding := Some (tobytes (astype cast e (dump_dtype self)));
                 r_doc := Some (doc_without_embedding to_bytes x);
                 r_shard := r_shard r;
                 r_last_updated := now2 |}
    /\ (forall k, k <> id x -> t3 !! k = t !! k)
    /\ search from_bytes [q] false self3 d3
       = ({| yielded := [ {| id := id rd; embedding := embedding rd;
                             content := content rd; scores := scores q |} ];
             stop := None |}, self4, d3).
Proof.
  intros Hready Ht Hx He Hparts Henc Hrd Hq.
  assert (Hcfg : forall h, config h = config self ->
             table h = table self /\ dump_dtype h = dump_dtype self
             /\ partitions h = partitions self).
  { intros h Hh. now injection Hh. }
  (* the soft deletion *)
  destruct (soft_delete_rewrites_rows [x] now self d t Hready Ht)
    as (self1 & Hdel & Hr1 & Hcfg1).
  cbn [map fold_left] in Hdel.
  set (tomb := fun r : row => {| r_embedding := None; r_doc := None;
                                 r_shard := r_shard r; r_last_updated := now |}) in *.
  set (d1 := {| tables := <[table self := alter tomb (id x) t]> (tables d);
                schema_versions := schema_versions d |}) in *.
  destruct (Hcfg _ Hcfg1) as (Htab1 & Hdt1 & Hp1).
  assert (Ht1 : tables d1 !! table self = Some (alter tomb (id x) t))
    by apply lookup_insert_eq.
  assert (Hx1 : alter tomb (id x) t !! id x = Some (tomb r))
    by (rewrite lookup_alter_eq, Hx; reflexivity).
  (* the insertion is refused *)
  destruct (add_existing_id_run [x] now2 self1 d1 (alter tomb (id x) t) x Hr1)
    as (self2 & Hadd & Hr2 & Hcfg2).
  { now rewrite Htab1. }
  { now rewrite Hp1. }
  { repeat constructor. exact Henc. }
  { apply list_elem_of_here. }
  { rewrite Hx1. eauto. }
  rewrite Hcfg1 in Hcfg2. destruct (Hcfg _ Hcfg2) as (Htab2 & Hdt2 & Hp2).
  (* the update goes through *)
  destruct (update_one_run x e now2 self2 d1 (alter tomb (id x) t) Hr2)
    as (self3 & Hupd & Hr3 & Hcfg3 & _).
  { now rewrite Htab2. }
  { exact He. }
  rewrite Htab2, Hdt2 in Hupd. rewrite Hcfg2 in Hcfg3.
  destruct (Hcfg _ Hcfg3) as (Htab3 & Hdt3 & _).
  set (new := fun r : row =>
                {| r_embedding := Some (tobytes (astype cast e (dump_dtype self)));
                   r_doc := Some (doc_without_embedding to_bytes x);
                   r_shard := r_shard r; r_last_updated := now2 |}) in *.
  set (t3 := alter new (id x) (alter tomb (id x) t)) in *.
  set (d3 := {| tables := <[table self := t3]> (tables d1);
                schema_versions := schema_versions d1 |}) in *.
  assert (Ht3 : tables d3 !! table self = Some t3) by apply lookup_insert_eq.
  assert (Hx3 : t3 !! id x = Some (new (tomb r))).
  { subst t3. rewrite lookup_alter_eq, Hx1. reflexivity. }
  (* the document is found again *)
  destruct (search_run [q] false self3 d3 Hr3) as (self4 & Hsearch & _).
  rewrite Htab3, Ht3 in Hsearch.
  exists self1, d1, self2, self3, d3, t3, self4.
  split; [exact Hdel|]. split; [exact Hadd|]. split; [exact Hupd|].
  split; [exact Ht3|]. split; [exact Hx3|]. split.
  - intros k Hk. subst t3. now rewrite !lookup_alter_ne by auto.
  - rewrite Hsearch. cbn [yield_each]. unfold retrieve.
    rewrite Hq, Hx3. cbn [new r_doc r_embedding]. rewrite Hrd.
    reflexivity.
Qed.


(** ** Reads by shard *)

(** X21. Snapshot reads for disjoint lists of shards share no
    identifier, and together they yield every row of the snapshot table
    whose shard is in one of the two lists: the rows are divided among the
    readers by their shard, none is read twice and none is left out. *)
Theorem snapshot_reads_divide_rows_by_shard (shards1 shards2 : list Z)
    (self : handler) (d : database) (s : table_t) :
  ready self = true ->
  tables d !! snapshot_table self = Some s ->
  well_sized (dump_dtype self) s ->
  (forall z, z ∈ shards1 -> z ∉ shards2) ->
  exists self1 items1 self2 items2,
    get_snapshot id_le shards1 self d
    = ({| yielded := items1; stop := None |}, self1, d)
    /\ get_snapshot id_le shards2 self1 d
       = ({| yielded := items2; stop := None |}, self2, d)
    /\ (forall k, k ∈ map fst items1 -> k ∉ map fst items2)
    /\ (forall k r,
          s !! k = Some r -> r_shard r ∈ shards1 ++ shards2 ->
          k ∈ map fst items1 \/ k ∈ map fst items2)
    /\ (forall k, k ∈ map fst items1 ++ map fst items2 ->
          exists r, s !! k = Some r /\ r_shard r ∈ shards1 ++ shards2).
Proof.
  intros Hready Hs Hws Hdisj.
  destruct (get_snapshot_run shards1 self d s Hready Hs Hws)
    as (self1 & items1 & Hrun1 & Hmem1 & _ & _ & Hr1 & Hcfg1 & _).
  assert (Hsn : snapshot_table self1 = snapshot_table self) by (now injection Hcfg1).
  assert (Hdt : dump_dtype self1 = dump_dtype self) by (now injection Hcfg1).
  destruct (get_snapshot_run shards2 self1 d s Hr1) as
    (self2 & items2 & Hrun2 & Hmem2 & _); [now rewrite Hsn|now rewrite Hdt|].
  rewrite Hdt in Hmem2.
  assert (Hin1 : forall k, k ∈ map fst items1 ->
                   exists r, s !! k = Some r /\ r_shard r ∈ shards1).
  { intros k Hk. apply list_elem_of_fmap in Hk as ([k' vec] & -> & Hin).
    apply Hmem1 in Hin as (r & Hr & Hsh & _). eauto. }
  assert (Hin2 : forall k, k ∈ map fst items2 ->
                   exists r, s !! k = Some r /\ r_shard r ∈ shards2).
  { intros k Hk. apply list_elem_of_fmap in Hk as ([k' vec] & -> & Hin).
    apply Hmem2 in Hin as (r & Hr & Hsh & _). eauto. }
  exists self1, items1, self2, items2.
  split; [exact Hrun1|]. split; [exact Hrun2|]. split; [|split].
  - intros k Hk1 Hk2.
    destruct (Hin1 k Hk1) as (r & Hr & Hsh1).
    destruct (Hin2 k Hk2) as (r' & Hr' & Hsh2).
    rewrite Hr in Hr'. injection Hr' as <-. exact (Hdisj _ Hsh1 Hsh2).
  - intros k r Hr Hsh.
    destruct (decode_embedding_well_sized _ s k r Hws Hr) as [vec Hvec].
    apply elem_of_app in Hsh as [Hsh|Hsh]; [left|right].
    + apply list_elem_of_fmap. exists (k, vec). split; [reflexivity|].
      apply Hmem1. eauto.
    + apply list_elem_of_fmap. exists (k, vec). split; [reflexivity|].
      apply Hmem2. eauto.
  - intros k Hk. apply elem_of_app in Hk as [Hk|Hk].
    + destruct (Hin1 k Hk) as (r & Hr & Hsh). exists r. split; [exact Hr|].
      apply elem_of_app. now left.
    + destruct (Hin2 k Hk) as (r & Hr & Hsh). exists r. split; [exact Hr|].
      apply elem_of_app. now right.
Qed.

(** X22. What [add] stores reaches the replicas.  With a positive number
    of partitions, every document of a stored batch is yielded, with the
    time of the call, by a delta read from an earlier timestamp on over a
    list of shards that holds every number from zero up to the number of
    partitions: the shard that [add] computes is one of those that the
    readers ask for. *)
Theorem added_documents_reach_the_delta (docs : list Document) (now timestamp : Z)
    (shards : list Z) (self : handler) (d : database) (t : table_t) :
  ready self = true ->
  tables d !! table self = Some t ->
  0 < partitions self ->
  Forall (fun x => exists msg, Utf8.encode (id x) = Ok msg) docs ->
  NoDup (map id docs) ->
  (forall x, x ∈ docs -> t !! id x = None) ->
  well_sized (dump_dtype self) t ->
  (forall x e, x ∈ docs -> embedding x = Some e ->
     Z.of_nat (length (tobytes (astype cast e (dump_dtype self))))
       mod itemsize (dump_dtype self) = 0) ->
  timestamp < now ->
  (forall z, 0 <= z < partitions self -> z ∈ shards) ->
  exists self1 d1 self2 items,
    add cast to_bytes docs now self d = (Ok tt, self1, d1)
    /\ _get_delta id_le shards timestamp self1 d1
       = ({| yielded := items; stop := None |}, self2, d1)
    /\ (forall x, x ∈ docs ->
          exists vec,
            decode_embedding (dump_dtype self)
              ((fun e => tobytes (astype cast e (dump_dtype self))) <$> embedding x)
            = Ok vec
            /\ (id x, vec, now) ∈ items).
Proof.
  intros Hready Ht Hparts Henc Hnd Hfresh Hws Hcast Hts Hshards.
  destruct (add_inserts_rows cast to_bytes docs now self d t Hready Ht
              ltac:(lia) Henc Hnd Hfresh)
    as (self1 & t' & Hadd & Hr1 & Hcfg1 & _ & Hrows & Hother).
  assert (Htab : table self1 = table self) by (now injection Hcfg1).
  assert (Hdt : dump_dtype self1 = dump_dtype self) by (now injection Hcfg1).
  set (d1 := {| tables := <[table self := t']> (tables d);
                schema_versions := schema_versions d |}) in *.
  assert (Ht1 : tables d1 !! table self1 = Some t')
    by (rewrite Htab; apply lookup_insert_eq).
  assert (Hws' : well_sized (dump_dtype self1) t').
  { rewrite Hdt. intros k r Hk.
    destruct (decide (k ∈ map id docs)) as [Hin|Hout].
    - apply list_elem_of_fmap in Hin as (x & -> & Hx).
      destruct (Hrows x Hx) as (sh & _ & Hrow). rewrite Hrow in Hk.
      injection Hk as <-. cbn [r_embedding].
      destruct (embedding x) as [e|] eqn:He; cbn [fmap option_fmap option_map]; [|exact I].
      now apply (Hcast x e).
    - rewrite (Hother k Hout) in Hk. exact (Hws k r Hk). }
  assert (Hne : shards <> []).
  { intros ->. specialize (Hshards 0 ltac:(lia)). now apply elem_of_nil in Hshards. }
  destruct (get_delta_items shards timestamp self1 d1 t' Hr1 Ht1 Hws' Hne)
    as (self2 & items & Hdelta & Hmem & _).
  rewrite Hdt in Hmem.
  exists self1, d1, self2, items.
  split; [exact Hadd|]. split; [exact Hdelta|].
  intros x Hx. destruct (Hrows x Hx) as (sh & Hsh & Hrow).
  destruct (decode_embedding_well_sized _ t' (id x) _ Hws' Hrow) as [vec Hvec].
  rewrite Hdt in Hvec. cbn [r_embedding] in Hvec.
  exists vec. split; [exact Hvec|].
  apply Hmem. eexists. split; [exact Hrow|]. cbn [r_shard r_last_updated r_embedding].
  split; [|split; [exact Hts|split; [reflexivity|exact Hvec]]].
  apply Hshards.
  rewrite Forall_forall in Henc. destruct (Henc x Hx) as [msg Hmsg].
  rewrite (get_next_shard_formula self (id x) msg Hmsg) in Hsh by lia.
  injection Hsh as <-. unfold shard_for. apply Z.mod_pos_bound. exact Hparts.
Qed.


(** X23. How a deletion reaches the replicas.  After the soft deletion of
    a stored document, a delta read from an earlier timestamp on, over
    shards that hold the shard of its row, yields its identifier once, with
    a null embedding and the time of the deletion.  After a hard deletion
    no delta read yields the identifier at all: the deletion leaves no trace
    that a delta could carry.  (A delta read for no shard at all raises
    instead.) *)
Theorem soft_deletion_is_in_the_delta_hard_deletion_is_not (x : Document)
    (now timestamp : Z) (shards : list Z) (self : handler) (d : database)
    (t : table_t) (r : row) :
  ready self = true ->
  tables d !! table self = Some t ->
  t !! id x = Some r ->
  r_shard r ∈ shards ->
  timestamp < now ->
  well_sized (dump_dtype self) t ->
  (exists self1 d1 self2 items,
     delete_ [x] true now self d = (Ok tt, self1, d1)
     /\ _get_delta id_le shards timestamp self1 d1
        = ({| yielded := items; stop := None |}, self2, d1)
     /\ (id x, None, now) ∈ items
     /\ (forall vec u, (id x, vec, u) ∈ items -> vec = None /\ u = now))
  /\ (exists self1 d1,
        delete_ [x] false now self d = (Ok tt, self1, d1)
        /\ forall shards2 timestamp2, shards2 <> [] -> exists self2 items,
             _get_delta id_le shards2 timestamp2 self1 d1
             = ({| yielded := items; stop := None |}, self2, d1)
             /\ forall vec u, (id x, vec, u) ∉ items).
Proof.
  intros Hready Ht Hx Hsh Hts Hws.
  assert (Hcfg : forall h, config h = config self ->
             table h = table self /\ dump_dtype h = dump_dtype self).
  { intros h Hh. now injection Hh. }
  split.
  - destruct (soft_delete_rewrites_rows [x] now self d t Hready Ht)
      as (self1 & Hdel & Hr1 & Hcfg1).
    cbn [map fold_left] in Hdel.
    set (tomb := fun r : row => {| r_embedding := None; r_doc := None;
                                   r_shard := r_shard r; r_last_updated := now |}) in *.
    set (d1 := {| tables := <[table self := alter tomb (id x) t]> (tables d);
                  schema_versions := schema_versions d |}) in *.
    destruct (Hcfg _ Hcfg1) as (Htab1 & Hdt1).
    assert (Ht1 : tables d1 !! table self1 = Some (alter tomb (id x) t))
      by (rewrite Htab1; apply lookup_insert_eq).
    assert (Hx1 : alter tomb (id x) t !! id x = Some (tomb r))
      by (rewrite lookup_alter_eq, Hx; reflexivity).
    assert (Hws1 : well_sized (dump_dtype self1) (alter tomb (id x) t)).
    { rewrite Hdt1. intros k r' Hk. destruct (decide (k = id x)) as [->|Hne].
      - rewrite Hx1 in Hk. injection Hk as <-. exact I.
      - rewrite lookup_alter_ne in Hk by auto. exact (Hws k r' Hk). }
    assert (Hne : shards <> []).
    { intros ->. now apply elem_of_nil in Hsh. }
    destruct (get_delta_items shards timestamp self1 d1 _ Hr1 Ht1 Hws1 Hne)
      as (self2 & items & Hdelta & Hmem & _).
    exists self1, d1, self2, items.
    split; [exact Hdel|]. split; [exact Hdelta|]. split.
    + apply Hmem. exists (tomb r). split; [exact Hx1|]. cbn. auto.
    + intros vec u Hin. apply Hmem in Hin as (r' & Hr' & _ & _ & -> & Hdec).
      rewrite Hx1 in Hr'. injection Hr' as <-. cbn in Hdec.
      split; [congruence|reflexivity].
  - destruct (hard_delete_run [x] now self d t Hready Ht)
      as (self1 & Hdel & Hr1 & Hcfg1 & _).
    cbn [map fold_left] in Hdel.
    set (d1 := {| tables := <[table self := delete (id x) t]> (tables d);
                  schema_versions := schema_versions d |}) in *.
    destruct (Hcfg _ Hcfg1) as (Htab1 & Hdt1).
    assert (Ht1 : tables d1 !! table self1 = Some (delete (id x) t))
      by (rewrite Htab1; apply lookup_insert_eq).
    assert (Hws1 : well_sized (dump_dtype self1) (delete (id x) t)).
    { rewrite Hdt1. intros k r' Hk. apply lookup_delete_Some in Hk as [_ Hk].
      exact (Hws k r' Hk). }
    exists self1, d1. split; [exact Hdel|].
    intros shards2 timestamp2 Hne2.
    destruct (get_delta_items shards2 timestamp2 self1 d1 _ Hr1 Ht1 Hws1 Hne2)
      as (self2 & items & Hdelta & Hmem & _).
    exists self2, items. split; [exact Hdelta|].
    intros vec u Hin. apply Hmem in Hin as (r' & Hr' & _).
    now rewrite lookup_delete_eq in Hr'.
Qed.

End MoreProperties.

(** ** The further properties at concrete inputs *)

(** X2 at work: the lookup of ["a"] and of an identifier that is not
    stored. *)
Lemma search_is_lookup_per_document_witness :
  exists self',
    search Demo.from_bytes [Demo.doc_a; Demo.doc "z" None []] true Demo.h0 Demo.db1
    = (yield_each (retrieve Demo.from_bytes Demo.h0 true Demo.t1)
         [Demo.doc_a; Demo.doc "z" None []], self', Demo.db1).
Proof.
  destruct (search_is_lookup_per_document Demo.from_bytes
              [Demo.doc_a; Demo.doc "z" None []] true Demo.h0 Demo.db1)
    as (self' & Hrun & _).
  - reflexivity.
  - exists self'. rewrite Hrun.
    assert (Ht : tables Demo.db1 !! table Demo.h0 = Some Demo.t1)
      by (vm_compute; reflexivity).
    now rewrite Ht.
Defined.

(** X3 at work: ["d"] is stored, then retrieved. *)
Lemma add_then_search_round_trip_witness :
  exists self1 d1 self2,
    add Demo.cast Demo.to_bytes [Demo.doc_d] 200 Demo.h0 Demo.db1 = (Ok tt, self1, d1)
    /\ search Demo.from_bytes [Demo.doc "d" None []] true self1 d1
       = ({| yielded := [ {| id := str "d"; embedding := Some Demo.vec1;
                             content := [13]; scores := [] |} ];
             stop := None |}, self2, d1).
Proof.
  destruct (add_then_search_round_trip Demo.cast Demo.to_bytes Demo.from_bytes
              [Demo.doc_d] 200 Demo.h0 Demo.db1 Demo.t1 Demo.doc_d
              (Demo.doc "d" None [])
              {| id := str "d"; embedding := None; content := [13]; scores := [] |}
              (Some Demo.vec1) true)
    as (self1 & d1 & self2 & Hadd & Hsearch).
  - reflexivity.
  - vm_compute. reflexivity.
  - cbn. lia.
  - repeat constructor. eexists. vm_compute. reflexivity.
  - apply (bool_decide_unpack _). vm_compute. exact I.
  - intros x Hx. apply list_elem_of_singleton in Hx as ->. vm_compute. reflexivity.
  - apply list_elem_of_here.
  - vm_compute. reflexivity.
  - vm_compute. reflexivity.
  - reflexivity.
  - exists self1, d1, self2. split; [exact Hadd|exact Hsearch].
Defined.

(** X4 at work: one more row after [add] of ["d"]. *)
Lemma add_grows_size_by_batch_length_witness :
  exists self0 self1 d1 self2,
    get_size Demo.h0 Demo.db1 = (Ok 3, self0, Demo.db1)
    /\ add Demo.cast Demo.to_bytes [Demo.doc_d] 200 Demo.h0 Demo.db1 = (Ok tt, self1, d1)
    /\ get_size self1 d1 = (Ok 4, self2, d1).
Proof.
  destruct (add_grows_size_by_batch_length Demo.cast Demo.to_bytes
              [Demo.doc_d] 200 Demo.h0 Demo.db1 Demo.t1)
    as (self0 & self1 & d1 & self2 & H0 & H1 & H2).
  - reflexivity.
  - vm_compute. reflexivity.
  - cbn. lia.
  - repeat constructor. eexists. vm_compute. reflexivity.
  - apply (bool_decide_unpack _). vm_compute. exact I.
  - intros x Hx. apply list_elem_of_singleton in Hx as ->. vm_compute. reflexivity.
  - exists self0, self1, d1, self2.
    assert (Hsize : size Demo.t1 = 3%nat) by (vm_compute; reflexivity).
    rewrite Hsize in H0, H2. auto.
Defined.

(** X5 at work: ["d"] twice in one batch. *)
Lemma add_repeated_id_rolls_back_batch_witness :
  exists self',
    add Demo.cast Demo.to_bytes [Demo.doc_d; Demo.doc_d] 200 Demo.h0 Demo.db1
    = (Ok tt, self', Demo.db1)
    /\ length (logger self') = 1%nat.
Proof.
  destruct (add_repeated_id_rolls_back_batch Demo.cast Demo.to_bytes
              [Demo.doc_d; Demo.doc_d] 200 Demo.h0 Demo.db1 Demo.t1)
    as (self' & Hrun & Hlog).
  - reflexivity.
  - vm_compute. reflexivity.
  - cbn. lia.
  - repeat constructor; eexists; vm_compute; reflexivity.
  - intros Hnd. apply NoDup_cons in Hnd as [Hnotin _]. apply Hnotin.
    apply list_elem_of_here.
  - exists self'. split; [exact Hrun|]. rewrite Hlog. reflexivity.
Defined.

(** X6 at work: the hard deletion of ["a"]. *)
Lemma hard_delete_removes_rows_witness :
  exists self1 d1 t1,
    delete_ [Demo.doc_a] false 200 Demo.h0 Demo.db1 = (Ok tt, self1, d1)
    /\ tables d1 !! "default_table"%string = Some t1
    /\ t1 !! str "a" = None
    /\ t1 !! str "b" = Some Demo.row_b.
Proof.
  destruct (hard_delete_removes_rows Demo.from_bytes [Demo.doc_a] 200 Demo.h0 Demo.db1
              Demo.t1)
    as (self1 & d1 & t1 & Hdel & Ht1 & Hrows & _).
  - reflexivity.
  - vm_compute. reflexivity.
  - exists self1, d1, t1. split; [exact Hdel|]. split; [exact Ht1|].
    rewrite !Hrows. split.
    + rewrite decide_True; [reflexivity|]. apply list_elem_of_here.
    + rewrite decide_False; [vm_compute; reflexivity|].
      intros Hin. apply list_elem_of_singleton in Hin. discriminate.
Defined.

(** X7 at work: the soft deletion of ["a"], then [cleanup]. *)
Lemma soft_delete_then_cleanup_is_hard_delete_witness :
  exists self1 d1 self2 d2 self3,
    delete_ [Demo.doc_a] true 200 Demo.h0 Demo.db1 = (Ok tt, self1, d1)
    /\ cleanup self1 d1 = (Ok tt, self2, d2)
    /\ delete_ [Demo.doc_a] false 200 Demo.h0 Demo.db1 = (Ok tt, self3, d2).
Proof.
  apply (soft_delete_then_cleanup_is_hard_delete [Demo.doc_a] 200 Demo.h0 Demo.db1
           Demo.t1).
  - reflexivity.
  - vm_compute. reflexivity.
  - apply map_Forall_to_list. vm_compute. repeat constructor; eexists; reflexivity.
Defined.

(** X8 at work: [cleanup] of a table in which ["a"] is a tombstone. *)
Lemma cleanup_removes_exactly_tombstones_witness :
  exists self1 d1 t1,
    cleanup Demo.h0 Demo.db3 = (Ok tt, self1, d1)
    /\ tables d1 !! "default_table"%string = Some t1
    /\ t1 !! str "a" = None
    /\ t1 !! str "b" = Some Demo.row_b
    /\ d1 <> Demo.db3.
Proof.
  destruct (cleanup_removes_exactly_tombstones Demo.h0 Demo.db3 Demo.t3)
    as (self1 & d1 & t1 & Hrun & Ht1 & Hrows & _).
  - reflexivity.
  - vm_compute. reflexivity.
  - assert (Ha : Demo.t3 !! str "a" = Some Demo.row_a_tomb) by (vm_compute; reflexivity).
    assert (Hgone : t1 !! str "a" = None).
    { destruct (t1 !! str "a") as [r|] eqn:Hr; [|reflexivity].
      apply Hrows in Hr as [Hr [b Hb]]. rewrite Ha in Hr. injection Hr as <-.
      discriminate Hb. }
    exists self1, d1, t1. split; [exact Hrun|]. split; [exact Ht1|].
    split; [exact Hgone|]. split.
    + apply Hrows. split; [vm_compute; reflexivity|]. eexists. reflexivity.
    + intros ->.
      assert (Ht : tables Demo.db3 !! table Demo.h0 = Some Demo.t3)
        by (vm_compute; reflexivity).
      rewrite Ht in Ht1. injection Ht1 as <-. rewrite Ha in Hgone. discriminate.
Defined.

(** X9 at work. *)
Lemma clear_empties_primary_table_only_witness :
  exists self1 d1 self2,
    clear Demo.h0 Demo.db2 = (Ok tt, self1, d1)
    /\ tables d1 !! "snapshot"%string = Some Demo.t1
    /\ get_size self1 d1 = (Ok 0, self2, d1).
Proof.
  destruct (clear_empties_primary_table_only Demo.h0 Demo.db2 Demo.t2)
    as (self1 & d1 & self2 & Hrun & _ & Hother & _ & Hsize).
  - reflexivity.
  - vm_compute. reflexivity.
  - exists self1, d1, self2. split; [exact Hrun|]. split; [|exact Hsize].
    rewrite Hother; [vm_compute; reflexivity|]. discriminate.
Defined.

(** X10 at work: the snapshot of [t1]. *)
Lemma snapshot_copies_primary_table_witness :
  exists self' d',
    snapshot Demo.h0 Demo.db1 = (Ok tt, self', d')
    /\ tables d' !! "snapshot"%string = Some Demo.t1.
Proof.
  destruct (snapshot_copies_primary_table Demo.h0 Demo.db1 eq_refl)
    as (self' & d' & Hrun & Hcase).
  assert (Ht : tables Demo.db1 !! table Demo.h0 = Some Demo.t1)
    by (vm_compute; reflexivity).
  rewrite Ht in Hcase.
  destruct (decide (snapshot_table Demo.h0 = table Demo.h0)) as [Heq|_];
    [discriminate Heq|].
  exists self', d'. split; [exact Hrun|exact (proj1 Hcase)].
Defined.

(** X11 at work: the snapshot of [t1] read for the shards 1 and 2. *)
Lemma snapshot_read_is_point_in_time_witness :
  exists self1 d1 items,
    snapshot Demo.h0 Demo.db1 = (Ok tt, self1, d1)
    /\ (str "b", Some Demo.vec1) ∈ items
    /\ (forall vec, (str "a", vec) ∉ items)
    /\ exists self2,
         get_snapshot Demo.str_le [1; 2] self1 Demo.db2
         = ({| yielded := items; stop := None |}, self2, Demo.db2).
Proof.
  destruct (snapshot_read_is_point_in_time Demo.str_le [1; 2] Demo.h0 Demo.db1 Demo.t1)
    as (self1 & d1 & items & Hsnap & Hmem & _ & _ & Hlater & _).
  - reflexivity.
  - vm_compute. reflexivity.
  - discriminate.
  - exact demo_table_well_sized.
  - exists self1, d1, items. split; [exact Hsnap|]. split; [|split].
    + apply Hmem. exists Demo.row_b. split; [vm_compute; reflexivity|].
      split; [apply list_elem_of_here|reflexivity].
    + intros vec Hin. apply Hmem in Hin as (r & Hr & Hsh & _).
      assert (Ha : Demo.t1 !! str "a" = Some Demo.row_a) by (vm_compute; reflexivity).
      rewrite Ha in Hr. injection Hr as <-. cbn in Hsh.
      apply elem_of_cons in Hsh as [Hsh|Hsh]; [discriminate|].
      apply list_elem_of_singleton in Hsh. discriminate.
    + apply Hlater. vm_compute. reflexivity.
Defined.

Lemma demo_updated_rows_after_snapshot :
  forall k r, Demo.t2 !! k = Some r -> r_last_updated r <= 100 -> Demo.t1 !! k = Some r.
Proof.
  change (map_Forall (fun k r => r_last_updated r <= 100 -> Demo.t1 !! k = Some r)
            Demo.t2).
  apply map_Forall_to_list.
  set (l := map_to_list Demo.t2). vm_compute in l. subst l.
  repeat constructor; cbn [uncurry]; intros Hle;
    first [ cbn in Hle; lia | vm_compute; reflexivity ].
Defined.

Lemma demo_table2_well_sized : well_sized float64 Demo.t2.
Proof.
  unfold well_sized. apply map_Forall_to_list.
  vm_compute. repeat constructor.
Defined.

(** X12 at work: ["b"] was updated at time 200, after the snapshot. *)
Lemma snapshot_then_delta_covers_primary_table_witness :
  exists self1 snap self2 delta,
    get_snapshot Demo.str_le [1; 2; 3] Demo.h0 Demo.db2
    = ({| yielded := snap; stop := None |}, self1, Demo.db2)
    /\ _get_delta Demo.str_le [1; 2; 3] 100 self1 Demo.db2
       = ({| yielded := delta; stop := None |}, self2, Demo.db2)
    /\ (str "a", None) ∈ snap
    /\ (exists vec, (str "b", vec, 200) ∈ delta)
    /\ (forall v u, (str "a", v, u) ∉ delta).
Proof.
  destruct (snapshot_then_delta_covers_primary_table Demo.str_le [1; 2; 3] 100
              Demo.h0 Demo.db2 Demo.t1 Demo.t2)
    as (self1 & snap & self2 & delta & Hsnap & Hdelta & Hcover & _).
  - reflexivity.
  - discriminate.
  - vm_compute. reflexivity.
  - vm_compute. reflexivity.
  - exact demo_table_well_sized.
  - exact demo_table2_well_sized.
  - exact demo_updated_rows_after_snapshot.
  - exists self1, snap, self2, delta. split; [exact Hsnap|]. split; [exact Hdelta|].
    destruct (Hcover (str "a") Demo.row_a) as (va & Hva & Ha).
    { vm_compute. reflexivity. }
    { cbn. apply list_elem_of_further, list_elem_of_further, list_elem_of_here. }
    destruct (Hcover (str "b") Demo.row_b2) as (vb & Hvb & Hb).
    { vm_compute. reflexivity. }
    { cbn. apply list_elem_of_here. }
    cbn in Hva. injection Hva as <-.
    rewrite decide_True in Ha by (cbn; lia).
    rewrite decide_False in Hb by (cbn; lia).
    destruct Ha as [Ha Hnot].
    split; [exact Ha|]. split; [exists vb; exact Hb|exact Hnot].
Defined.

(** X13 at work: the latest write to [t2] was at time 200. *)
Lemma data_timestamp_is_latest_write_witness :
  exists self' self2,
    _get_data_timestamp Demo.h0 Demo.db2
    = ({| yielded := [Some 200]; stop := None |}, self', Demo.db2)
    /\ _get_delta Demo.str_le [1; 2; 3] 200 self' Demo.db2
       = ({| yielded := []; stop := None |}, self2, Demo.db2).
Proof.
  pose proof (data_timestamp_is_latest_write Demo.str_le Demo.h0 Demo.db2 eq_refl) as H.
  assert (Ht : tables Demo.db2 !! table Demo.h0 = Some Demo.t2)
    by (vm_compute; reflexivity).
  rewrite Ht in H. destruct H as (self' & m & Hrun & _ & Hm).
  assert (Hb : Demo.t2 !! str "b" = Some Demo.row_b2) by (vm_compute; reflexivity).
  destruct m as [v|].
  - destruct Hm as ((k & r & Hk & Hv) & Hmax & Hdelta).
    pose proof (Hmax _ _ Hb) as Hge. cbn in Hge.
    assert (Hle : r_last_updated r <= 200).
    { clear Hv. revert k r Hk.
      change (map_Forall (fun (_ : pystr) r => r_last_updated r <= 200) Demo.t2).
      apply map_Forall_to_list.
      set (l := map_to_list Demo.t2). vm_compute in l. subst l.
      repeat constructor; cbn; lia. }
    assert (Hv200 : v = 200) by lia. rewrite Hv200 in Hrun, Hdelta.
    destruct (Hdelta [1; 2; 3] ltac:(discriminate)) as (self2 & Hd).
    exists self', self2. split; [exact Hrun|exact Hd].
  - rewrite Hm in Hb. now rewrite lookup_empty in Hb.
Defined.

(** X14 at work: size and timestamp of a fresh snapshot of [t1]. *)
Lemma snapshot_agrees_with_primary_table_witness :
  exists self1 d1 self2 self3,
    snapshot Demo.h0 Demo.db1 = (Ok tt, self1, d1)
    /\ get_size self1 d1 = (Ok 3, self2, d1)
    /\ get_snapshot_size self2 d1 = (Ok 3, self3, d1).
Proof.
  destruct (snapshot_agrees_with_primary_table Demo.str_le [1] Demo.h0 Demo.db1 Demo.t1)
    as (self1 & d1 & self2 & self3 & _ & _ & _ & Hsnap & Hsize & Hssize & _).
  - reflexivity.
  - vm_compute. reflexivity.
  - discriminate.
  - discriminate.
  - exists self1, d1, self2, self3.
    assert (Hn : size Demo.t1 = 3%nat) by (vm_compute; reflexivity).
    rewrite Hn in Hsize, Hssize. auto.
Defined.

(** X15 at work: the dump of [t1], three triples. *)
Lemma get_generator_dumps_every_row_witness :
  exists self' r,
    get_generator Demo.str_le true Demo.h0 Demo.db1 = (r, self', Demo.db1)
    /\ stop r = None
    /\ length (yielded r) = 3%nat
    /\ (str "b", Some Demo.vec1, Some [1; 98; 11]) ∈ yielded r.
Proof.
  destruct (get_generator_dumps_every_row Demo.str_le true Demo.h0 Demo.db1 Demo.t1)
    as (self' & r & Hrun & _ & Hok & _).
  - reflexivity.
  - vm_compute. reflexivity.
  - destruct (Hok demo_table_well_sized) as (Hstop & Hmem & _ & Hlen).
    exists self', r. split; [exact Hrun|]. split; [exact Hstop|]. split.
    + assert (Hn : size Demo.t1 = 3%nat) by (vm_compute; reflexivity).
      rewrite Hn in Hlen. lia.
    + apply Hmem. exists Demo.row_b. split; [vm_compute; reflexivity|].
      split; reflexivity.
Defined.


(** X17 at work: calls on a handler without pool. *)
Lemma no_connection_no_operation_witness :
  get_size Demo.h_dry Demo.db1 = (Raise UnboundLocalError, Demo.h_dry, Demo.db1)
  /\ snapshot Demo.h_dry Demo.db1 = (Raise UnboundLocalError, Demo.h_dry, Demo.db1).
Proof.
  destruct (no_connection_no_operation Demo.cast Demo.to_bytes Demo.from_bytes
              Demo.str_le Demo.h_dry Demo.db1 AttributeError [Demo.doc_a] 200 0 true [1])
    as (_ & _ & _ & _ & _ & Hsize & Hsnap & _).
  - reflexivity.
  - split; [exact Hsize|exact Hsnap].
Defined.

(** X18 at work. *)
Lemma close_ends_the_handler_witness :
  exists self1,
    close Demo.h0 Demo.db1 = (Ok tt, self1, Demo.db1)
    /\ close self1 Demo.db1 = (Raise PoolError, self1, Demo.db1)
    /\ get_size self1 Demo.db1 = (Raise UnboundLocalError, self1, Demo.db1).
Proof.
  destruct (close_ends_the_handler Demo.h0 Demo.db1 eq_refl)
    as (self1 & Hclose & _ & _ & _ & _ & Hagain & Hsize).
  exists self1. split; [exact Hclose|]. split; [apply Hagain|apply Hsize].
Defined.

(** X20 at work: ["b"] is soft-deleted, then written again. *)
Lemma tombstone_is_revived_by_update_not_by_add_witness :
  exists self1 d1 self2 self3 d3 self4,
    delete_ [Demo.doc "b" (Some Demo.vec1) [77]] true 150 Demo.h0 Demo.db1
    = (Ok tt, self1, d1)
    /\ add Demo.cast Demo.to_bytes [Demo.doc "b" (Some Demo.vec1) [77]] 200 self1 d1
       = (Ok tt, self2, d1)
    /\ update Demo.cast Demo.to_bytes [Demo.doc "b" (Some Demo.vec1) [77]] 200 self2 d1
       = (Ok tt, self3, d3)
    /\ search Demo.from_bytes [Demo.doc "b" None []] false self3 d3
       = ({| yielded := [ {| id := str "b"; embedding := None; content := [77];
                             scores := [] |} ];
             stop := None |}, self4, d3).
Proof.
  destruct (tombstone_is_revived_by_update_not_by_add Demo.cast Demo.to_bytes
              Demo.from_bytes (Demo.doc "b" (Some Demo.vec1) [77]) (Demo.doc "b" None [])
              {| id := str "b"; embedding := None; content := [77]; scores := [] |}
              Demo.vec1 150 200 Demo.h0 Demo.db1 Demo.t1 Demo.row_b)
    as (self1 & d1 & self2 & self3 & d3 & t3 & self4 & Hdel & Hadd & Hupd & _ & _ & _
        & Hsearch).
  - reflexivity.
  - vm_compute. reflexivity.
  - vm_compute. reflexivity.
  - reflexivity.
  - cbn. lia.
  - eexists. vm_compute. reflexivity.
  - vm_compute. reflexivity.
  - reflexivity.
  - exists self1, d1, self2, self3, d3, self4. auto.
Defined.

(** X21 at work: the snapshot [t1] read for shard 1 and for the shards 2
    and 3. *)
Lemma snapshot_reads_divide_rows_by_shard_witness :
  exists self1 items1 self2 items2,
    get_snapshot Demo.str_le [1] Demo.h0 Demo.db2
    = ({| yielded := items1; stop := None |}, self1, Demo.db2)
    /\ get_snapshot Demo.str_le [2; 3] self1 Demo.db2
       = ({| yielded := items2; stop := None |}, self2, Demo.db2)
    /\ (forall k, k ∈ map fst items1 -> k ∉ map fst items2).
Proof.
  destruct (snapshot_reads_divide_rows_by_shard Demo.str_le [1] [2; 3] Demo.h0 Demo.db2
              Demo.t1)
    as (self1 & items1 & self2 & items2 & H1 & H2 & Hdisj & _).
  - reflexivity.
  - vm_compute. reflexivity.
  - exact demo_table_well_sized.
  - intros z Hz Hz'. apply list_elem_of_singleton in Hz as ->.
    apply elem_of_cons in Hz' as [Hz'|Hz']; [discriminate|].
    apply list_elem_of_singleton in Hz'. discriminate.
  - exists self1, items1, self2, items2. auto.
Defined.

(** X22 at work: ["d"], stored at time 200, in the delta since time 100. *)
Lemma added_documents_reach_the_delta_witness :
  exists self1 d1 self2 items,
    add Demo.cast Demo.to_bytes [Demo.doc_d] 200 Demo.h0 Demo.db1 = (Ok tt, self1, d1)
    /\ _get_delta Demo.str_le [0; 1; 2; 3] 100 self1 d1
       = ({| yielded := items; stop := None |}, self2, d1)
    /\ (str "d", Some Demo.vec1, 200) ∈ items.
Proof.
  destruct (added_documents_reach_the_delta Demo.cast Demo.to_bytes Demo.str_le
              [Demo.doc_d] 200 100 [0; 1; 2; 3] Demo.h0 Demo.db1 Demo.t1)
    as (self1 & d1 & self2 & items & Hadd & Hdelta & Hin).
  - reflexivity.
  - vm_compute. reflexivity.
  - cbn. lia.
  - repeat constructor. eexists. vm_compute. reflexivity.
  - apply (bool_decide_unpack _). vm_compute. exact I.
  - intros x Hx. apply list_elem_of_singleton in Hx as ->. vm_compute. reflexivity.
  - exact demo_table_well_sized.
  - intros x e Hx He. apply list_elem_of_singleton in Hx as ->.
    injection He as <-. vm_compute. reflexivity.
  - lia.
  - intros z Hz. cbn in Hz.
    assert (Hcases : z = 0 \/ z = 1 \/ z = 2 \/ z = 3) by lia.
    destruct Hcases as [-> | [-> | [-> | ->]]];
      repeat first [apply list_elem_of_here | apply list_elem_of_further].
  - exists self1, d1, self2, items. split; [exact Hadd|]. split; [exact Hdelta|].
    destruct (Hin Demo.doc_d) as (vec & Hvec & Hitem); [apply list_elem_of_here|].
    vm_compute in Hvec. injection Hvec as <-. exact Hitem.
Defined.

(** X23 at work: the soft and the hard deletion of ["a"], whose shard
    is 3. *)
Lemma soft_deletion_is_in_the_delta_hard_deletion_is_not_witness :
  (exists self1 d1 self2 items,
     delete_ [Demo.doc_a] true 200 Demo.h0 Demo.db1 = (Ok tt, self1, d1)
     /\ _get_delta Demo.str_le [3] 100 self1 d1
        = ({| yielded := items; stop := None |}, self2, d1)
     /\ (str "a", None, 200) ∈ items)
  /\ (exists self1 d1 self2 items,
        delete_ [Demo.doc_a] false 200 Demo.h0 Demo.db1 = (Ok tt, self1, d1)
        /\ _get_delta Demo.str_le [3] 0 self1 d1
           = ({| yielded := items; stop := None |}, self2, d1)
        /\ forall vec u, (str "a", vec, u) ∉ items).
Proof.
  destruct (soft_deletion_is_in_the_delta_hard_deletion_is_not Demo.str_le Demo.doc_a
              200 100 [3] Demo.h0 Demo.db1 Demo.t1 Demo.row_a)
    as [(self1 & d1 & self2 & items & Hdel & Hdelta & Hin & _)
        (self1' & d1' & Hdel' & Hnone)].
  - reflexivity.
  - vm_compute. reflexivity.
  - vm_compute. reflexivity.
  - apply list_elem_of_here.
  - lia.
  - exact demo_table_well_sized.
  - split.
    + exists self1, d1, self2, items. auto.
    + destruct (Hnone [3] 0 ltac:(discriminate)) as (self2' & items' & Hdelta' & Hno).
      exists self1', d1', self2', items'. auto.
Defined.
